(** * AI scoring server: the DEX scoring model and the stream processor

    A shallow embedding of [app/utils/types.py], [app/models/dex_model.py]
    and the per-message part of [app/services/kafka_service.py].

    Numeric conventions.  Python [int] is [Z].  Python [float] is idealised:
    USD amounts, feature values and raw scores are exact rationals ([Q]);
    the logistic normalisation, which calls [np.exp], is computed over the
    real numbers ([R]) and rounded back to hundredths.  Rounding error,
    overflow and NaN of binary64 are outside this model; the one infinity
    the code produces from finite totals, a division by a zero deposit
    total, is modelled where it arises.  A statement that binary64
    arithmetic would falsify carries a bound that keeps the totals finite,
    or is restricted to operations that are exact.
    Strings are [string] (one character per byte).  The clock
    ([datetime.now()], [time.time()]) is an explicit argument, read once per
    message.  Exceptions are values of [result]; a [try]/[except] is a match
    on them.  The broker acknowledges every publish, so a message yields
    exactly one published record. *)

From Stdlib Require Import ZArith QArith Qround Qabs Qreals Reals Psatz.
From Stdlib Require Import List String Ascii Bool Permutation.
From Stdlib Require Import DecimalString DecimalN SpecFloat.
Import ListNotations.

Local Open Scope string_scope.
Local Open Scope Z_scope.

(** ** Exceptions *)

Inductive PyExc : Type :=
| KeyError (msg : string)
| ValueError (msg : string)
| ValidationError (msg : string).

Inductive result (A : Type) : Type :=
| Ok (a : A)
| Raise (e : PyExc).

Arguments Ok {A} a.
Arguments Raise {A} e.

Definition bind {A B : Type} (m : result A) (k : A -> result B) : result B :=
  match m with
  | Ok a => k a
  | Raise e => Raise e
  end.

Notation "x <- m ;; k" := (bind m (fun x => k))
  (at level 61, m at next level, right associativity).

Fixpoint mapM {A B : Type} (f : A -> result B) (l : list A) : result (list B) :=
  match l with
  | [] => Ok []
  | a :: t => b <- f a ;; bs <- mapM f t ;; Ok (b :: bs)
  end.

(** ** Data model ([app/utils/types.py]) *)

Record TokenInfo : Type := mkTokenInfo {
  amount : Z;
  amountUSD : Q;
  address : string;
  symbol : string
}.

Record Transaction : Type := mkTransaction {
  document_id : string;
  action : string;
  timestamp : Z;
  caller : string;
  protocol : string;
  poolId : string;
  poolName : string;
  tokenIn : option TokenInfo;
  tokenOut : option TokenInfo;
  token0 : option TokenInfo;
  token1 : option TokenInfo
}.

Record ProtocolData : Type := mkProtocolData {
  protocolType : string;
  transactions : list Transaction
}.

(** The message body as it arrives, before the validators have run. *)
Record MessageData : Type := mkMessageData {
  msg_wallet_address : string;
  msg_data : list ProtocolData
}.

Record WalletTransactionInput : Type := mkWalletTransactionInput {
  wallet_address : string;
  data : list ProtocolData
}.

Record CategoryFeatures : Type := mkCategoryFeatures {
  total_deposit_usd : Q;
  total_swap_volume : Q;
  num_deposits : Z;
  num_swaps : Z;
  avg_hold_time_days : Q;
  unique_pools : Z;
  total_withdraw_usd : Q;
  num_withdraws : Z;
  avg_transaction_size_usd : Q;
  transaction_frequency_days : Q
}.

(** [CategoryFeatures()]: every field at its declared default. *)
Definition CategoryFeatures_default : CategoryFeatures :=
  mkCategoryFeatures 0 0 0 0 0 0 0 0 0 0.

(** The declared fields of the model, in declaration order. *)
Definition CategoryFeatures_fields : list string :=
  [ "total_deposit_usd"; "total_swap_volume"; "num_deposits"; "num_swaps";
    "avg_hold_time_days"; "unique_pools"; "total_withdraw_usd";
    "num_withdraws"; "avg_transaction_size_usd"; "transaction_frequency_days" ].

Record CategoryScore : Type := mkCategoryScore {
  category : string;
  score : Q;
  transaction_count : Z;
  features : CategoryFeatures
}.

Record WalletScoreSuccess : Type := mkWalletScoreSuccess {
  ws_wallet_address : string;
  zscore : string;
  ws_timestamp : Z;
  ws_processing_time_ms : Z;
  ws_categories : list CategoryScore
}.

Record CategoryError : Type := mkCategoryError {
  ce_category : string;
  ce_error : string;
  ce_transaction_count : Z
}.

Record WalletScoreFailure : Type := mkWalletScoreFailure {
  wf_wallet_address : string;
  wf_error : string;
  wf_timestamp : Z;
  wf_processing_time_ms : Z;
  wf_categories : list CategoryError
}.

(** *** Validators *)

Definition valid_actions : list string :=
  [ "swap"; "deposit"; "withdraw"; "add_liquidity"; "remove_liquidity" ].

Definition str_in (s : string) (l : list string) : bool :=
  existsb (String.eqb s) l.

Definition validate_action (v : string) : result string :=
  if negb (str_in v valid_actions)
  then Raise (ValueError "Invalid action")
  else Ok v.

Definition startswith (p s : string) : bool := String.prefix p s.

Definition len (s : string) : Z := Z.of_nat (String.length s).

Definition validate_wallet_address (v : string) : result string :=
  if negb (startswith "0x" v) || negb (len v =? 42)
  then Raise (ValueError "Invalid wallet address format")
  else Ok v.

(** Constructing a [Transaction] runs [validate_action] on its action. *)
Definition Transaction_validate (tx : Transaction) : result Transaction :=
  _ <- validate_action (action tx) ;; Ok tx.

Definition ProtocolData_validate (pd : ProtocolData) : result ProtocolData :=
  txs <- mapM Transaction_validate (transactions pd) ;;
  Ok (mkProtocolData (protocolType pd) txs).

(** Building a [WalletTransactionInput] from the message body: any failing
    field validator surfaces as one [ValidationError]. *)
Definition WalletTransactionInput_init (m : MessageData)
  : result WalletTransactionInput :=
  match validate_wallet_address (msg_wallet_address m),
        mapM ProtocolData_validate (msg_data m) with
  | Ok w, Ok d => Ok (mkWalletTransactionInput w d)
  | _, _ => Raise (ValidationError "validation error for WalletTransactionInput")
  end.

(** ** Python and pandas primitives used by the model *)

(** [str.lower()] on the ASCII range (other bytes are left alone, which is
    all the comparison with ["dexes"] can observe). *)
Definition lower_ascii (c : ascii) : ascii :=
  let n := nat_of_ascii c in
  if (Nat.leb 65 n && Nat.leb n 90)%bool then ascii_of_nat (n + 32) else c.

Fixpoint lower (s : string) : string :=
  match s with
  | EmptyString => EmptyString
  | String c t => String (lower_ascii c) (lower t)
  end.

Definition Qge_bool (x y : Q) : bool := Qle_bool y x.
Definition Qgt_bool (x y : Q) : bool := negb (Qle_bool x y).

(** The built-in [min(a, b)] and [max(a, b)]: the first argument wins ties. *)
Definition py_min (a b : Q) : Q := if Qgt_bool a b then b else a.

(** [Series.sum()]; an empty selection sums to 0.  The sum is exact and so
    does not depend on the order of the rows; a binary64 sum is rounded at
    each step and does.  What is stated of a total below is which amounts
    it sums. *)
Definition Qsum (l : list Q) : Q := fold_right Qplus 0%Q l.

(** [Series.nunique()] and [len(set(...))] on strings. *)
Definition nunique (l : list string) : Z :=
  Z.of_nat (List.length (nodup string_dec l)).

Definition list_max (l : list Z) : Z :=
  match l with
  | [] => 0
  | h :: t => fold_left Z.max t h
  end.

Definition list_min (l : list Z) : Z :=
  match l with
  | [] => 0
  | h :: t => fold_left Z.min t h
  end.

(** [datetime.fromtimestamp]: a naive local datetime, kept as seconds since
    the epoch; the host's local time is taken to be UTC.  Years outside
    1..9999 raise, and so does the first day of year 1: to detect a fold the
    function also converts the instant 24 hours earlier.  The accepted range
    therefore starts at 0001-01-02 00:00:00 and ends at
    9999-12-31 23:59:59. *)
Definition max_fold_seconds : Z := 24 * 3600.
Definition MIN_TIMESTAMP : Z := -62135596800 + max_fold_seconds.
Definition MAX_TIMESTAMP : Z := 253402300799.

Definition datetime_fromtimestamp (ts : Z) : result Z :=
  if (MIN_TIMESTAMP <=? ts) && (ts <=? MAX_TIMESTAMP)
  then Ok ts
  else Raise (ValueError "year is out of range").

(** [timedelta.days] of a difference of two datetimes: floor division. *)
Definition days_between (later earlier : Z) : Z := (later - earlier) / 86400.

(** ** The transaction table ([_transactions_to_dataframe]) *)

Record Row : Type := mkRow {
  row_document_id : string;
  row_action : string;
  row_timestamp : Z;
  row_caller : string;
  row_protocol : string;
  row_poolId : string;
  row_poolName : string;
  token_in_amount : Q;
  token_out_amount : Q;
  token0_amount : Q;
  token1_amount : Q;
  datetime : Z
}.

Definition DataFrame : Type := list Row.

Definition amountUSD_or_0 (t : option TokenInfo) : Q :=
  match t with
  | Some ti => amountUSD ti
  | None => 0%Q
  end.

Definition make_row (tx : Transaction) : result Row :=
  dt <- datetime_fromtimestamp (timestamp tx) ;;
  Ok (mkRow (document_id tx) (action tx) (timestamp tx) (caller tx)
            (protocol tx) (poolId tx) (poolName tx)
            (amountUSD_or_0 (tokenIn tx)) (amountUSD_or_0 (tokenOut tx))
            (amountUSD_or_0 (token0 tx)) (amountUSD_or_0 (token1 tx))
            dt).

(** [df.sort_values('timestamp')] on a frame that has the column: rows in
    ascending timestamp order (insertion sort; no feature below depends on
    how ties are ordered). *)
Fixpoint insert_by_timestamp (r : Row) (df : DataFrame) : DataFrame :=
  match df with
  | [] => [r]
  | h :: t =>
      if row_timestamp r <=? row_timestamp h
      then r :: h :: t
      else h :: insert_by_timestamp r t
  end.

Definition sort_rows (df : DataFrame) : DataFrame :=
  fold_right insert_by_timestamp [] df.

(** A frame built from an empty list of rows has no columns, so sorting it
    by ['timestamp'] raises [KeyError]. *)
Definition sort_values_timestamp (df : DataFrame) : result DataFrame :=
  match df with
  | [] => Raise (KeyError "timestamp")
  | _ :: _ => Ok (sort_rows df)
  end.

Definition _transactions_to_dataframe (txs : list Transaction)
  : result DataFrame :=
  data <- mapM make_row txs ;;
  sort_values_timestamp data.

(** ** Feature extraction ([_extract_dex_features]) *)

Definition deposit_actions : list string := [ "deposit"; "add_liquidity" ].
Definition withdraw_actions : list string := [ "withdraw"; "remove_liquidity" ].

Definition isin (l : list string) (r : Row) : bool := str_in (row_action r) l.
Definition is_swap (r : Row) : bool := String.eqb (row_action r) "swap".

Definition df_len (df : DataFrame) : Z := Z.of_nat (List.length df).

Definition _extract_dex_features (now : Z) (df : DataFrame) : CategoryFeatures :=
  let deposits := filter (isin deposit_actions) df in
  let swaps := filter is_swap df in
  let withdraws := filter (isin withdraw_actions) df in
  let num_deposits := df_len deposits in
  let num_swaps := df_len swaps in
  let num_withdraws := df_len withdraws in
  let total_deposit_usd :=
    (Qsum (map token0_amount deposits) + Qsum (map token1_amount deposits))%Q in
  let total_swap_volume := Qsum (map token_in_amount swaps) in
  let total_withdraw_usd :=
    (Qsum (map token0_amount withdraws) + Qsum (map token1_amount withdraws))%Q in
  let unique_pools := nunique (map row_poolId df) in
  let total_volume :=
    (total_deposit_usd + total_swap_volume + total_withdraw_usd)%Q in
  let total_transactions := df_len df in
  let avg_transaction_size_usd :=
    if 0 <? total_transactions
    then (total_volume / inject_Z total_transactions)%Q
    else 0%Q in
  let avg_hold_time_days :=
    if 0 <? num_deposits then
      let deposit_times := map datetime deposits in
      if 0 <? Z.of_nat (List.length deposit_times) then
        let hold_times := map (fun dt => days_between now dt) deposit_times in
        (Qsum (map inject_Z hold_times)
           / inject_Z (Z.of_nat (List.length hold_times)))%Q
      else 0%Q
    else 0%Q in
  let transaction_frequency_days :=
    if 1 <? df_len df then
      let time_span :=
        days_between (list_max (map datetime df)) (list_min (map datetime df)) in
      if 0 <? time_span
      then (inject_Z time_span / inject_Z (df_len df))%Q
      else 0%Q
    else 0%Q in
  mkCategoryFeatures total_deposit_usd total_swap_volume num_deposits num_swaps
    avg_hold_time_days unique_pools total_withdraw_usd num_withdraws
    avg_transaction_size_usd transaction_frequency_days.

(** ** The scoring model ([DEXScoringModel]) *)

Definition lp_weight : Q := 6 # 10.
Definition swap_weight : Q := 4 # 10.

Definition volume_thresholds (k : string) : Q :=
  if String.eqb k "low" then 100%Q
  else if String.eqb k "medium" then 1000%Q
  else if String.eqb k "high" then 10000%Q
  else if String.eqb k "whale" then 100000%Q
  else 0%Q.

Definition frequency_thresholds (k : string) : Z :=
  if String.eqb k "low" then 1
  else if String.eqb k "medium" then 5
  else if String.eqb k "high" then 20
  else if String.eqb k "very_high" then 50
  else 0.

Definition holding_time_thresholds (k : string) : Q :=
  if String.eqb k "short" then 7%Q
  else if String.eqb k "medium" then 30%Q
  else if String.eqb k "long" then 90%Q
  else if String.eqb k "hodl" then 365%Q
  else 0%Q.

(** The four-tier volume bonus shared by the LP and the swap score. *)
Definition volume_bonus (v : Q) : Q :=
  if Qge_bool v (volume_thresholds "whale") then 300%Q
  else if Qge_bool v (volume_thresholds "high") then 200%Q
  else if Qge_bool v (volume_thresholds "medium") then 150%Q
  else if Qge_bool v (volume_thresholds "low") then 100%Q
  else 0%Q.

Definition frequency_bonus (n : Z) : Q :=
  if frequency_thresholds "very_high" <=? n then 200%Q
  else if frequency_thresholds "high" <=? n then 150%Q
  else if frequency_thresholds "medium" <=? n then 100%Q
  else if frequency_thresholds "low" <=? n then 50%Q
  else 0%Q.

Definition holding_bonus (d : Q) : Q :=
  if Qge_bool d (holding_time_thresholds "hodl") then 200%Q
  else if Qge_bool d (holding_time_thresholds "long") then 150%Q
  else if Qge_bool d (holding_time_thresholds "medium") then 100%Q
  else if Qge_bool d (holding_time_thresholds "short") then 50%Q
  else 0%Q.

Definition pool_bonus (p : Z) : Q :=
  if 5 <=? p then 100%Q
  else if 3 <=? p then 50%Q
  else if 1 <=? p then 25%Q
  else 0%Q.

(** Liquidity retention bonus, as added to [score].  The two totals are
    numpy floats, so dividing by a zero deposit total does not raise: it
    gives [inf], with a warning ([dep > wd] makes the numerator positive).
    [None] stands for that infinity. *)
Definition retention_bonus (dep wd : Q) : option Q :=
  if Qgt_bool dep wd then
    if Qeq_bool dep 0 then None
    else
      let retention_ratio := ((dep - wd) / dep)%Q in
      Some (retention_ratio * 100)%Q
  else Some 0%Q.

(** [min(score, 1000)] of an infinite score is 1000.  The bonuses other
    than the retention bonus are integers chosen by comparisons, which
    binary64 evaluates exactly; the retention ratio is a rounded quotient
    there and is NaN for an infinite deposit total. *)
Definition _calculate_lp_score (f : CategoryFeatures) : Q :=
  let score := 0%Q in
  let score := (score + volume_bonus (total_deposit_usd f))%Q in
  let score := (score + frequency_bonus (num_deposits f))%Q in
  let score := (score + holding_bonus (avg_hold_time_days f))%Q in
  let score := (score + pool_bonus (unique_pools f))%Q in
  match retention_bonus (total_deposit_usd f) (total_withdraw_usd f) with
  | Some bonus => py_min (score + bonus)%Q 1000
  | None => 1000%Q
  end.

Definition size_bonus (a : Q) : Q :=
  if Qgt_bool a 0 then
    if Qge_bool a 1000 then 100%Q
    else if Qge_bool a 100 then 75%Q
    else if Qge_bool a 10 then 50%Q
    else 0%Q
  else 0%Q.

Definition _calculate_swap_score (f : CategoryFeatures) : Q :=
  let score := 0%Q in
  let score := (score + volume_bonus (total_swap_volume f))%Q in
  let score := (score + frequency_bonus (num_swaps f))%Q in
  let score := (score + size_bonus (avg_transaction_size_usd f))%Q in
  let score := (score + pool_bonus (unique_pools f))%Q in
  py_min score 1000.

(** [_normalize_score]: the logistic curve, then the clamp
    [max(0, min(1000, normalized))]. *)
Definition _normalize_score (score : Q) : R :=
  let normalized := (1000 / (1 + exp (- (Q2R score - 500) / 200)))%R in
  Rmax 0 (Rmin 1000 normalized).

(** [round(x, 2)]: the nearest hundredth, ties to the even one. *)
Definition round_half_even (x : R) : Z :=
  let n := Zfloor x in
  let d := (x - IZR n)%R in
  if Rlt_dec d (1 / 2) then n
  else if Rlt_dec (1 / 2) d then n + 1
  else if Z.even n then n else n + 1.

Definition py_round2 (x : R) : Q := Qmake (round_half_even (x * 100)) 100.

Definition _calculate_dex_score (now : Z) (txs : list Transaction)
  : result CategoryScore :=
  df <- _transactions_to_dataframe txs ;;
  let features := _extract_dex_features now df in
  let lp_score := _calculate_lp_score features in
  let swap_score := _calculate_swap_score features in
  let combined_score := (lp_score * lp_weight + swap_score * swap_weight)%Q in
  let normalized_score := _normalize_score combined_score in
  Ok (mkCategoryScore "dexes" (py_round2 normalized_score)
        (Z.of_nat (List.length txs)) features).

(** *** Attribute assignment on a [CategoryFeatures] object

    The model class declares no extra-field policy, so assigning to a name
    that is not one of its declared fields raises [ValueError]; assigning to
    a declared field stores the value. *)
Definition setattr_CategoryFeatures (f : CategoryFeatures) (name : string)
  (v : Z) : result CategoryFeatures :=
  if negb (str_in name CategoryFeatures_fields)
  then Raise (ValueError "CategoryFeatures object has no field")
  else
    let q := inject_Z v in
    Ok (mkCategoryFeatures
          (if String.eqb name "total_deposit_usd" then q else total_deposit_usd f)
          (if String.eqb name "total_swap_volume" then q else total_swap_volume f)
          (if String.eqb name "num_deposits" then v else num_deposits f)
          (if String.eqb name "num_swaps" then v else num_swaps f)
          (if String.eqb name "avg_hold_time_days" then q else avg_hold_time_days f)
          (if String.eqb name "unique_pools" then v else unique_pools f)
          (if String.eqb name "total_withdraw_usd" then q else total_withdraw_usd f)
          (if String.eqb name "num_withdraws" then v else num_withdraws f)
          (if String.eqb name "avg_transaction_size_usd" then q
           else avg_transaction_size_usd f)
          (if String.eqb name "transaction_frequency_days" then q
           else transaction_frequency_days f)).

(** [_calculate_basic_protocol_score].  The first assignment names
    [transaction_count], the second [unique_pools]; the count read back for
    the base score is the value the first assignment was given.
    [round(base_score, 2)] on an [int] returns the [int]. *)
Definition _calculate_basic_protocol_score (protocol_data : ProtocolData)
  : result CategoryScore :=
  let features := CategoryFeatures_default in
  features <- setattr_CategoryFeatures features "transaction_count"
                (Z.of_nat (List.length (transactions protocol_data))) ;;
  features <- setattr_CategoryFeatures features "unique_pools"
                (nunique (map poolId (transactions protocol_data))) ;;
  let base_score :=
    Z.min (Z.of_nat (List.length (transactions protocol_data)) * 10
           + unique_pools features * 5) 500 in
  Ok (mkCategoryScore (protocolType protocol_data) (inject_Z base_score)
        (Z.of_nat (List.length (transactions protocol_data))) features).

(** The [for] loop of [process_wallet_data], with the three accumulators
    it updates.  The loop is written once, over the scorer it calls for the
    protocol types other than "dexes", so that what the loop does with a
    score can be told apart from what that scorer does; the code's loop is
    the instance at [_calculate_basic_protocol_score]. *)
Section Aggregation.

Variable basic_protocol_score : ProtocolData -> result CategoryScore.

Fixpoint process_loop_with (now : Z) (wallet_data : list ProtocolData)
  (category_scores : list CategoryScore) (total_score total_weight : Q)
  : result (list CategoryScore * Q * Q) :=
  match wallet_data with
  | [] => Ok (category_scores, total_score, total_weight)
  | protocol_data :: rest =>
      if String.eqb (lower (protocolType protocol_data)) "dexes" then
        category_score <- _calculate_dex_score now (transactions protocol_data) ;;
        let weighted_score := (score category_score * 1)%Q in
        process_loop_with now rest (category_scores ++ [category_score])
          (total_score + weighted_score)%Q (total_weight + 1)%Q
      else
        category_score <- basic_protocol_score protocol_data ;;
        let weighted_score := (score category_score * (1 # 2))%Q in
        process_loop_with now rest (category_scores ++ [category_score])
          (total_score + weighted_score)%Q (total_weight + (1 # 2))%Q
  end.

Definition process_wallet_data_with (now : Z)
  (wallet_data : list ProtocolData) : result (list CategoryScore * Q) :=
  acc <- process_loop_with now wallet_data [] 0%Q 0%Q ;;
  let '(category_scores, total_score, total_weight) := acc in
  let overall_score :=
    if Qgt_bool total_weight 0 then (total_score / total_weight)%Q else 0%Q in
  Ok (category_scores, overall_score).

End Aggregation.

Definition process_loop :=
  process_loop_with _calculate_basic_protocol_score.

Definition process_wallet_data (now : Z) (wallet_data : list ProtocolData)
  : result (list CategoryScore * Q) :=
  process_wallet_data_with _calculate_basic_protocol_score now wallet_data.

(** ** The stream processor ([KafkaService]) *)

(** *** Formatting the score: the [.18f] format specification

    Fixed-point notation with 18 digits after the point: the value is
    rounded to a multiple of 10^-18 (ties to even) and printed as a sign,
    the integer digits, a point and the 18 fractional digits. *)
Definition Qround_half_even (q : Q) : Z :=
  let n := Qfloor q in
  match Qcompare (q - inject_Z n) (1 # 2) with
  | Lt => n
  | Gt => n + 1
  | Eq => if Z.even n then n else n + 1
  end.

Definition digit_char (d : Z) : ascii := ascii_of_nat (48 + Z.to_nat d).

(** The [k] low decimal digits of [n], most significant first. *)
Fixpoint digits_fixed (k : nat) (n : Z) : string :=
  match k with
  | O => EmptyString
  | S k' => String.append (digits_fixed k' (n / 10))
                          (String (digit_char (n mod 10)) EmptyString)
  end.

Definition str_of_nonneg (n : Z) : string :=
  NilZero.string_of_uint (N.to_uint (Z.to_N n)).

Definition format_f18 (x : Q) : string :=
  let scaled := Z.abs (Qround_half_even (x * inject_Z (10 ^ 18))) in
  let sign := if Qgt_bool 0 x then "-" else "" in
  String.append sign
    (String.append (str_of_nonneg (scaled / 10 ^ 18))
       (String "." (digits_fixed 18 (scaled mod 10 ^ 18)))).

(** *** What [Decimal(v)] accepts: the finite numeric strings
    [[sign] (digits [. [digits]] | . digits) [(e|E) [sign] digits]]. *)
Definition is_digit (c : ascii) : bool :=
  let n := nat_of_ascii c in (Nat.leb 48 n && Nat.leb n 57)%bool.

Fixpoint all_digits (s : string) : bool :=
  match s with
  | EmptyString => true
  | String c t => is_digit c && all_digits t
  end.

Definition nonempty (s : string) : bool :=
  match s with
  | EmptyString => false
  | String _ _ => true
  end.

(** Split at the first character satisfying [p] (which is dropped). *)
Fixpoint split_at (p : ascii -> bool) (s : string) : string * option string :=
  match s with
  | EmptyString => (EmptyString, None)
  | String c t =>
      if p c then (EmptyString, Some t)
      else let '(a, b) := split_at p t in (String c a, b)
  end.

Definition strip_sign (s : string) : string :=
  match s with
  | String c t => if (Ascii.eqb c "-" || Ascii.eqb c "+")%bool then t else s
  | EmptyString => s
  end.

Definition is_dot (c : ascii) : bool := Ascii.eqb c ".".
Definition is_exp_mark (c : ascii) : bool :=
  (Ascii.eqb c "e" || Ascii.eqb c "E")%bool.

Definition decimal_part_ok (s : string) : bool :=
  match split_at is_dot s with
  | (ip, None) => nonempty ip && all_digits ip
  | (ip, Some fp) =>
      all_digits ip && all_digits fp && (nonempty ip || nonempty fp)
  end.

(** The numeric strings [Decimal] reads: a sign, digits with at most one
    point, an optional exponent.  [Decimal] also reads "Infinity", "NaN"
    and strings with surrounding spaces or underscores, which this test
    refuses; it is used here only on the output of the formatter. *)
Definition Decimal_accepts (v : string) : bool :=
  match split_at is_exp_mark (strip_sign v) with
  | (m, None) => decimal_part_ok m
  | (m, Some e) =>
      decimal_part_ok m && nonempty (strip_sign e) && all_digits (strip_sign e)
  end.

Definition validate_zscore (v : string) : result string :=
  if Decimal_accepts v then Ok v
  else Raise (ValueError "zscore must be a valid decimal string").

Definition WalletScoreSuccess_init (wallet_address zscore : string)
  (timestamp processing_time_ms : Z) (categories : list CategoryScore)
  : result WalletScoreSuccess :=
  match validate_zscore zscore with
  | Ok z => Ok (mkWalletScoreSuccess wallet_address z timestamp
                  processing_time_ms categories)
  | Raise _ => Raise (ValidationError "validation error for WalletScoreSuccess")
  end.

(** *** Running statistics *)

Record Stats : Type := mkStats {
  total_wallets_processed : Z;
  successful_wallets : Z;
  failed_wallets : Z;
  total_processing_time_ms : Z;
  last_processed_wallet : option string;
  start_time : Z
}.

Definition initial_stats (start : Z) : Stats := mkStats 0 0 0 0 None start.

Definition _update_stats (st : Stats) (success : bool)
  (processing_time_ms : Z) (wallet_address : string) : Stats :=
  mkStats (total_wallets_processed st + 1)
          (if success then successful_wallets st + 1 else successful_wallets st)
          (if success then failed_wallets st else failed_wallets st + 1)
          (total_processing_time_ms st + processing_time_ms)
          (Some wallet_address)
          (start_time st).

(** The dictionary returned by [get_stats]: a copy of the counters plus the
    two derived entries. *)
Record StatsView : Type := mkStatsView {
  sv_stats : Stats;
  uptime_seconds : Z;
  average_processing_time_ms : Q
}.

Definition get_stats (now : Z) (st : Stats) : StatsView :=
  let uptime_seconds := now - start_time st in
  mkStatsView st uptime_seconds
    (if 0 <? total_wallets_processed st
     then (inject_Z (total_processing_time_ms st)
           / inject_Z (total_wallets_processed st))%Q
     else 0%Q).

(** *** One message ([_process_message])

    The broker is taken to acknowledge every publish.  [now] is the clock
    reading used for timestamps and hold times, [processing_time_ms] the
    elapsed time measured for the message. *)
Inductive Published : Type :=
| PublishedSuccess (m : WalletScoreSuccess)
| PublishedFailure (m : WalletScoreFailure).

(** [str(e)].  A [KeyError] shows the repr of its key, which for the keys
    raised here (no quote or escape inside) is the key between single
    quotes.  The text of a pydantic [ValidationError] is kept short: the
    real one also lists each offending field. *)
Definition exc_str (e : PyExc) : string :=
  match e with
  | KeyError key => String.append "'" (String.append key "'")
  | ValueError m => m
  | ValidationError m => m
  end.

Definition _create_error_categories (message_data : MessageData)
  : list CategoryError :=
  map (fun protocol_data =>
         mkCategoryError (protocolType protocol_data) "Failed to process"
           (Z.of_nat (List.length (transactions protocol_data))))
      (msg_data message_data).

(** The [try] block: the value of the local [wallet_address] when the block
    is left, and either the success message or the exception raised. *)
Definition try_block (now processing_time_ms : Z) (message_data : MessageData)
  : string * result WalletScoreSuccess :=
  match WalletTransactionInput_init message_data with
  | Raise e => ("unknown", Raise e)
  | Ok wallet_input =>
      let wallet_address := wallet_address wallet_input in
      (wallet_address,
       r <- process_wallet_data now (data wallet_input) ;;
       let '(category_scores, overall_score) := r in
       WalletScoreSuccess_init wallet_address (format_f18 overall_score)
         now processing_time_ms category_scores)
  end.

Definition _process_message (st : Stats) (now processing_time_ms : Z)
  (message_data : MessageData) : Published * Stats :=
  let '(wallet_address, outcome) :=
    try_block now processing_time_ms message_data in
  match outcome with
  | Ok success_message =>
      (PublishedSuccess success_message,
       _update_stats st true processing_time_ms wallet_address)
  | Raise (ValidationError m) =>
      (PublishedFailure
         (mkWalletScoreFailure wallet_address
            (String.append "Validation error: " m) now processing_time_ms
            (_create_error_categories message_data)),
       _update_stats st false processing_time_ms wallet_address)
  | Raise e =>
      (PublishedFailure
         (mkWalletScoreFailure wallet_address
            (String.append "Processing error: " (exc_str e)) now
            processing_time_ms (_create_error_categories message_data)),
       _update_stats st false processing_time_ms wallet_address)
  end.

(** A run of the consumer: the statistics after a batch of messages, each
    with its own clock readings. *)
Fixpoint process_all (st : Stats) (batch : list (Z * Z * MessageData))
  : list Published * Stats :=
  match batch with
  | [] => ([], st)
  | (now, ms, m) :: rest =>
      let '(p, st1) := _process_message st now ms m in
      let '(ps, st2) := process_all st1 rest in
      (p :: ps, st2)
  end.

(** *** Behaviour tags ([get_user_tags])

    Tags are appended in source order; nothing in the body can raise on a
    [CategoryFeatures] value, so the [except] branch is never taken. *)
Definition get_user_tags (features : CategoryFeatures) (overall_score : Q)
  : list string :=
  let tags : list string := [] in
  let tags :=
    if Qge_bool (total_deposit_usd features) (volume_thresholds "whale")
    then (tags ++ ["Whale LP"])%list
    else if Qge_bool (total_deposit_usd features) (volume_thresholds "high")
    then (tags ++ ["Large LP"])%list
    else tags in
  let tags :=
    if Qge_bool (total_swap_volume features) (volume_thresholds "whale")
    then (tags ++ ["Whale Trader"])%list
    else if Qge_bool (total_swap_volume features) (volume_thresholds "high")
    then (tags ++ ["Active Trader"])%list
    else tags in
  let tags :=
    if Qge_bool (avg_hold_time_days features) (holding_time_thresholds "hodl")
    then (tags ++ ["HODLer"])%list
    else if Qge_bool (avg_hold_time_days features)
                     (holding_time_thresholds "long")
    then (tags ++ ["Long-term LP"])%list
    else tags in
  let tags :=
    if frequency_thresholds "very_high" <=? num_deposits features
    then (tags ++ ["Frequent LP"])%list
    else tags in
  let tags :=
    if frequency_thresholds "very_high" <=? num_swaps features
    then (tags ++ ["Frequent Trader"])%list
    else tags in
  let tags :=
    if Qge_bool overall_score 800 then (tags ++ ["Elite User"])%list
    else if Qge_bool overall_score 600 then (tags ++ ["Premium User"])%list
    else if Qge_bool overall_score 400 then (tags ++ ["Regular User"])%list
    else (tags ++ ["New User"])%list in
  tags.

(** *** Publishing, with a broker that may fail ([_publish_success],
    [_publish_failure], [start_consuming])

    A send is either confirmed by the broker or raises an exception, of
    which the handlers use the text.  [c_sends] lists the outcome of the
    coming sends (past the end of the list every send is confirmed) and
    [c_delivered] the records confirmed so far.  [_process_message] above is
    the special case of a broker that confirms everything. *)
Inductive SendOutcome : Type :=
| Confirmed
| SendRaises (text : string).

Record Consumer : Type := mkConsumer {
  c_stats : Stats;
  c_sends : list SendOutcome;
  c_delivered : list Published
}.

Definition with_stats (c : Consumer) (st : Stats) : Consumer :=
  mkConsumer st (c_sends c) (c_delivered c).

(** [producer.send(...)] followed by [future.get(timeout=10)]. *)
Definition producer_send (c : Consumer) (r : Published)
  : SendOutcome * Consumer :=
  match c_sends c with
  | SendRaises text :: rest =>
      (SendRaises text, mkConsumer (c_stats c) rest (c_delivered c))
  | Confirmed :: rest =>
      (Confirmed, mkConsumer (c_stats c) rest (c_delivered c ++ [r])%list)
  | [] => (Confirmed, mkConsumer (c_stats c) [] (c_delivered c ++ [r])%list)
  end.

Definition _publish_success (c : Consumer)
  (success_message : WalletScoreSuccess) : SendOutcome * Consumer :=
  producer_send c (PublishedSuccess success_message).

Definition _publish_failure (c : Consumer) (wallet_address error : string)
  (now processing_time_ms : Z) (categories : list CategoryError)
  : SendOutcome * Consumer :=
  producer_send c
    (PublishedFailure
       (mkWalletScoreFailure wallet_address error now processing_time_ms
          categories)).

(** An [except] branch of [_process_message]: publish the failure record,
    then count the failure; an exception of the publish escapes before the
    statistics are touched. *)
Definition except_branch (c : Consumer) (wallet_address error : string)
  (now processing_time_ms : Z) (message_data : MessageData)
  : SendOutcome * Consumer :=
  let '(sent, c1) :=
    _publish_failure c wallet_address error now processing_time_ms
      (_create_error_categories message_data) in
  match sent with
  | Confirmed =>
      (Confirmed,
       with_stats c1
         (_update_stats (c_stats c1) false processing_time_ms wallet_address))
  | SendRaises text => (SendRaises text, c1)
  end.

(** [_process_message] with its publishes; the outcome is [SendRaises] when
    an exception escapes the method. *)
Definition _process_message_sent (c : Consumer) (now processing_time_ms : Z)
  (message_data : MessageData) : SendOutcome * Consumer :=
  let '(wallet_address, outcome) :=
    try_block now processing_time_ms message_data in
  match outcome with
  | Ok success_message =>
      let '(sent, c1) := _publish_success c success_message in
      match sent with
      | Confirmed =>
          (Confirmed,
           with_stats c1
             (_update_stats (c_stats c1) true processing_time_ms
                wallet_address))
      | SendRaises text =>
          except_branch c1 wallet_address
            (String.append "Processing error: " text)
            now processing_time_ms message_data
      end
  | Raise (ValidationError m) =>
      except_branch c wallet_address (String.append "Validation error: " m)
        now processing_time_ms message_data
  | Raise e =>
      except_branch c wallet_address
        (String.append "Processing error: " (exc_str e))
        now processing_time_ms message_data
  end.

(** The message loop of [start_consuming] over the polled messages: an
    exception escaping [_process_message] is answered with a failure record
    for wallet "unknown"; if that publish raises too, the exception leaves
    the loop and the consumer shuts down ([false]). *)
Fixpoint consume (c : Consumer) (batch : list (Z * Z * MessageData))
  : bool * Consumer :=
  match batch with
  | [] => (true, c)
  | (now, ms, m) :: rest =>
      let '(outcome, c1) := _process_message_sent c now ms m in
      match outcome with
      | Confirmed => consume c1 rest
      | SendRaises text =>
          let '(sent, c2) :=
            _publish_failure c1 "unknown"
              (String.append "Message processing failed: " text) now 0 [] in
          match sent with
          | Confirmed => consume c2 rest
          | SendRaises _ => (false, c2)
          end
      end
  end.

(** ** Configuration ([app/utils/config.py]) *)

(** The process environment as [os.getenv] reads it, after [load_dotenv()]. *)
Definition Environ : Type := string -> option string.

Definition getenv (environ : Environ) (key default : string) : string :=
  match environ key with
  | Some v => v
  | None => default
  end.

Record Config : Type := mkConfig {
  HOST : string;
  PORT : Z;
  LOG_LEVEL : string;
  ENVIRONMENT : string;
  KAFKA_BOOTSTRAP_SERVERS : string;
  KAFKA_INPUT_TOPIC : string;
  KAFKA_SUCCESS_TOPIC : string;
  KAFKA_FAILURE_TOPIC : string;
  KAFKA_CONSUMER_GROUP : string;
  MONGODB_URL : string;
  MONGODB_DATABASE : string;
  MONGODB_TOKENS_COLLECTION : string;
  MONGODB_THRESHOLDS_COLLECTION : string;
  MAX_WORKERS : Z;
  BATCH_SIZE : Z;
  PROCESSING_TIMEOUT_MS : Z;
  LOG_FORMAT : string;
  LOG_FILE : option string
}.

Definition required_vars : list string :=
  [ "KAFKA_BOOTSTRAP_SERVERS"; "KAFKA_INPUT_TOPIC"; "KAFKA_SUCCESS_TOPIC";
    "KAFKA_FAILURE_TOPIC"; "MONGODB_URL" ].

(** [getattr(self, var)] for the attributes [_validate_config] reads. *)
Definition getattr (self : Config) (var : string) : string :=
  if (var =? "KAFKA_BOOTSTRAP_SERVERS")%string then KAFKA_BOOTSTRAP_SERVERS self
  else if (var =? "KAFKA_INPUT_TOPIC")%string then KAFKA_INPUT_TOPIC self
  else if (var =? "KAFKA_SUCCESS_TOPIC")%string then KAFKA_SUCCESS_TOPIC self
  else if (var =? "KAFKA_FAILURE_TOPIC")%string then KAFKA_FAILURE_TOPIC self
  else if (var =? "MONGODB_URL")%string then MONGODB_URL self
  else "".

Definition _validate_config (self : Config) : result unit :=
  let missing_vars :=
    filter (fun var => negb (nonempty (getattr self var))) required_vars in
  match missing_vars with
  | [] => Ok tt
  | _ :: _ =>
      Raise (ValueError
               (String.append "Missing required environment variables: "
                  (String.concat ", " missing_vars)))
  end.

Section ConfigInit.

(** The builtin [int] on a string: the integer read, or the [ValueError]
    raised. *)
Variable int : string -> result Z.

Definition Config_init (environ : Environ) : result Config :=
  port <- int (getenv environ "PORT" "8000") ;;
  max_workers <- int (getenv environ "MAX_WORKERS" "4") ;;
  batch_size <- int (getenv environ "BATCH_SIZE" "10") ;;
  processing_timeout_ms <- int (getenv environ "PROCESSING_TIMEOUT_MS" "5000") ;;
  let self :=
    mkConfig
      (getenv environ "HOST" "0.0.0.0")
      port
      (getenv environ "LOG_LEVEL" "INFO")
      (getenv environ "ENVIRONMENT" "development")
      (getenv environ "KAFKA_BOOTSTRAP_SERVERS" "localhost:9092")
      (getenv environ "KAFKA_INPUT_TOPIC" "wallet-transactions")
      (getenv environ "KAFKA_SUCCESS_TOPIC" "wallet-scores-success")
      (getenv environ "KAFKA_FAILURE_TOPIC" "wallet-scores-failure")
      (getenv environ "KAFKA_CONSUMER_GROUP" "ai-scoring-service")
      (getenv environ "MONGODB_URL" "mongodb://localhost:27017")
      (getenv environ "MONGODB_DATABASE" "ai_scoring")
      (getenv environ "MONGODB_TOKENS_COLLECTION" "tokens")
      (getenv environ "MONGODB_THRESHOLDS_COLLECTION"
         "protocol-thresholds-percentiles")
      max_workers batch_size processing_timeout_ms
      (getenv environ "LOG_FORMAT" "json")
      (environ "LOG_FILE") in
  _ <- _validate_config self ;;
  Ok self.

End ConfigInit.

(** A dictionary with string keys and values, and [dict.get(key, default)]. *)
Definition Dict : Type := list (string * string).

Fixpoint dict_get (d : Dict) (key default : string) : string :=
  match d with
  | [] => default
  | (k, v) :: rest => if (k =? key)%string then v else dict_get rest key default
  end.

Definition get_kafka_config (self : Config) : Dict :=
  [ ("KAFKA_BOOTSTRAP_SERVERS", KAFKA_BOOTSTRAP_SERVERS self);
    ("KAFKA_INPUT_TOPIC", KAFKA_INPUT_TOPIC self);
    ("KAFKA_SUCCESS_TOPIC", KAFKA_SUCCESS_TOPIC self);
    ("KAFKA_FAILURE_TOPIC", KAFKA_FAILURE_TOPIC self);
    ("KAFKA_CONSUMER_GROUP", KAFKA_CONSUMER_GROUP self) ].

(** The settings read by [KafkaService.__init__]. *)
Record KafkaSettings : Type := mkKafkaSettings {
  bootstrap_servers : string;
  input_topic : string;
  success_topic : string;
  failure_topic : string;
  consumer_group : string
}.

Definition KafkaService_init (config : Dict) : KafkaSettings :=
  mkKafkaSettings
    (dict_get config "KAFKA_BOOTSTRAP_SERVERS" "localhost:9092")
    (dict_get config "KAFKA_INPUT_TOPIC" "wallet-transactions")
    (dict_get config "KAFKA_SUCCESS_TOPIC" "wallet-scores-success")
    (dict_get config "KAFKA_FAILURE_TOPIC" "wallet-scores-failure")
    (dict_get config "KAFKA_CONSUMER_GROUP" "ai-scoring-service").

(** ** The synchronous endpoint ([process_wallet_sync] in [app/main.py]) *)

(** The content of the 200 response. *)
Record SyncResult : Type := mkSyncResult {
  sr_wallet_address : string;
  sr_zscore : string;
  sr_timestamp : Z;
  sr_categories : list CategoryScore
}.

(** What the body of the [try] block can raise. *)
Inductive HandlerExc : Type :=
| HTTPException (status_code : Z) (detail : string)
| PyError (e : PyExc)
| TypeError (msg : string).

Section SyncEndpoint.

(** Whether [JSONResponse] can serialise the content. *)
Variable json_renders : SyncResult -> bool.

(** The [try] block: [kafka_service] tells whether the global service
    object is set. *)
Definition process_wallet_sync_try (kafka_service : bool) (now : Z)
  (wallet_data : MessageData) : HandlerExc + SyncResult :=
  if negb kafka_service
  then inl (HTTPException 503 "Kafka service not available")
  else
    match WalletTransactionInput_init wallet_data with
    | Raise e => inl (PyError e)
    | Ok wallet_input =>
        match process_wallet_data now (data wallet_input) with
        | Raise e => inl (PyError e)
        | Ok (category_scores, overall_score) =>
            let result :=
              mkSyncResult (wallet_address wallet_input)
                (format_f18 overall_score) now category_scores in
            if json_renders result then inr result
            else inl (TypeError "Object is not JSON serializable")
        end
    end.

(** The handler: [except Exception] turns whatever the block raised,
    the [HTTPException] of the block included, into [HTTPException(500)].
    The status code of the response and its content, if any. *)
Definition process_wallet_sync (kafka_service : bool) (now : Z)
  (wallet_data : MessageData) : Z * option SyncResult :=
  match process_wallet_sync_try kafka_service now wallet_data with
  | inr result => (200, Some result)
  | inl _ => (500, None)
  end.

End SyncEndpoint.

(** * Reference definitions and scenarios

    What the specification says in its own words, the concrete wallets
    used as examples, and the auxiliary functions of the proofs. *)

(** ** Statistics

    One stats update per processed message: [(success, processing_time_ms,
    wallet_address)]. *)
Definition StatsUpdate : Type := (bool * Z * string)%type.

Definition apply_update (st : Stats) (u : StatsUpdate) : Stats :=
  let '(success, ms, w) := u in _update_stats st success ms w.

Definition run_updates (st : Stats) (us : list StatsUpdate) : Stats :=
  fold_left apply_update us st.

Definition update_time (u : StatsUpdate) : Z := snd (fst u).

Definition Zsum (l : list Z) : Z := fold_right Z.add 0 l.

Definition stats_consistent (st : Stats) : Prop :=
  successful_wallets st + failed_wallets st = total_wallets_processed st.

(** ** The basic protocol score

    The score the fallback is meant to produce, in the words of the
    specification: [min(10 * transaction_count + 5 * unique_pools, 500)]. *)
Definition basic_score_spec (pd : ProtocolData) : Z :=
  Z.min (10 * Z.of_nat (List.length (transactions pd))
         + 5 * nunique (map poolId (transactions pd))) 500.

Definition plain_tx (doc pool : string) : Transaction :=
  mkTransaction doc "deposit" 1703980800 "0xcaller" "aave" pool "pool"
    None None None None.

(** Three transactions across two pools in a bucket that is not "dexes". *)
Definition scenario_C : ProtocolData :=
  mkProtocolData "lending"
    [ plain_tx "t1" "pool_a"; plain_tx "t2" "pool_b"; plain_tx "t3" "pool_a" ].

(** ** Wallet addresses

    The contract in the words of the specification: "0x" followed by 40
    hexadecimal characters. *)
Definition is_hex_char (c : ascii) : bool :=
  let n := nat_of_ascii c in
  ((Nat.leb 48 n && Nat.leb n 57)
   || (Nat.leb 65 n && Nat.leb n 70)
   || (Nat.leb 97 n && Nat.leb n 102))%bool.

Fixpoint all_hex (s : string) : bool :=
  match s with
  | EmptyString => true
  | String c t => is_hex_char c && all_hex t
  end.

Definition hex_address_contract (s : string) : bool :=
  match s with
  | String "0" (String "x" rest) =>
      (String.length rest =? 40)%nat && all_hex rest
  | _ => false
  end.

(** What the validator checks: the prefix and the length. *)
Definition address_shape_ok (s : string) : bool :=
  startswith "0x" s && (len s =? 42).

(** "0x" and forty times the letter z. *)
Definition non_hex_address : string :=
  "0xzzzzzzzzzzzzzzzzzzzzzzzzzzzzzzzzzzzzzzzz".

(** ** Buckets *)

(** The test [protocolType.lower() == 'dexes'] of the aggregation loop. *)
Definition is_dexes (pd : ProtocolData) : bool :=
  String.eqb (lower (protocolType pd)) "dexes".

Definition empty_dexes_bucket (pd : ProtocolData) : bool :=
  is_dexes pd
  && match transactions pd with [] => true | _ :: _ => false end.

(** A bucket the model scores: "dexes", at least one transaction, every
    timestamp within the range of [datetime]. *)
Definition timestamp_in_range (tx : Transaction) : bool :=
  (MIN_TIMESTAMP <=? timestamp tx) && (timestamp tx <=? MAX_TIMESTAMP).

Definition scorable_bucket (pd : ProtocolData) : bool :=
  is_dexes pd
  && match transactions pd with [] => false | _ :: _ => true end
  && forallb timestamp_in_range (transactions pd).

Definition valid_address : string :=
  "0x742d35Cc6634C0532925a3b8D4C9db96590e4265".

(** ** Features

    The features in the words of the specification, read off the bucket's
    transactions themselves. *)
Definition tx_is_swap (tx : Transaction) : bool := String.eqb (action tx) "swap".
Definition tx_is_deposit (tx : Transaction) : bool :=
  (String.eqb (action tx) "deposit" || String.eqb (action tx) "add_liquidity")%bool.

Definition count_where (p : Transaction -> bool) (txs : list Transaction) : Z :=
  Z.of_nat (List.length (filter p txs)).

Definition swap_volume_spec (txs : list Transaction) : Q :=
  Qsum (map (fun tx => amountUSD_or_0 (tokenIn tx)) (filter tx_is_swap txs)).

Definition deposit_usd_spec (txs : list Transaction) : Q :=
  Qsum (map (fun tx => (amountUSD_or_0 (token0 tx)
                        + amountUSD_or_0 (token1 tx))%Q)
            (filter tx_is_deposit txs)).

Definition distinct_pools_spec (txs : list Transaction) : Z :=
  Z.of_nat (List.length (nodup string_dec (map poolId txs))).

(** The row [make_row] builds when the timestamp is in range. *)
Definition row_of (tx : Transaction) : Row :=
  mkRow (document_id tx) (action tx) (timestamp tx) (caller tx)
        (protocol tx) (poolId tx) (poolName tx)
        (amountUSD_or_0 (tokenIn tx)) (amountUSD_or_0 (tokenOut tx))
        (amountUSD_or_0 (token0 tx)) (amountUSD_or_0 (token1 tx))
        (timestamp tx).

Definition usd_token (usd : Q) (sym : string) : TokenInfo :=
  mkTokenInfo 1000000000 usd "0xa0b86a33e6c3d4c3e6c3d4c3e6c3d4c3e6c3d4c3" sym.

Definition pool_usdc_weth : string :=
  "0x88e6a0c2ddd26feeb64f039a2c41296fcb3f5640".

(** One swap (1000 USD in, 1000 USD out) and one deposit (500 + 500 USD) on
    the same pool. *)
Definition scenario_A : list Transaction :=
  [ mkTransaction "507f1f77bcf86cd799439011" "swap" 1703980800 valid_address
      "uniswap_v3" pool_usdc_weth "Uniswap V3 USDC/WETH 0.05%"
      (Some (usd_token 1000 "USDC")) (Some (usd_token 1000 "WETH")) None None;
    mkTransaction "507f1f77bcf86cd799439012" "deposit" 1703980900 valid_address
      "uniswap_v3" pool_usdc_weth "Uniswap V3 USDC/WETH 0.05%"
      None None (Some (usd_token 500 "USDC")) (Some (usd_token 500 "WETH")) ].

Definition scenario_A_now : Z := 1704067200.

(** [f] with its deposit total replaced, every other field kept. *)
Definition with_total_deposit_usd (f : CategoryFeatures) (d : Q)
  : CategoryFeatures :=
  mkCategoryFeatures d (total_swap_volume f) (num_deposits f) (num_swaps f)
    (avg_hold_time_days f) (unique_pools f) (total_withdraw_usd f)
    (num_withdraws f) (avg_transaction_size_usd f)
    (transaction_frequency_days f).

(** ** Aggregation

    The aggregate in the words of the specification. *)
Definition bucket_weight (pd : ProtocolData) : Q :=
  if is_dexes pd then 1%Q else (1 # 2)%Q.

Fixpoint weighted_score_sum (wd : list ProtocolData) (cats : list CategoryScore)
  : Q :=
  match wd, cats with
  | pd :: wd', c :: cats' =>
      (bucket_weight pd * score c + weighted_score_sum wd' cats')%Q
  | _, _ => 0%Q
  end.

Definition weight_sum (wd : list ProtocolData) : Q :=
  Qsum (map bucket_weight wd).

Definition overall_spec (wd : list ProtocolData) (cats : list CategoryScore)
  : Q :=
  match wd with
  | [] => 0%Q
  | _ :: _ => (weighted_score_sum wd cats / weight_sum wd)%Q
  end.

(** The per-bucket score the loop computes. *)
Definition score_bucket (now : Z) (pd : ProtocolData) : result CategoryScore :=
  if is_dexes pd then _calculate_dex_score now (transactions pd)
  else _calculate_basic_protocol_score pd.

(** The per-bucket score of the loop run with another scorer for the
    protocol types that are not "dexes". *)
Definition score_bucket_with (fallback : ProtocolData -> result CategoryScore)
  (now : Z) (pd : ProtocolData) : result CategoryScore :=
  if is_dexes pd then _calculate_dex_score now (transactions pd)
  else fallback pd.

(** The fallback as the specification describes it: the basic score, with
    only [unique_pools] set among the features. *)
Definition intended_basic_protocol_score (pd : ProtocolData)
  : result CategoryScore :=
  Ok (mkCategoryScore (protocolType pd) (inject_Z (basic_score_spec pd))
        (Z.of_nat (List.length (transactions pd)))
        (mkCategoryFeatures 0 0 0 0 0 (nunique (map poolId (transactions pd)))
           0 0 0 0)).

(** The one-swap, one-deposit bucket as a wallet. *)
Definition scenario_A_bucket : ProtocolData := mkProtocolData "dexes" scenario_A.

Definition scenario_A_df : DataFrame :=
  Eval vm_compute in sort_rows (map row_of scenario_A).

Definition scenario_A_features : CategoryFeatures :=
  Eval vm_compute in _extract_dex_features scenario_A_now scenario_A_df.

Definition scenario_A_combined : Q :=
  Eval vm_compute in
    (_calculate_lp_score scenario_A_features * lp_weight
     + _calculate_swap_score scenario_A_features * swap_weight)%Q.

Definition scenario_A_category : CategoryScore :=
  mkCategoryScore "dexes" (py_round2 (_normalize_score scenario_A_combined))
    2 scenario_A_features.

(** ** The zscore string

    The shape in the words of the specification: an optional minus sign,
    at least one digit, a point, and exactly 18 digits; nothing else (so no
    exponent). *)
Definition strip_minus (s : string) : string :=
  match s with
  | String c t => if Ascii.eqb c "-" then t else s
  | EmptyString => s
  end.

Definition fixed_point_18 (s : string) : bool :=
  match split_at is_dot (strip_minus s) with
  | (ip, Some fp) =>
      nonempty ip && all_digits ip && all_digits fp
      && Nat.eqb (String.length fp) 18
  | (_, None) => false
  end.

(** A number printed as digits, a point and digits, with an optional minus
    sign in front. *)
Definition signed_number (neg : bool) (ip fp : string) : string :=
  String.append (if neg then "-" else "") (String.append ip (String "." fp)).

Definition scenario_A_message : MessageData :=
  mkMessageData valid_address [scenario_A_bucket].

Definition scenario_A_success : WalletScoreSuccess :=
  mkWalletScoreSuccess valid_address
    (format_f18 ((0 + score scenario_A_category * 1) / (0 + 1))%Q)
    scenario_A_now 5 [scenario_A_category].

(** ** Rational arithmetic for the bounds on the exponential

    [Qdown] rounds down to a multiple of 2^-80; [square_down k q] squares
    [q] [k] times, rounding down after each square. *)
Definition Qdown (q : Q) : Q := Qfloor (q * inject_Z (2 ^ 80)) # (2 ^ 80).

Fixpoint square_down (k : nat) (q : Q) : Q :=
  match k with
  | O => q
  | S k' => square_down k' (Qdown (q * q))
  end.

Definition exp_step : Q := (5 # 2) / inject_Z (2 ^ 20).
Definition exp_5_2_lower : Q := square_down 20 (1 + exp_step).
Definition exp_m5_2_lower : Q := square_down 20 (1 - exp_step).

(** ** Non-negative amounts

    All four token amounts of a transaction are non-negative (an absent
    token counts as 0). *)
Definition tx_amounts_nonneg (tx : Transaction) : bool :=
  Qle_bool 0 (amountUSD_or_0 (tokenIn tx))
  && Qle_bool 0 (amountUSD_or_0 (tokenOut tx))
  && Qle_bool 0 (amountUSD_or_0 (token0 tx))
  && Qle_bool 0 (amountUSD_or_0 (token1 tx)).

Definition row_amounts_nonneg (r : Row) : Prop :=
  (0 <= token0_amount r)%Q /\ (0 <= token1_amount r)%Q.

(** The image of raw score 0 under the logistic curve. *)
Definition logistic_floor : R := (1000 / (1 + exp (5 / 2)))%R.

(** A deposit of -1 USD and a withdrawal of -100 USD on one pool. *)
Definition negative_amount_bucket : list Transaction :=
  [ mkTransaction "n1" "deposit" 1703980800 valid_address "uniswap_v3"
      pool_usdc_weth "pool" None None (Some (usd_token (-1) "USDC")) None;
    mkTransaction "n2" "withdraw" 1703980900 valid_address "uniswap_v3"
      pool_usdc_weth "pool" None None (Some (usd_token (-100) "USDC")) None ].

Definition negative_amount_df : DataFrame :=
  Eval vm_compute in sort_rows (map row_of negative_amount_bucket).

Definition negative_amount_combined : Q :=
  Eval vm_compute in
    (let f := _extract_dex_features scenario_A_now negative_amount_df in
     _calculate_lp_score f * lp_weight + _calculate_swap_score f * swap_weight)%Q.

(** ** Tags *)

(** The four tags derived from the overall score. *)
Definition tier_tags : list string :=
  [ "Elite User"; "Premium User"; "Regular User"; "New User" ].

Definition is_tier_tag (t : string) : bool := str_in t tier_tags.

(** The tags by family, each family contributing at most one tag. *)
Definition lp_volume_tag (f : CategoryFeatures) : list string :=
  if Qge_bool (total_deposit_usd f) (volume_thresholds "whale")
  then ["Whale LP"]
  else if Qge_bool (total_deposit_usd f) (volume_thresholds "high")
  then ["Large LP"] else [].

Definition trader_volume_tag (f : CategoryFeatures) : list string :=
  if Qge_bool (total_swap_volume f) (volume_thresholds "whale")
  then ["Whale Trader"]
  else if Qge_bool (total_swap_volume f) (volume_thresholds "high")
  then ["Active Trader"] else [].

Definition holding_tag (f : CategoryFeatures) : list string :=
  if Qge_bool (avg_hold_time_days f) (holding_time_thresholds "hodl")
  then ["HODLer"]
  else if Qge_bool (avg_hold_time_days f) (holding_time_thresholds "long")
  then ["Long-term LP"] else [].

Definition frequent_lp_tag (f : CategoryFeatures) : list string :=
  if frequency_thresholds "very_high" <=? num_deposits f
  then ["Frequent LP"] else [].

Definition frequent_trader_tag (f : CategoryFeatures) : list string :=
  if frequency_thresholds "very_high" <=? num_swaps f
  then ["Frequent Trader"] else [].

Definition tier_tag (s : Q) : string :=
  if Qge_bool s 800 then "Elite User"
  else if Qge_bool s 600 then "Premium User"
  else if Qge_bool s 400 then "Regular User"
  else "New User".

Definition behaviour_tags (f : CategoryFeatures) : list string :=
  (lp_volume_tag f ++ trader_volume_tag f ++ holding_tag f
   ++ frequent_lp_tag f ++ frequent_trader_tag f)%list.

(** ** The ceiling of the logistic curve

    The largest combined raw score of a bucket with non-negative amounts is
    0.6 * 900 + 0.4 * 700 = 820; [exp_m8_5_lower] is a rational lower bound
    of [exp (- 8 / 5)], the exponential the curve takes there. *)
Definition exp_step_8_5 : Q := (8 # 5) / inject_Z (2 ^ 20).
Definition exp_m8_5_lower : Q := square_down 20 (1 - exp_step_8_5).

(** ** Feature vectors up to the value of their rational fields *)

Definition tx_is_withdraw (tx : Transaction) : bool :=
  (String.eqb (action tx) "withdraw"
   || String.eqb (action tx) "remove_liquidity")%bool.

Definition action_is_valid (tx : Transaction) : bool :=
  str_in (action tx) valid_actions.

(** Two feature vectors with the same integer fields and rational fields
    of the same value. *)
Definition features_eq (f g : CategoryFeatures) : Prop :=
  (total_deposit_usd f == total_deposit_usd g)%Q
  /\ (total_swap_volume f == total_swap_volume g)%Q
  /\ num_deposits f = num_deposits g
  /\ num_swaps f = num_swaps g
  /\ (avg_hold_time_days f == avg_hold_time_days g)%Q
  /\ unique_pools f = unique_pools g
  /\ (total_withdraw_usd f == total_withdraw_usd g)%Q
  /\ num_withdraws f = num_withdraws g
  /\ (avg_transaction_size_usd f == avg_transaction_size_usd g)%Q
  /\ (transaction_frequency_days f == transaction_frequency_days g)%Q.

(** Scenario A with its two transactions listed in the other order. *)
Definition scenario_A_reversed : list Transaction := rev scenario_A.

(** ** Accepted messages *)

(** The message passes the validators: address shape and every action. *)
Definition input_valid (m : MessageData) : bool :=
  address_shape_ok (msg_wallet_address m)
  && forallb (fun pd => forallb action_is_valid (transactions pd)) (msg_data m).

(** The message passes the validators and every bucket can be scored. *)
Definition message_accepted (m : MessageData) : bool :=
  input_valid m && forallb scorable_bucket (msg_data m).

Definition is_success (p : Published) : bool :=
  match p with
  | PublishedSuccess _ => true
  | PublishedFailure _ => false
  end.

Definition count_successes (ps : list Published) : Z :=
  Z.of_nat (List.length (filter is_success ps)).

Definition count_failures (ps : list Published) : Z :=
  Z.of_nat (List.length (filter (fun p => negb (is_success p)) ps)).

(** A message with a valid address whose only transaction has the action
    "transfer". *)
Definition invalid_action_message : MessageData :=
  mkMessageData valid_address
    [ mkProtocolData "dexes"
        [ mkTransaction "d1" "transfer" 1703980800 valid_address "uniswap_v3"
            pool_usdc_weth "pool" None None None None ] ].

Definition is_validation_error (e : PyExc) : bool :=
  match e with
  | ValidationError _ => true
  | _ => false
  end.

(** ** Reading a fixed-point string back

    The value a decimal parser gives to [sign digits . digits]. *)
Definition digit_value (c : ascii) : Z := Z.of_nat (nat_of_ascii c) - 48.

Fixpoint digits_value_acc (s : string) (acc : Z) : Z :=
  match s with
  | EmptyString => acc
  | String c t => digits_value_acc t (10 * acc + digit_value c)
  end.

Definition digits_value (s : string) : Z := digits_value_acc s 0.

Definition has_minus (s : string) : bool :=
  match s with
  | String c _ => Ascii.eqb c "-"
  | EmptyString => false
  end.

Definition parse_fixed (s : string) : option Q :=
  match split_at is_dot (strip_minus s) with
  | (ip, Some fp) =>
      if nonempty ip && all_digits ip && all_digits fp then
        let v := (inject_Z (digits_value ip)
                  + inject_Z (digits_value fp)
                    / inject_Z (10 ^ Z.of_nat (String.length fp)))%Q in
        Some (if has_minus s then (- v)%Q else v)
      else None
  | (_, None) => None
  end.

(** Horner value of a decimal numeral. *)
Fixpoint uint_value_acc (d : Decimal.uint) (acc : Z) : Z :=
  match d with
  | Decimal.Nil => acc
  | Decimal.D0 l => uint_value_acc l (10 * acc)
  | Decimal.D1 l => uint_value_acc l (10 * acc + 1)
  | Decimal.D2 l => uint_value_acc l (10 * acc + 2)
  | Decimal.D3 l => uint_value_acc l (10 * acc + 3)
  | Decimal.D4 l => uint_value_acc l (10 * acc + 4)
  | Decimal.D5 l => uint_value_acc l (10 * acc + 5)
  | Decimal.D6 l => uint_value_acc l (10 * acc + 6)
  | Decimal.D7 l => uint_value_acc l (10 * acc + 7)
  | Decimal.D8 l => uint_value_acc l (10 * acc + 8)
  | Decimal.D9 l => uint_value_acc l (10 * acc + 9)
  end.

(** ** Brokers *)

(** No two sends in a row fail. *)
Fixpoint no_double_failure (sends : list SendOutcome) : bool :=
  match sends with
  | [] => true
  | o :: rest =>
      match o, rest with
      | SendRaises _, SendRaises _ :: _ => false
      | _, _ => no_double_failure rest
      end
  end.

(** A broker that fails the first send and confirms the rest, facing the
    scenario A message. *)
Definition flaky_consumer : Consumer :=
  mkConsumer (initial_stats 0) [SendRaises "KafkaTimeoutError"] [].

(** ** Configurations *)

(** A reading of plain decimal numerals, for the examples. *)
Definition plain_int (s : string) : result Z :=
  if nonempty s && all_digits s then Ok (digits_value s)
  else Raise (ValueError "invalid literal for int() with base 10").

(** The empty environment and the configuration it gives. *)
Definition empty_environ : Environ := fun _ => None.

Definition default_config : Config :=
  mkConfig "0.0.0.0" 8000 "INFO" "development" "localhost:9092"
    "wallet-transactions" "wallet-scores-success" "wallet-scores-failure"
    "ai-scoring-service" "mongodb://localhost:27017" "ai_scoring" "tokens"
    "protocol-thresholds-percentiles" 4 10 5000 "json" None.

(** ** The retention bonus of a wallet without negative withdrawals

    The bonus as a number; it is what [retention_bonus] adds whenever the
    withdrawal total is not negative (the deposit total is then positive
    where the division takes place). *)
Definition retention_amount (dep wd : Q) : Q :=
  if Qgt_bool dep wd then
    if Qeq_bool dep 0 then 0%Q else ((dep - wd) / dep * 100)%Q
  else 0%Q.

(** ** A wallet with a bucket of another protocol type

    The "dexes" bucket of scenario A followed by the "lending" bucket of
    scenario C. *)
Definition mixed_wallet : list ProtocolData := [scenario_A_bucket; scenario_C].

(** ** Finite totals and binary64

    A bound that keeps the totals finite: binary64 holds values up to about
    1.8 * 10^308, so a sum of non-negative amounts whose exact total is at
    most 10^300 does not overflow, and a total that is at most 10^300 is
    neither infinite nor NaN. *)
Definition finite_total : Q := inject_Z (10 ^ 300).

(** The step of [_calculate_lp_score] that adds the retention bonus,
    evaluated in binary64 as the interpreter does (round to nearest even
    after each operation), on the specification of IEEE 754 arithmetic of
    the Standard Library. *)
Definition binary64 (m e : Z) : spec_float :=
  binary_normalize 53 1024 m e false.

Definition retention_step_binary64 (score dep wd : spec_float) : spec_float :=
  let retention_ratio := SFdiv 53 1024 (SFsub 53 1024 dep wd) dep in
  SFadd 53 1024 score (SFmul 53 1024 retention_ratio (binary64 100 0)).

(** * Properties *)

Ltac q_cases :=
  repeat match goal with
  | |- context [Qle_bool ?a ?b] =>
      let H := fresh "Hc" in
      destruct (Qle_bool a b) eqn:H;
      [ apply Qle_bool_iff in H
      | apply not_true_iff_false in H; rewrite Qle_bool_iff in H ]
  | |- context [Qeq_bool ?a ?b] =>
      let H := fresh "Hc" in
      destruct (Qeq_bool a b) eqn:H;
      [ apply Qeq_bool_iff in H | apply Qeq_bool_neq in H ]
  end.

Ltac unfold_thresholds :=
  cbv [volume_bonus volume_thresholds holding_bonus holding_time_thresholds
       frequency_bonus frequency_thresholds size_bonus
       Qge_bool Qgt_bool String.eqb Ascii.eqb Bool.eqb].

(** ** Running statistics *)

Lemma update_stats_consistent st success ms w :
  stats_consistent st -> stats_consistent (_update_stats st success ms w).
Proof.
  unfold stats_consistent; destruct success; simpl; lia.
Qed.

Lemma run_updates_app st us u :
  run_updates st (us ++ [u]) = apply_update (run_updates st us) u.
Proof.
  unfold run_updates. now rewrite fold_left_app.
Qed.

Lemma Zsum_app l1 l2 : Zsum (l1 ++ l2) = Zsum l1 + Zsum l2.
Proof.
  induction l1 as [|a l1 IH]; simpl; [reflexivity | rewrite IH; lia].
Qed.

Lemma run_updates_counters start us :
  let st := run_updates (initial_stats start) us in
  stats_consistent st
  /\ total_wallets_processed st = Z.of_nat (List.length us)
  /\ total_processing_time_ms st = Zsum (map update_time us)
  /\ successful_wallets st
     = Z.of_nat (List.length (filter (fun u => fst (fst u)) us)).
Proof.
  unfold StatsUpdate in *.
  induction us as [|u us IH] using rev_ind.
  - cbv [run_updates stats_consistent]; simpl; auto.
  - cbv zeta in *. rewrite run_updates_app.
    destruct IH as (Hc & Ht & Hp & Hs).
    destruct u as [[success ms] w]. unfold apply_update.
    repeat split.
    + now apply update_stats_consistent.
    + simpl. rewrite Ht, length_app. simpl. lia.
    + simpl. rewrite Hp, map_app, Zsum_app. unfold update_time. simpl. lia.
    + rewrite filter_app, length_app, Nat2Z.inj_add, <- Hs.
      destruct success; simpl; lia.
Qed.

(** C8. After any sequence of stats updates from the zeroed counters,
    successes plus failures equal the number of wallets processed (which is
    the number of updates), and [get_stats] reports as the average the
    cumulative processing time divided by that number when it is positive,
    and 0 otherwise. *)
Theorem stats_invariant_and_average :
  forall (start now : Z) (us : list StatsUpdate),
    let st := run_updates (initial_stats start) us in
    successful_wallets st + failed_wallets st = total_wallets_processed st
    /\ total_wallets_processed st = Z.of_nat (List.length us)
    /\ total_processing_time_ms st = Zsum (map update_time us)
    /\ average_processing_time_ms (get_stats now st)
       = (if 0 <? total_wallets_processed st
          then (inject_Z (total_processing_time_ms st)
                / inject_Z (total_wallets_processed st))%Q
          else 0%Q)
    /\ average_processing_time_ms (get_stats now st)
       = match us with
         | [] => 0%Q
         | _ :: _ => (inject_Z (Zsum (map update_time us))
                      / inject_Z (Z.of_nat (List.length us)))%Q
         end.
Proof.
  intros start now us st.
  destruct (run_updates_counters start us) as (Hc & Ht & Hp & _).
  fold st in Hc, Ht, Hp.
  repeat split; try assumption.
  unfold get_stats; simpl. rewrite Ht, Hp.
  destruct us as [|u us']; [reflexivity|].
  replace (0 <? Z.of_nat (List.length (u :: us'))) with true; [reflexivity|].
  symmetry. apply Z.ltb_lt. simpl List.length. lia.
Qed.

(** Every message makes exactly one update, so the invariant also holds
    along a run of [_process_message]. *)
Lemma process_message_consistent st now ms m :
  stats_consistent st ->
  stats_consistent (snd (_process_message st now ms m)).
Proof.
  intros H. unfold _process_message.
  destruct (try_block now ms m) as [w [succ | [e|e|e]]]; simpl;
    now apply update_stats_consistent.
Qed.

Lemma process_all_consistent batch : forall st,
  stats_consistent st -> stats_consistent (snd (process_all st batch)).
Proof.
  induction batch as [|[[now ms] m] rest IH]; intros st H; simpl; auto.
  pose proof (process_message_consistent st now ms m H) as H1.
  destruct (_process_message st now ms m) as [p st1]. simpl in H1.
  specialize (IH st1 H1).
  destruct (process_all st1 rest) as [ps st2]. exact IH.
Qed.

(** ** The basic score for other protocols *)

Lemma transaction_count_not_a_field :
  str_in "transaction_count" CategoryFeatures_fields = false.
Proof. reflexivity. Qed.

Lemma basic_protocol_score_raises pd :
  _calculate_basic_protocol_score pd
  = Raise (ValueError "CategoryFeatures object has no field").
Proof. reflexivity. Qed.

(** C2. The fallback never returns a score: its first assignment targets
    [transaction_count], which [CategoryFeatures] does not declare, so the
    call raises for every bucket.  On the three-transaction, two-pool bucket
    the intended value is 40 and the code raises; a wallet holding that
    bucket is not scored at all. *)
Theorem basic_protocol_score_scenario_C :
  String.eqb (lower (protocolType scenario_C)) "dexes" = false
  /\ basic_score_spec scenario_C = 40
  /\ (forall pd, _calculate_basic_protocol_score pd
                 = Raise (ValueError "CategoryFeatures object has no field"))
  /\ (forall now, process_wallet_data now [scenario_C]
                  = Raise (ValueError "CategoryFeatures object has no field")).
Proof.
  repeat split.
Qed.

(** ** Wallet address validation *)

Lemma validate_wallet_address_shape v :
  validate_wallet_address v
  = if address_shape_ok v then Ok v
    else Raise (ValueError "Invalid wallet address format").
Proof.
  unfold validate_wallet_address, address_shape_ok.
  destruct (startswith "0x" v), (len v =? 42); reflexivity.
Qed.

Lemma try_block_bad_address now ms m :
  address_shape_ok (msg_wallet_address m) = false ->
  try_block now ms m
  = ("unknown",
     Raise (ValidationError "validation error for WalletTransactionInput")).
Proof.
  intros H. unfold try_block, WalletTransactionInput_init.
  rewrite validate_wallet_address_shape, H. reflexivity.
Qed.

(** C5 (as stated, refuted). An address that starts with "0x" and has 42
    characters, none of the last 40 hexadecimal, passes validation; with an
    empty bucket list the message is published as a success record. *)
Lemma non_hex_address_succeeds :
  hex_address_contract non_hex_address = false
  /\ fst (_process_message (initial_stats 0) 1700000000 5
            (mkMessageData non_hex_address []))
     = PublishedSuccess
         (mkWalletScoreSuccess non_hex_address "0.000000000000000000"
            1700000000 5 []).
Proof. split; reflexivity. Qed.

(** C5 (amended). A message whose wallet address does not start with "0x"
    or is not exactly 42 characters long is published as a failure record
    (a validation error for wallet "unknown") and counted as failed; no
    success record is produced. *)
Theorem bad_address_shape_fails :
  forall (st : Stats) (now ms : Z) (m : MessageData),
    address_shape_ok (msg_wallet_address m) = false ->
    fst (_process_message st now ms m)
    = PublishedFailure
        (mkWalletScoreFailure "unknown"
           "Validation error: validation error for WalletTransactionInput"
           now ms (_create_error_categories m))
    /\ (forall s, fst (_process_message st now ms m) <> PublishedSuccess s)
    /\ failed_wallets (snd (_process_message st now ms m))
       = failed_wallets st + 1
    /\ successful_wallets (snd (_process_message st now ms m))
       = successful_wallets st.
Proof.
  intros st now ms m H.
  unfold _process_message. rewrite (try_block_bad_address now ms m H).
  simpl. repeat split. intros s. discriminate.
Qed.

Lemma bad_address_shape_fails_witness :
  address_shape_ok (msg_wallet_address (mkMessageData "invalid_address" []))
  = false
  /\ fst (_process_message (initial_stats 0) 1700000000 5
            (mkMessageData "invalid_address" []))
     = PublishedFailure
         (mkWalletScoreFailure "unknown"
            "Validation error: validation error for WalletTransactionInput"
            1700000000 5 []).
Proof.
  split; [reflexivity|].
  exact (proj1 (bad_address_shape_fails (initial_stats 0) 1700000000 5
                  (mkMessageData "invalid_address" []) eq_refl)).
Defined.

(** ** An empty "dexes" bucket *)

Lemma transactions_to_dataframe_empty :
  _transactions_to_dataframe [] = Raise (KeyError "timestamp").
Proof. reflexivity. Qed.

Lemma calculate_dex_score_empty now :
  _calculate_dex_score now [] = Raise (KeyError "timestamp").
Proof. reflexivity. Qed.

Lemma process_loop_empty_dexes now wd :
  existsb empty_dexes_bucket wd = true ->
  forall cats ts tw, exists e, process_loop now wd cats ts tw = Raise e.
Proof.
  induction wd as [|pd rest IH]; simpl; [discriminate|].
  intros H cats ts tw.
  unfold empty_dexes_bucket, is_dexes in H.
  destruct (String.eqb (lower (protocolType pd)) "dexes") eqn:Hd; simpl in H.
  - destruct (transactions pd) as [|tx txs] eqn:Htx.
    + rewrite calculate_dex_score_empty. simpl. eauto.
    + destruct (_calculate_dex_score now (tx :: txs)) as [c|e]; simpl; eauto.
  - destruct (_calculate_basic_protocol_score pd) as [c|e]; simpl; eauto.
Qed.

Lemma process_wallet_data_empty_dexes now wd :
  existsb empty_dexes_bucket wd = true ->
  exists e, process_wallet_data now wd = Raise e.
Proof.
  intros H. unfold process_wallet_data, process_wallet_data_with; fold process_loop.
  destruct (process_loop_empty_dexes now wd H [] 0%Q 0%Q) as [e He].
  rewrite He. simpl. eauto.
Qed.

(** C10. A message that validates and carries a "dexes" bucket (in any
    letter case) with no transactions is not scored: [process_wallet_data]
    raises, and the message is published as a failure record for that
    wallet and counted as failed, never as a success with a default score.
    For the wallet whose only bucket is the empty one the exception is the
    [KeyError] of the sort on the missing timestamp column. *)
Theorem empty_dexes_bucket_fails :
  forall (st : Stats) (now ms : Z) (m : MessageData)
         (wallet_input : WalletTransactionInput),
    WalletTransactionInput_init m = Ok wallet_input ->
    existsb empty_dexes_bucket (data wallet_input) = true ->
    (exists e, process_wallet_data now (data wallet_input) = Raise e)
    /\ (exists f, fst (_process_message st now ms m) = PublishedFailure f
                  /\ wf_wallet_address f = wallet_address wallet_input)
    /\ failed_wallets (snd (_process_message st now ms m))
       = failed_wallets st + 1
    /\ successful_wallets (snd (_process_message st now ms m))
       = successful_wallets st.
Proof.
  intros st now ms m wi Hv He.
  destruct (process_wallet_data_empty_dexes now _ He) as [e Hr].
  split; [eauto|].
  unfold _process_message, try_block. rewrite Hv, Hr. simpl.
  destruct e; simpl; repeat split; eexists; split; reflexivity.
Qed.

Lemma empty_dexes_bucket_fails_witness :
  let m := mkMessageData valid_address [mkProtocolData "dexes" []] in
  WalletTransactionInput_init m
  = Ok (mkWalletTransactionInput valid_address [mkProtocolData "dexes" []])
  /\ process_wallet_data 1700000000 [mkProtocolData "dexes" []]
     = Raise (KeyError "timestamp")
  /\ exists f, fst (_process_message (initial_stats 0) 1700000000 5 m)
               = PublishedFailure f
               /\ wf_wallet_address f = valid_address.
Proof.
  split; [reflexivity|]. split; [reflexivity|].
  exact (proj1 (proj2
    (empty_dexes_bucket_fails (initial_stats 0) 1700000000 5
       (mkMessageData valid_address [mkProtocolData "dexes" []])
       (mkWalletTransactionInput valid_address [mkProtocolData "dexes" []])
       eq_refl eq_refl))).
Defined.

(** ** Feature extraction against its description *)

Lemma make_row_ok tx r : make_row tx = Ok r -> r = row_of tx.
Proof.
  unfold make_row, datetime_fromtimestamp.
  destruct ((MIN_TIMESTAMP <=? timestamp tx) && (timestamp tx <=? MAX_TIMESTAMP));
    simpl; [|discriminate].
  now intros [= <-].
Qed.

Lemma mapM_make_row_ok txs : forall rows,
  mapM make_row txs = Ok rows -> rows = map row_of txs.
Proof.
  induction txs as [|tx txs IH]; simpl; intros rows H.
  - now injection H as <-.
  - destruct (make_row tx) as [r|e] eqn:Hr; simpl in H; [|discriminate].
    destruct (mapM make_row txs) as [rs|e] eqn:Hrs; simpl in H; [|discriminate].
    injection H as <-. now rewrite (make_row_ok _ _ Hr), (IH rs eq_refl).
Qed.

Lemma insert_by_timestamp_perm r df :
  Permutation (r :: df) (insert_by_timestamp r df).
Proof.
  induction df as [|h t IH]; simpl; [reflexivity|].
  destruct (row_timestamp r <=? row_timestamp h); [reflexivity|].
  rewrite perm_swap. now constructor.
Qed.

Lemma sort_rows_perm df : Permutation df (sort_rows df).
Proof.
  induction df as [|r df IH]; simpl; [reflexivity|].
  rewrite <- insert_by_timestamp_perm. now constructor.
Qed.

Lemma transactions_to_dataframe_ok txs df :
  _transactions_to_dataframe txs = Ok df ->
  txs <> [] /\ Permutation (map row_of txs) df.
Proof.
  unfold _transactions_to_dataframe.
  destruct (mapM make_row txs) as [rows|e] eqn:Hm; simpl; [|discriminate].
  apply mapM_make_row_ok in Hm. subst rows.
  destruct txs as [|tx txs]; simpl; [discriminate|].
  intros [= <-]. split; [discriminate|].
  apply (sort_rows_perm (row_of tx :: map row_of txs)).
Qed.

Lemma Qsum_perm l1 l2 : Permutation l1 l2 -> (Qsum l1 == Qsum l2)%Q.
Proof.
  induction 1; simpl.
  - reflexivity.
  - now rewrite IHPermutation.
  - ring.
  - now rewrite IHPermutation1.
Qed.

Lemma Qsum_map_plus {A} (f g : A -> Q) l :
  (Qsum (map (fun a => f a + g a) l) == Qsum (map f l) + Qsum (map g l))%Q.
Proof.
  induction l as [|a l IH]; simpl; [reflexivity|]. rewrite IH. ring.
Qed.

Lemma filter_perm {A} (p : A -> bool) l1 l2 :
  Permutation l1 l2 -> Permutation (filter p l1) (filter p l2).
Proof.
  induction 1; simpl.
  - constructor.
  - destruct (p x); [now constructor | assumption].
  - destruct (p x), (p y); try reflexivity; try apply perm_swap.
  - now transitivity (filter p l').
Qed.

Lemma nodup_length_perm (l1 l2 : list string) :
  Permutation l1 l2 ->
  List.length (nodup string_dec l1) = List.length (nodup string_dec l2).
Proof.
  intros H. apply Permutation_length, NoDup_Permutation;
    try apply NoDup_nodup.
  intros x. rewrite !nodup_In.
  split; apply Permutation_in; [assumption | now symmetry].
Qed.

Lemma filter_map_rows (p : Row -> bool) (q : Transaction -> bool) txs :
  (forall tx, p (row_of tx) = q tx) ->
  filter p (map row_of txs) = map row_of (filter q txs).
Proof.
  intros H. induction txs as [|tx txs IH]; simpl; [reflexivity|].
  rewrite H. destruct (q tx); simpl; now rewrite IH.
Qed.

Lemma isin_deposit_row tx : isin deposit_actions (row_of tx) = tx_is_deposit tx.
Proof.
  unfold isin, tx_is_deposit, str_in, deposit_actions; simpl.
  now rewrite orb_false_r.
Qed.

Lemma is_swap_row tx : is_swap (row_of tx) = tx_is_swap tx.
Proof. reflexivity. Qed.

Section Extraction.

Variables (now : Z) (txs : list Transaction) (df : DataFrame).
Hypothesis Hdf : _transactions_to_dataframe txs = Ok df.

Lemma dataframe_rows_perm : Permutation (map row_of txs) df.
Proof. exact (proj2 (transactions_to_dataframe_ok txs df Hdf)). Qed.

Lemma extract_num_swaps :
  num_swaps (_extract_dex_features now df) = count_where tx_is_swap txs.
Proof.
  unfold _extract_dex_features, count_where, df_len; simpl.
  rewrite <- (Permutation_length (filter_perm is_swap _ _ dataframe_rows_perm)).
  rewrite (filter_map_rows _ _ txs is_swap_row). now rewrite length_map.
Qed.

Lemma extract_num_deposits :
  num_deposits (_extract_dex_features now df) = count_where tx_is_deposit txs.
Proof.
  unfold _extract_dex_features, count_where, df_len; simpl.
  rewrite <- (Permutation_length
                (filter_perm (isin deposit_actions) _ _ dataframe_rows_perm)).
  rewrite (filter_map_rows _ _ txs isin_deposit_row). now rewrite length_map.
Qed.

Lemma extract_total_swap_volume :
  (total_swap_volume (_extract_dex_features now df) == swap_volume_spec txs)%Q.
Proof.
  unfold _extract_dex_features, swap_volume_spec; simpl.
  rewrite <- (Qsum_perm _ _
    (Permutation_map token_in_amount (filter_perm is_swap _ _ dataframe_rows_perm))).
  rewrite (filter_map_rows _ _ txs is_swap_row), map_map. reflexivity.
Qed.

Lemma extract_total_deposit_usd :
  (total_deposit_usd (_extract_dex_features now df) == deposit_usd_spec txs)%Q.
Proof.
  unfold _extract_dex_features, deposit_usd_spec; simpl.
  pose proof (filter_perm (isin deposit_actions) _ _ dataframe_rows_perm) as Hp.
  rewrite <- (Qsum_perm _ _ (Permutation_map token0_amount Hp)).
  rewrite <- (Qsum_perm _ _ (Permutation_map token1_amount Hp)).
  rewrite (filter_map_rows _ _ txs isin_deposit_row), !map_map.
  rewrite Qsum_map_plus. reflexivity.
Qed.

Lemma extract_unique_pools :
  unique_pools (_extract_dex_features now df) = distinct_pools_spec txs.
Proof.
  unfold _extract_dex_features, distinct_pools_spec, nunique; simpl.
  rewrite <- (nodup_length_perm _ _ (Permutation_map row_poolId dataframe_rows_perm)).
  now rewrite map_map.
Qed.

End Extraction.

(** C4. For a "dexes" bucket whose table is built, the extracted features
    are: [num_swaps] the number of swap actions, [num_deposits] the number
    of deposit or add_liquidity actions, [total_swap_volume] the sum of
    tokenIn.amountUSD over swaps, [total_deposit_usd] the sum of
    token0.amountUSD + token1.amountUSD over deposits (an absent token
    counting 0), [unique_pools] the number of distinct poolId values. *)
Theorem extract_dex_features_spec :
  forall (now : Z) (txs : list Transaction) (df : DataFrame),
    _transactions_to_dataframe txs = Ok df ->
    let f := _extract_dex_features now df in
    num_swaps f = count_where tx_is_swap txs
    /\ num_deposits f = count_where tx_is_deposit txs
    /\ (total_swap_volume f == swap_volume_spec txs)%Q
    /\ (total_deposit_usd f == deposit_usd_spec txs)%Q
    /\ unique_pools f = distinct_pools_spec txs.
Proof.
  intros now txs df Hdf f. subst f.
  repeat split.
  - now apply extract_num_swaps.
  - now apply extract_num_deposits.
  - now apply extract_total_swap_volume.
  - now apply extract_total_deposit_usd.
  - now apply extract_unique_pools.
Qed.

(** On the one-swap, one-deposit bucket the table is built and the features
    are num_swaps = 1, num_deposits = 1, total_swap_volume = 1000,
    total_deposit_usd = 1000, unique_pools = 1. *)
Lemma extract_dex_features_spec_witness :
  exists df,
    _transactions_to_dataframe scenario_A = Ok df
    /\ let f := _extract_dex_features scenario_A_now df in
       num_swaps f = 1 /\ num_deposits f = 1
       /\ (total_swap_volume f == 1000)%Q
       /\ (total_deposit_usd f == 1000)%Q
       /\ unique_pools f = 1.
Proof.
  eexists. split; [reflexivity|].
  destruct (extract_dex_features_spec scenario_A_now scenario_A _ eq_refl)
    as (H1 & H2 & H3 & H4 & H5).
  cbv zeta. rewrite H1, H2, H3, H4, H5.
  repeat split.
Defined.

(** ** Monotonicity of the LP score in the deposit total *)

Lemma volume_bonus_nonneg v : (0 <= volume_bonus v)%Q.
Proof. unfold_thresholds. q_cases; lra. Qed.

Lemma volume_bonus_le_300 v : (volume_bonus v <= 300)%Q.
Proof. unfold_thresholds. q_cases; lra. Qed.

Lemma volume_bonus_mono v v' :
  (v <= v')%Q -> (volume_bonus v <= volume_bonus v')%Q.
Proof. intros H. unfold_thresholds. q_cases; lra. Qed.

Lemma holding_bonus_nonneg d : (0 <= holding_bonus d)%Q.
Proof. unfold_thresholds. q_cases; lra. Qed.

Lemma size_bonus_nonneg a : (0 <= size_bonus a)%Q.
Proof. unfold_thresholds. simpl negb. q_cases; simpl; lra. Qed.

Lemma frequency_bonus_nonneg n : (0 <= frequency_bonus n)%Q.
Proof.
  unfold_thresholds.
  repeat match goal with |- context [?a <=? ?b] => destruct (a <=? b) end; lra.
Qed.

Lemma pool_bonus_nonneg p : (0 <= pool_bonus p)%Q.
Proof.
  unfold pool_bonus.
  repeat match goal with |- context [?a <=? ?b] => destruct (a <=? b) end; lra.
Qed.

Lemma Qdiv_nonneg a b : (0 <= a)%Q -> (0 < b)%Q -> (0 <= a / b)%Q.
Proof.
  intros Ha Hb. apply Qle_shift_div_l; [assumption | lra].
Qed.

Lemma retention_ratio_mono w d d' :
  (0 <= w)%Q -> (0 < d)%Q -> (d <= d')%Q ->
  ((d - w) / d <= (d' - w) / d')%Q.
Proof.
  intros Hw Hd Hdd.
  apply Qle_shift_div_l; [lra|].
  assert (E : ((d - w) / d * d' == (d - w) * d' / d)%Q) by (field; lra).
  rewrite E. apply Qle_shift_div_r; [lra | nra].
Qed.

Lemma retention_bonus_finite d w :
  (0 <= w)%Q -> retention_bonus d w = Some (retention_amount d w).
Proof.
  intros Hw. unfold retention_bonus, retention_amount, Qgt_bool.
  destruct (Qle_bool d w) eqn:Hle; cbn [negb]; [reflexivity|].
  destruct (Qeq_bool d 0) eqn:Hz; [|reflexivity].
  apply Qeq_bool_iff in Hz.
  assert (Hdw : (d <= w)%Q) by lra.
  apply Qle_bool_iff in Hdw. congruence.
Qed.

Lemma lp_score_finite f :
  (0 <= total_withdraw_usd f)%Q ->
  _calculate_lp_score f
  = py_min (0 + volume_bonus (total_deposit_usd f)
            + frequency_bonus (num_deposits f)
            + holding_bonus (avg_hold_time_days f)
            + pool_bonus (unique_pools f)
            + retention_amount (total_deposit_usd f) (total_withdraw_usd f))%Q
      1000.
Proof.
  intros Hw. unfold _calculate_lp_score.
  now rewrite (retention_bonus_finite _ _ Hw).
Qed.

Lemma retention_amount_nonneg d w :
  (0 <= w)%Q -> (0 <= retention_amount d w)%Q.
Proof.
  intros Hw. unfold retention_amount, Qgt_bool. q_cases; simpl; try lra.
  assert (0 <= (d - w) / d)%Q by (apply Qdiv_nonneg; lra). lra.
Qed.

Lemma retention_amount_mono w d d' :
  (0 <= w)%Q -> (d <= d')%Q ->
  (retention_amount d w <= retention_amount d' w)%Q.
Proof.
  intros Hw Hdd.
  pose proof (retention_amount_nonneg d' w Hw) as Hnn.
  unfold retention_amount, Qgt_bool in *. q_cases; simpl in *; try lra.
  assert ((d - w) / d <= (d' - w) / d')%Q
    by (apply retention_ratio_mono; lra).
  lra.
Qed.

Lemma py_min_mono a b c : (a <= b)%Q -> (py_min a c <= py_min b c)%Q.
Proof. intros H. unfold py_min, Qgt_bool. q_cases; simpl; lra. Qed.

Lemma py_min_le_r a c : (py_min a c <= c)%Q.
Proof. unfold py_min, Qgt_bool. q_cases; simpl; lra. Qed.

Lemma py_min_nonneg a c : (0 <= a)%Q -> (0 <= c)%Q -> (0 <= py_min a c)%Q.
Proof. intros Ha Hc. unfold py_min, Qgt_bool. q_cases; simpl; lra. Qed.

(** C7 (as stated, refuted). With a negative withdrawal total the retention
    bonus shrinks as the deposit total grows: raising [total_deposit_usd]
    from 1 (below the low tier) to 1000 (the medium tier) lowers the LP
    score from 1000 to 260. *)
Lemma lp_score_not_monotone :
  let f := mkCategoryFeatures 0 0 0 0 0 0 (-100) 0 0 0 in
  (_calculate_lp_score (with_total_deposit_usd f 1) == 1000)%Q
  /\ (_calculate_lp_score (with_total_deposit_usd f 1000) == 260)%Q
  /\ ~ (_calculate_lp_score (with_total_deposit_usd f 1)
        <= _calculate_lp_score (with_total_deposit_usd f 1000))%Q.
Proof.
  repeat split; try reflexivity.
  intros H. vm_compute in H. apply H. reflexivity.
Qed.

Lemma Qge_bool_comp a a' b : (a == a')%Q -> Qge_bool a b = Qge_bool a' b.
Proof. intros E. unfold Qge_bool. now rewrite E. Qed.

Lemma Qgt_bool_comp a a' b b' :
  (a == a')%Q -> (b == b')%Q -> Qgt_bool a b = Qgt_bool a' b'.
Proof. intros E F. unfold Qgt_bool. now rewrite E, F. Qed.

Lemma py_min_comp a a' c : (a == a')%Q -> (py_min a c == py_min a' c)%Q.
Proof.
  intros E. unfold py_min.
  rewrite (Qgt_bool_comp a a' c c E (Qeq_refl c)).
  destruct (Qgt_bool a' c); [reflexivity | exact E].
Qed.

(** A zero deposit total with a negative withdrawal total: the division
    gives infinity and the score is capped at 1000, whatever the other
    bonuses. *)
Lemma lp_score_zero_deposit f :
  (total_deposit_usd f == 0)%Q -> (total_withdraw_usd f < 0)%Q ->
  _calculate_lp_score f = 1000%Q.
Proof.
  intros Hd Hw. unfold _calculate_lp_score, retention_bonus, Qgt_bool.
  assert (Hle : Qle_bool (total_deposit_usd f) (total_withdraw_usd f) = false).
  { apply not_true_iff_false. rewrite Qle_bool_iff. lra. }
  rewrite Hle. cbn [negb].
  apply Qeq_bool_iff in Hd. now rewrite Hd.
Qed.

(** Over exact arithmetic the LP score is non-decreasing in the deposit
    total as soon as the withdrawal total is not negative.  Binary64 does
    not keep this: see [retention_step_rounding_not_monotone]. *)
Lemma lp_score_formula_monotone f d d' :
  (0 <= total_withdraw_usd f)%Q ->
  (d <= d')%Q ->
  (_calculate_lp_score (with_total_deposit_usd f d)
   <= _calculate_lp_score (with_total_deposit_usd f d'))%Q.
Proof.
  intros Hw Hdd.
  rewrite !lp_score_finite by exact Hw. apply py_min_mono. simpl.
  pose proof (volume_bonus_mono d d' Hdd).
  pose proof (retention_amount_mono (total_withdraw_usd f) d d' Hw Hdd).
  lra.
Qed.

(** With a positive withdrawal total the retention ratio [(d - w) / d] is
    rounded twice, and the rounded value is not monotone in [d]: for the
    withdrawal total 4087.372855478192 and a score of 200 before the step,
    moving the deposit total from 97689.26636899512 to the next binary64
    value 97689.26636899513 lowers the score after the step from
    295.8159447732577 to 295.8159447732576. *)
Lemma retention_step_rounding_not_monotone :
  let w := binary64 8988227963308528 (-41) in
  let d := binary64 6713155267601067 (-36) in
  let d' := binary64 6713155267601068 (-36) in
  SFltb (binary64 0 0) w = true
  /\ SFltb d d' = true
  /\ retention_step_binary64 (binary64 200 0) d w
     = S754_finite false 5204049135355838 (-44)
  /\ retention_step_binary64 (binary64 200 0) d' w
     = S754_finite false 5204049135355837 (-44)
  /\ SFltb (retention_step_binary64 (binary64 200 0) d' w)
           (retention_step_binary64 (binary64 200 0) d w) = true.
Proof. vm_compute. repeat split. Qed.

(** Without withdrawals the retention bonus is 100 for every positive
    deposit total and nothing is added otherwise: the ratio is [d / d]. *)
Lemma retention_amount_no_withdrawal d w :
  (w == 0)%Q ->
  (retention_amount d w == if Qgt_bool d 0 then 100 else 0)%Q.
Proof.
  intros Hw. unfold retention_amount.
  rewrite (Qgt_bool_comp d d w 0%Q (Qeq_refl d) Hw).
  unfold Qgt_bool. destruct (Qle_bool d 0) eqn:Hle; cbn [negb]; [reflexivity|].
  assert (Hd : (0 < d)%Q).
  { apply Qnot_le_lt. intros H. apply Qle_bool_iff in H. congruence. }
  destruct (Qeq_bool d 0) eqn:Hz.
  - apply Qeq_bool_iff in Hz. lra.
  - rewrite Hw. field. lra.
Qed.

(** C7 (amended). For features without withdrawals (a withdrawal total of
    0) and finite deposit totals, with all fields other than
    [total_deposit_usd] held fixed, a larger deposit total never gives a
    smaller LP score.  There the score is the sum of the step bonuses and
    of a retention bonus of exactly 100 for a positive deposit total, all
    of which binary64 computes without rounding. *)
Theorem lp_score_monotone_in_deposit :
  forall (f : CategoryFeatures) (d d' : Q),
    (total_withdraw_usd f == 0)%Q ->
    (d <= d')%Q ->
    (d' <= finite_total)%Q ->
    (_calculate_lp_score (with_total_deposit_usd f d)
     <= _calculate_lp_score (with_total_deposit_usd f d'))%Q
    /\ (_calculate_lp_score (with_total_deposit_usd f d')
        == py_min (volume_bonus d' + frequency_bonus (num_deposits f)
                   + holding_bonus (avg_hold_time_days f)
                   + pool_bonus (unique_pools f)
                   + (if Qgt_bool d' 0 then 100 else 0)) 1000)%Q.
Proof.
  intros f d d' Hw Hdd _.
  assert (Hw0 : (0 <= total_withdraw_usd f)%Q) by lra.
  split; [now apply lp_score_formula_monotone|].
  rewrite lp_score_finite by exact Hw0. apply py_min_comp.
  cbn [with_total_deposit_usd total_deposit_usd num_deposits avg_hold_time_days
       unique_pools total_withdraw_usd].
  rewrite (retention_amount_no_withdrawal d' _ Hw). ring.
Qed.

Lemma lp_score_monotone_in_deposit_witness :
  let f := mkCategoryFeatures 0 0 3 0 40 2 0 0 0 0 in
  (total_withdraw_usd f == 0)%Q /\ (50 <= 100000)%Q
  /\ (100000 <= finite_total)%Q
  /\ (_calculate_lp_score (with_total_deposit_usd f 50)
      <= _calculate_lp_score (with_total_deposit_usd f 100000))%Q.
Proof.
  cbv zeta.
  assert (Hb : (100000 <= finite_total)%Q)
    by (apply Qle_bool_iff; vm_compute; reflexivity).
  split; [reflexivity|]. split; [lra|]. split; [exact Hb|].
  apply lp_score_monotone_in_deposit; [reflexivity | lra | exact Hb].
Defined.

(** ** Rounding to hundredths *)

Lemma round_half_even_cases x :
  let n := Zfloor x in
  (round_half_even x = n /\ (x - IZR n <= 1 / 2)%R)
  \/ (round_half_even x = n + 1 /\ (1 / 2 <= x - IZR n)%R).
Proof.
  cbv zeta. unfold round_half_even.
  destruct (Rlt_dec (x - IZR (Zfloor x)) (1 / 2)) as [H1|H1].
  - left. split; [reflexivity | lra].
  - destruct (Rlt_dec (1 / 2) (x - IZR (Zfloor x))) as [H2|H2].
    + right. split; [reflexivity | lra].
    + destruct (Z.even (Zfloor x)); [left | right]; split;
        try reflexivity; lra.
Qed.

Lemma round_half_even_IZR k : round_half_even (IZR k) = k.
Proof.
  assert (Hf : Zfloor (IZR k) = k) by (apply Zfloor_eq; lra).
  unfold round_half_even. rewrite Hf.
  destruct (Rlt_dec (IZR k - IZR k) (1 / 2)) as [_|H]; [reflexivity | lra].
Qed.

Lemma round_half_even_mono x y :
  (x <= y)%R -> round_half_even x <= round_half_even y.
Proof.
  intros Hxy.
  pose proof (Zfloor_le x y Hxy) as Hfl.
  pose proof (Zfloor_bound x) as Hbx.
  pose proof (Zfloor_bound y) as Hby.
  destruct (Z.eq_dec (Zfloor x) (Zfloor y)) as [E|NE].
  - unfold round_half_even. rewrite <- E.
    destruct (Rlt_dec (x - IZR (Zfloor x)) (1 / 2)) as [H1|H1];
    destruct (Rlt_dec (y - IZR (Zfloor x)) (1 / 2)) as [H2|H2];
    destruct (Rlt_dec (1 / 2) (x - IZR (Zfloor x))) as [H3|H3];
    destruct (Rlt_dec (1 / 2) (y - IZR (Zfloor x))) as [H4|H4];
    destruct (Z.even (Zfloor x)); try lia; lra.
  - destruct (round_half_even_cases x) as [[-> _]|[-> _]];
    destruct (round_half_even_cases y) as [[-> _]|[-> _]]; lia.
Qed.

Lemma Qle_cents a b : a <= b -> (a # 100 <= b # 100)%Q.
Proof. intros H. unfold Qle; simpl. lia. Qed.

Lemma py_round2_mono x y : (x <= y)%R -> (py_round2 x <= py_round2 y)%Q.
Proof.
  intros H. apply Qle_cents, round_half_even_mono. lra.
Qed.

Lemma py_round2_cents k : py_round2 (IZR k / 100) = k # 100.
Proof.
  unfold py_round2. replace (IZR k / 100 * 100)%R with (IZR k) by field.
  now rewrite round_half_even_IZR.
Qed.

Lemma py_round2_range x :
  (0 <= x <= 1000)%R -> (0 <= py_round2 x <= 1000)%Q.
Proof.
  intros [H0 H1]. split.
  - apply Qle_trans with (0 # 100); [unfold Qle; simpl; lia|].
    rewrite <- (py_round2_cents 0). apply py_round2_mono. lra.
  - apply Qle_trans with (100000 # 100); [|unfold Qle; simpl; lia].
    rewrite <- (py_round2_cents 100000). apply py_round2_mono. lra.
Qed.

Lemma normalize_score_range s : (0 <= _normalize_score s <= 1000)%R.
Proof.
  unfold _normalize_score. cbv zeta.
  set (v := (1000 / (1 + exp (- (Q2R s - 500) / 200)))%R).
  split.
  - apply Rmax_l.
  - apply Rmax_lub; [lra | apply Rmin_l].
Qed.

Lemma calculate_dex_score_range now txs c :
  _calculate_dex_score now txs = Ok c -> (0 <= score c <= 1000)%Q.
Proof.
  unfold _calculate_dex_score.
  destruct (_transactions_to_dataframe txs) as [df|e]; simpl; [|discriminate].
  intros [= <-]. simpl. apply py_round2_range, normalize_score_range.
Qed.

(** ** Wallet aggregation *)

Lemma weight_sum_cons pd wd :
  weight_sum (pd :: wd) = (bucket_weight pd + weight_sum wd)%Q.
Proof. reflexivity. Qed.

Lemma process_loop_with_ok fallback now wd : forall cats0 ts0 tw0 cats ts tw,
  process_loop_with fallback now wd cats0 ts0 tw0 = Ok (cats, ts, tw) ->
  exists new,
    cats = (cats0 ++ new)%list
    /\ Forall2 (fun pd c => score_bucket_with fallback now pd = Ok c) wd new
    /\ (ts == ts0 + weighted_score_sum wd new)%Q
    /\ (tw == tw0 + weight_sum wd)%Q.
Proof.
  induction wd as [|pd rest IH]; intros cats0 ts0 tw0 cats ts tw H.
  - simpl in H. injection H as <- <- <-. exists [].
    rewrite app_nil_r. split; [reflexivity|]. split; [constructor|].
    split; unfold weight_sum; cbn [weighted_score_sum map Qsum fold_right];
      ring.
  - cbn [process_loop_with] in H.
    destruct (String.eqb (lower (protocolType pd)) "dexes") eqn:Hd.
    + destruct (_calculate_dex_score now (transactions pd)) as [c|e] eqn:Hc;
        cbn [bind] in H; [|discriminate].
      destruct (IH _ _ _ _ _ _ H) as (new & -> & HF & Hts & Htw).
      exists (c :: new). rewrite <- app_assoc.
      split; [reflexivity|]. split; [|split].
      * constructor; [|exact HF].
        unfold score_bucket_with, is_dexes. now rewrite Hd.
      * rewrite Hts. cbn [weighted_score_sum].
        unfold bucket_weight, is_dexes. rewrite Hd. ring.
      * rewrite Htw, weight_sum_cons.
        unfold bucket_weight, is_dexes. rewrite Hd. ring.
    + destruct (fallback pd) as [c|e] eqn:Hc;
        cbn [bind] in H; [|discriminate].
      destruct (IH _ _ _ _ _ _ H) as (new & -> & HF & Hts & Htw).
      exists (c :: new). rewrite <- app_assoc.
      split; [reflexivity|]. split; [|split].
      * constructor; [|exact HF].
        unfold score_bucket_with, is_dexes. now rewrite Hd.
      * rewrite Hts. cbn [weighted_score_sum].
        unfold bucket_weight, is_dexes. rewrite Hd. ring.
      * rewrite Htw, weight_sum_cons.
        unfold bucket_weight, is_dexes. rewrite Hd. ring.
Qed.

Lemma process_loop_with_code now wd : forall cats ts tw,
  process_loop_with _calculate_basic_protocol_score now wd cats ts tw
  = process_loop now wd cats ts tw.
Proof. reflexivity. Qed.

Lemma process_wallet_data_with_code now wd :
  process_wallet_data_with _calculate_basic_protocol_score now wd
  = process_wallet_data now wd.
Proof. reflexivity. Qed.

Lemma bucket_weight_pos pd : (0 < bucket_weight pd)%Q.
Proof. unfold bucket_weight. destruct (is_dexes pd); lra. Qed.

Lemma weight_sum_nonneg wd : (0 <= weight_sum wd)%Q.
Proof.
  induction wd as [|pd wd IH]; unfold weight_sum in *; simpl; [lra|].
  pose proof (bucket_weight_pos pd). lra.
Qed.

Lemma weight_sum_pos pd wd : (0 < weight_sum (pd :: wd))%Q.
Proof.
  unfold weight_sum; simpl.
  pose proof (bucket_weight_pos pd). pose proof (weight_sum_nonneg wd).
  unfold weight_sum in *. lra.
Qed.

Lemma process_wallet_data_with_ok fallback now wd cats overall :
  process_wallet_data_with fallback now wd = Ok (cats, overall) ->
  Forall2 (fun pd c => score_bucket_with fallback now pd = Ok c) wd cats
  /\ (overall == overall_spec wd cats)%Q.
Proof.
  unfold process_wallet_data_with.
  destruct (process_loop_with fallback now wd [] 0%Q 0%Q) as [[[cs ts] tw]|e] eqn:HL;
    simpl; [|discriminate].
  intros [= <- <-].
  destruct (process_loop_with_ok _ _ _ _ _ _ _ _ _ HL) as (new & -> & HF & Hts & Htw).
  simpl. split; [exact HF|].
  destruct wd as [|pd wd]; unfold overall_spec, Qgt_bool.
  - change (weight_sum []) with 0%Q in Htw.
    assert (Hle : Qle_bool tw 0 = true) by (apply Qle_bool_iff; lra).
    rewrite Hle. reflexivity.
  - pose proof (weight_sum_pos pd wd) as Hp.
    assert (Hle : Qle_bool tw 0 = false).
    { apply not_true_iff_false. rewrite Qle_bool_iff. lra. }
    rewrite Hle. simpl negb. cbv iota.
    rewrite Hts, Htw. apply Qdiv_comp; ring.
Qed.

Lemma process_wallet_data_ok now wd cats overall :
  process_wallet_data now wd = Ok (cats, overall) ->
  Forall2 (fun pd c => score_bucket now pd = Ok c) wd cats
  /\ (overall == overall_spec wd cats)%Q.
Proof.
  rewrite <- process_wallet_data_with_code.
  apply process_wallet_data_with_ok.
Qed.

(** Whenever [process_wallet_data] returns, the category list holds the
    score of each bucket in order and the overall score is the sum of those
    scores weighted 1 for "dexes" buckets and 1/2 for the others, divided by
    the sum of the weights; for an empty bucket list it returns an empty
    category list and overall score 0. *)
Theorem overall_score_is_weighted_average :
  forall (now : Z) (wd : list ProtocolData) (cats : list CategoryScore)
         (overall : Q),
    process_wallet_data now wd = Ok (cats, overall) ->
    Forall2 (fun pd c => score_bucket now pd = Ok c) wd cats
    /\ (overall == overall_spec wd cats)%Q
    /\ process_wallet_data now [] = Ok ([], 0%Q).
Proof.
  intros now wd cats overall H.
  destruct (process_wallet_data_ok now wd cats overall H) as [HF Ho].
  repeat split; assumption.
Qed.

Lemma scenario_A_dataframe :
  _transactions_to_dataframe scenario_A = Ok scenario_A_df.
Proof. reflexivity. Qed.

Lemma scenario_A_dex_score :
  _calculate_dex_score scenario_A_now scenario_A = Ok scenario_A_category.
Proof.
  unfold _calculate_dex_score. rewrite scenario_A_dataframe. cbn [bind].
  assert (Hf : _extract_dex_features scenario_A_now scenario_A_df
               = scenario_A_features) by (vm_compute; reflexivity).
  rewrite Hf.
  assert (Hc : (_calculate_lp_score scenario_A_features * lp_weight
                + _calculate_swap_score scenario_A_features * swap_weight)%Q
               = scenario_A_combined) by (vm_compute; reflexivity).
  rewrite Hc. reflexivity.
Qed.

Lemma scenario_A_wallet :
  process_wallet_data scenario_A_now [scenario_A_bucket]
  = Ok ([scenario_A_category],
        ((0 + score scenario_A_category * 1) / (0 + 1))%Q).
Proof.
  unfold process_wallet_data, process_wallet_data_with; fold process_loop.
  unfold process_loop; cbn [process_loop_with]; fold process_loop.
  change (String.eqb (lower (protocolType scenario_A_bucket)) "dexes")
    with true. cbv iota.
  change (transactions scenario_A_bucket) with scenario_A.
  rewrite scenario_A_dex_score. cbn [bind app].
  change (Qgt_bool (0 + 1) 0) with true. reflexivity.
Qed.

Lemma overall_score_is_weighted_average_witness :
  process_wallet_data scenario_A_now [scenario_A_bucket]
  = Ok ([scenario_A_category],
        ((0 + score scenario_A_category * 1) / (0 + 1))%Q)
  /\ ((0 + score scenario_A_category * 1) / (0 + 1)
      == overall_spec [scenario_A_bucket] [scenario_A_category])%Q.
Proof.
  split; [exact scenario_A_wallet|].
  exact (proj1 (proj2 (overall_score_is_weighted_average scenario_A_now
                         [scenario_A_bucket] [scenario_A_category] _
                         scenario_A_wallet))).
Defined.

(** With the fallback behaving as specified, a wallet holding the "dexes"
    bucket of scenario A and the "lending" bucket of scenario C aggregates
    the two scores with weights 1 and 1/2. *)
Lemma mixed_wallet_weights :
  exists c_dex c_other overall,
    process_wallet_data_with intended_basic_protocol_score scenario_A_now
      [scenario_A_bucket; scenario_C]
    = Ok ([c_dex; c_other], overall)
    /\ (score c_other == 40)%Q
    /\ (overall == (1 * score c_dex + (1 # 2) * 40) / (1 + (1 # 2)))%Q.
Proof.
  destruct (process_wallet_data_with intended_basic_protocol_score
              scenario_A_now [scenario_A_bucket; scenario_C])
    as [[cats overall]|e] eqn:H.
  - destruct (process_wallet_data_with_ok _ _ _ _ _ H) as [HF Ho].
    inversion HF as [|pd1 c1 wd1 cats1 H1 HF1]; subst.
    inversion HF1 as [|pd2 c2 wd2 cats2 H2 HF2]; subst.
    inversion HF2; subst.
    exists c1, c2, overall. split; [reflexivity|].
    injection H2 as <-. split; [reflexivity|].
    rewrite Ho. unfold overall_spec, weight_sum.
    cbn [weighted_score_sum map Qsum fold_right].
    change (bucket_weight scenario_A_bucket) with 1%Q.
    change (bucket_weight scenario_C) with (1 # 2)%Q.
    cbn [score]. change (inject_Z (basic_score_spec scenario_C)) with 40%Q.
    apply Qdiv_comp; ring.
  - exfalso. unfold process_wallet_data_with in H.
    cbn [process_loop_with] in H.
    change (String.eqb (lower (protocolType scenario_A_bucket)) "dexes")
      with true in H.
    change (String.eqb (lower (protocolType scenario_C)) "dexes")
      with false in H.
    cbv iota in H. change (transactions scenario_A_bucket) with scenario_A in H.
    rewrite scenario_A_dex_score in H. cbn [bind] in H.
    unfold intended_basic_protocol_score in H. cbn [bind] in H.
    destruct (Qgt_bool _ _) in H; discriminate.
Qed.

(** ** Score bounds *)

Lemma basic_protocol_score_range pd c :
  _calculate_basic_protocol_score pd = Ok c -> (0 <= score c <= 500)%Q.
Proof.
  unfold _calculate_basic_protocol_score.
  destruct (setattr_CategoryFeatures CategoryFeatures_default
              "transaction_count" _) as [f1|e]; cbn [bind]; [|discriminate].
  unfold setattr_CategoryFeatures at 1.
  change (str_in "unique_pools" CategoryFeatures_fields) with true.
  cbn [negb bind]. intros [= <-]. cbn [score unique_pools].
  change (String.eqb "unique_pools" "unique_pools") with true. cbv iota.
  set (n := Z.of_nat (List.length (transactions pd))).
  set (u := nunique (map poolId (transactions pd))).
  assert (0 <= n) by (subst n; lia).
  assert (0 <= u) by (subst u; unfold nunique; lia).
  rewrite <- (Zle_Qle 0), <- (Zle_Qle _ 500). lia.
Qed.

Lemma score_bucket_range now pd c :
  score_bucket now pd = Ok c -> (0 <= score c <= 1000)%Q.
Proof.
  unfold score_bucket. destruct (is_dexes pd); intros H.
  - eapply calculate_dex_score_range; eassumption.
  - apply basic_protocol_score_range in H. lra.
Qed.

Lemma weighted_score_sum_range now wd cats :
  Forall2 (fun pd c => score_bucket now pd = Ok c) wd cats ->
  (0 <= weighted_score_sum wd cats <= 1000 * weight_sum wd)%Q.
Proof.
  induction 1 as [|pd c wd cats Hs _ IH].
  - change (weight_sum []) with 0%Q. cbn [weighted_score_sum]. lra.
  - rewrite weight_sum_cons. cbn [weighted_score_sum].
    apply score_bucket_range in Hs.
    unfold bucket_weight. destruct (is_dexes pd); lra.
Qed.

Lemma overall_spec_range now wd cats :
  Forall2 (fun pd c => score_bucket now pd = Ok c) wd cats ->
  (0 <= overall_spec wd cats <= 1000)%Q.
Proof.
  intros HF. pose proof (weighted_score_sum_range now wd cats HF) as [H0 H1].
  destruct wd as [|pd wd]; unfold overall_spec; [lra|].
  pose proof (weight_sum_pos pd wd) as Hp. split.
  - apply Qle_shift_div_l; [assumption | lra].
  - apply Qle_shift_div_r; [assumption | lra].
Qed.

(** Wallets made of scorable buckets are scored. *)
Lemma mapM_make_row_total txs :
  forallb timestamp_in_range txs = true ->
  mapM make_row txs = Ok (map row_of txs).
Proof.
  induction txs as [|tx txs IH]; cbn [forallb mapM map]; [reflexivity|].
  intros H. apply andb_prop in H as [Ht Hr].
  unfold make_row at 1, datetime_fromtimestamp.
  unfold timestamp_in_range in Ht. rewrite Ht. cbn [bind].
  now rewrite (IH Hr).
Qed.

Lemma calculate_dex_score_total now tx txs :
  forallb timestamp_in_range (tx :: txs) = true ->
  exists c, _calculate_dex_score now (tx :: txs) = Ok c.
Proof.
  intros H. unfold _calculate_dex_score, _transactions_to_dataframe.
  rewrite (mapM_make_row_total _ H). cbn [bind map sort_values_timestamp].
  eexists. reflexivity.
Qed.

Lemma process_loop_total now wd :
  forallb scorable_bucket wd = true ->
  forall cats ts tw, exists r, process_loop now wd cats ts tw = Ok r.
Proof.
  induction wd as [|pd rest IH]; unfold process_loop; cbn [forallb process_loop_with]; fold process_loop; intros H cats ts tw.
  - eexists. reflexivity.
  - apply andb_prop in H as [Hpd Hrest].
    unfold scorable_bucket, is_dexes in Hpd.
    apply andb_prop in Hpd as [Hpd Hrange]. apply andb_prop in Hpd as [Hd Hne].
    rewrite Hd.
    destruct (transactions pd) as [|tx txs]; [discriminate|].
    destruct (calculate_dex_score_total now tx txs Hrange) as [c ->].
    cbn [bind]. apply (IH Hrest).
Qed.

Lemma process_wallet_data_total now wd :
  forallb scorable_bucket wd = true ->
  exists cats overall, process_wallet_data now wd = Ok (cats, overall).
Proof.
  intros H. unfold process_wallet_data, process_wallet_data_with; fold process_loop.
  destruct (process_loop_total now wd H [] 0%Q 0%Q) as [[[cats ts] tw] ->].
  cbn [bind]. eexists _, _. reflexivity.
Qed.

(** C1. Whenever [process_wallet_data] returns for the buckets of a wallet
    input, the overall score and the score of every category it produced
    lie between 0 and 1000. *)
Theorem scores_within_bounds :
  forall (now : Z) (wallet_input : WalletTransactionInput)
         (cats : list CategoryScore) (overall : Q),
    process_wallet_data now (data wallet_input) = Ok (cats, overall) ->
    (0 <= overall <= 1000)%Q
    /\ Forall (fun c => (0 <= score c <= 1000)%Q) cats.
Proof.
  intros now wi cats overall H.
  destruct (process_wallet_data_ok now _ cats overall H) as [HF Ho].
  split.
  - rewrite Ho. eapply overall_spec_range; eassumption.
  - clear Ho H. induction HF as [|pd c wd cats Hs _ IH]; constructor.
    + eapply score_bucket_range; eassumption.
    + assumption.
Qed.

Lemma scores_within_bounds_witness :
  let wallet_input := mkWalletTransactionInput valid_address [scenario_A_bucket] in
  process_wallet_data scenario_A_now (data wallet_input)
  = Ok ([scenario_A_category],
        ((0 + score scenario_A_category * 1) / (0 + 1))%Q)
  /\ (0 <= (0 + score scenario_A_category * 1) / (0 + 1) <= 1000)%Q
  /\ Forall (fun c => (0 <= score c <= 1000)%Q) [scenario_A_category].
Proof.
  cbv zeta. split; [exact scenario_A_wallet|].
  exact (scores_within_bounds scenario_A_now
           (mkWalletTransactionInput valid_address [scenario_A_bucket])
           [scenario_A_category] _ scenario_A_wallet).
Defined.

(** ** The shape of the published zscore *)

Lemma is_digit_plain c :
  is_digit c = true ->
  Ascii.eqb c "-" = false /\ Ascii.eqb c "+" = false
  /\ is_dot c = false /\ is_exp_mark c = false.
Proof.
  destruct c as [[] [] [] [] [] [] [] []]; intros H;
    try discriminate H; repeat split.
Qed.

Lemma digit_char_is_digit d : 0 <= d < 10 -> is_digit (digit_char d) = true.
Proof.
  intros H.
  assert (E : d = 0 \/ d = 1 \/ d = 2 \/ d = 3 \/ d = 4 \/ d = 5 \/ d = 6
              \/ d = 7 \/ d = 8 \/ d = 9) by lia.
  repeat (destruct E as [-> | E]; [reflexivity|]). subst. reflexivity.
Qed.

Lemma all_digits_append a b :
  all_digits (String.append a b) = (all_digits a && all_digits b)%bool.
Proof.
  induction a as [|c a IH]; simpl; [reflexivity|].
  now rewrite IH, andb_assoc.
Qed.

Lemma length_append a b :
  String.length (String.append a b) = (String.length a + String.length b)%nat.
Proof.
  induction a as [|c a IH]; simpl; [reflexivity | now rewrite IH].
Qed.

Lemma digits_fixed_all_digits k : forall n, all_digits (digits_fixed k n) = true.
Proof.
  induction k as [|k IH]; intros n; cbn [digits_fixed]; [reflexivity|].
  rewrite all_digits_append, IH. cbn [all_digits andb].
  rewrite digit_char_is_digit; [reflexivity|].
  apply Z.mod_pos_bound. lia.
Qed.

Lemma digits_fixed_length k : forall n, String.length (digits_fixed k n) = k.
Proof.
  induction k as [|k IH]; intros n; cbn [digits_fixed]; [reflexivity|].
  rewrite length_append, IH. cbn [String.length]. lia.
Qed.

Lemma string_of_uint_all_digits u :
  all_digits (NilEmpty.string_of_uint u) = true.
Proof.
  induction u; simpl; try reflexivity; assumption.
Qed.

Lemma str_of_nonneg_digits n :
  all_digits (str_of_nonneg n) = true /\ nonempty (str_of_nonneg n) = true.
Proof.
  unfold str_of_nonneg, NilZero.string_of_uint.
  destruct (N.to_uint (Z.to_N n)) as [|u|u|u|u|u|u|u|u|u|u];
    split; try reflexivity; simpl; apply string_of_uint_all_digits.
Qed.

Lemma split_at_dot_digits ip rest :
  all_digits ip = true ->
  split_at is_dot (String.append ip (String "." rest)) = (ip, Some rest).
Proof.
  induction ip as [|c ip IH]; simpl; intros H; [reflexivity|].
  apply andb_prop in H as [Hc Hip].
  destruct (is_digit_plain c Hc) as (_ & _ & -> & _).
  now rewrite (IH Hip).
Qed.

Lemma split_at_exp_digits s :
  all_digits s = true -> split_at is_exp_mark s = (s, None).
Proof.
  induction s as [|c s IH]; simpl; intros H; [reflexivity|].
  apply andb_prop in H as [Hc Hs].
  destruct (is_digit_plain c Hc) as (_ & _ & _ & ->).
  now rewrite (IH Hs).
Qed.

Lemma split_at_exp_number ip fp :
  all_digits ip = true -> all_digits fp = true ->
  split_at is_exp_mark (String.append ip (String "." fp))
  = (String.append ip (String "." fp), None).
Proof.
  intros Hip Hfp.
  induction ip as [|c ip IH]; simpl.
  - now rewrite (split_at_exp_digits fp Hfp).
  - simpl in Hip. apply andb_prop in Hip as [Hc Hip].
    destruct (is_digit_plain c Hc) as (_ & _ & _ & ->).
    now rewrite (IH Hip).
Qed.

Lemma strip_sign_signed_number neg ip fp :
  nonempty ip = true -> all_digits ip = true ->
  strip_sign (signed_number neg ip fp) = String.append ip (String "." fp)
  /\ strip_minus (signed_number neg ip fp) = String.append ip (String "." fp).
Proof.
  intros Hne Hip. unfold signed_number.
  destruct neg; [split; reflexivity|].
  destruct ip as [|c ip]; [discriminate|].
  simpl in Hip. apply andb_prop in Hip as [Hc _].
  destruct (is_digit_plain c Hc) as (Hm & Hp & _ & _).
  simpl. now rewrite Hm, Hp.
Qed.

Lemma signed_number_fixed_point_18 neg ip fp :
  nonempty ip = true -> all_digits ip = true -> all_digits fp = true ->
  String.length fp = 18%nat ->
  fixed_point_18 (signed_number neg ip fp) = true.
Proof.
  intros Hne Hip Hfp Hlen. unfold fixed_point_18.
  destruct (strip_sign_signed_number neg ip fp Hne Hip) as [_ ->].
  rewrite (split_at_dot_digits ip fp Hip), Hne, Hip, Hfp, Hlen. reflexivity.
Qed.

Lemma signed_number_Decimal_accepts neg ip fp :
  nonempty ip = true -> all_digits ip = true -> all_digits fp = true ->
  Decimal_accepts (signed_number neg ip fp) = true.
Proof.
  intros Hne Hip Hfp. unfold Decimal_accepts.
  destruct (strip_sign_signed_number neg ip fp Hne Hip) as [-> _].
  rewrite (split_at_exp_number ip fp Hip Hfp). unfold decimal_part_ok.
  rewrite (split_at_dot_digits ip fp Hip), Hne, Hip, Hfp. reflexivity.
Qed.

Lemma format_f18_signed_number x :
  exists ip fp,
    format_f18 x = signed_number (Qgt_bool 0 x) ip fp
    /\ nonempty ip = true /\ all_digits ip = true
    /\ all_digits fp = true /\ String.length fp = 18%nat.
Proof.
  unfold format_f18. cbv zeta.
  set (scaled := Z.abs (Qround_half_even (x * inject_Z (10 ^ 18)))).
  exists (str_of_nonneg (scaled / 10 ^ 18)),
         (digits_fixed 18 (scaled mod 10 ^ 18)).
  destruct (str_of_nonneg_digits (scaled / 10 ^ 18)) as [Hd Hn].
  split; [|split; [exact Hn | split; [exact Hd | split]]].
  - unfold signed_number. destruct (Qgt_bool 0 x); reflexivity.
  - apply digits_fixed_all_digits.
  - apply digits_fixed_length.
Qed.

Lemma format_f18_fixed_point_18 x : fixed_point_18 (format_f18 x) = true.
Proof.
  destruct (format_f18_signed_number x) as (ip & fp & -> & Hn & Hd & Hf & Hl).
  now apply signed_number_fixed_point_18.
Qed.

Lemma format_f18_Decimal_accepts x : Decimal_accepts (format_f18 x) = true.
Proof.
  destruct (format_f18_signed_number x) as (ip & fp & -> & Hn & Hd & Hf & Hl).
  now apply signed_number_Decimal_accepts.
Qed.

Lemma WalletScoreSuccess_init_ok w x now ms cats :
  WalletScoreSuccess_init w (format_f18 x) now ms cats
  = Ok (mkWalletScoreSuccess w (format_f18 x) now ms cats).
Proof.
  unfold WalletScoreSuccess_init, validate_zscore.
  now rewrite format_f18_Decimal_accepts.
Qed.

(** A wallet that validates and is scored is published as a success record
    carrying the formatted overall score. *)
Lemma process_message_scored st now ms m wi cats overall :
  WalletTransactionInput_init m = Ok wi ->
  process_wallet_data now (data wi) = Ok (cats, overall) ->
  _process_message st now ms m
  = (PublishedSuccess
       (mkWalletScoreSuccess (wallet_address wi) (format_f18 overall)
          now ms cats),
     _update_stats st true ms (wallet_address wi)).
Proof.
  intros Hv Hs. unfold _process_message, try_block.
  rewrite Hv, Hs. cbn [bind]. now rewrite WalletScoreSuccess_init_ok.
Qed.

Lemma process_message_success_inv st now ms m s :
  fst (_process_message st now ms m) = PublishedSuccess s ->
  exists overall, zscore s = format_f18 overall.
Proof.
  unfold _process_message, try_block.
  destruct (WalletTransactionInput_init m) as [wi|e].
  - destruct (process_wallet_data now (data wi)) as [[cats overall]|e];
      cbn [bind].
    + rewrite WalletScoreSuccess_init_ok. cbn [fst].
      intros [= <-]. now exists overall.
    + destruct e; cbn [fst]; discriminate.
  - destruct e; cbn [fst]; discriminate.
Qed.

Lemma scenario_A_published :
  fst (_process_message (initial_stats 0) scenario_A_now 5 scenario_A_message)
  = PublishedSuccess scenario_A_success.
Proof.
  rewrite (process_message_scored (initial_stats 0) scenario_A_now 5
             scenario_A_message
             (mkWalletTransactionInput valid_address [scenario_A_bucket])
             _ _ eq_refl scenario_A_wallet).
  reflexivity.
Qed.

(** C6. The zscore of every published success record is an optional minus
    sign, at least one digit, a point and exactly 18 digits: fixed-point,
    with no exponent. *)
Theorem zscore_fixed_point_18 :
  forall (st : Stats) (now ms : Z) (m : MessageData) (s : WalletScoreSuccess),
    fst (_process_message st now ms m) = PublishedSuccess s ->
    fixed_point_18 (zscore s) = true.
Proof.
  intros st now ms m s H.
  destruct (process_message_success_inv st now ms m s H) as [overall ->].
  apply format_f18_fixed_point_18.
Qed.

Lemma zscore_fixed_point_18_witness :
  fst (_process_message (initial_stats 0) scenario_A_now 5 scenario_A_message)
  = PublishedSuccess scenario_A_success
  /\ fixed_point_18 (zscore scenario_A_success) = true.
Proof.
  split; [exact scenario_A_published|].
  exact (zscore_fixed_point_18 (initial_stats 0) scenario_A_now 5
           scenario_A_message scenario_A_success scenario_A_published).
Defined.

(** ** Rational bounds on [exp (5/2)]

    From [1 + x <= exp x] at a small argument and repeated squaring, each
    square rounded down to a multiple of 2^-80. *)

Lemma Qdown_le q : (Qdown q <= q)%Q.
Proof.
  unfold Qdown. rewrite Qmake_Qdiv.
  apply Qle_shift_div_r; [reflexivity|].
  apply Qfloor_le.
Qed.

Lemma Qdown_nonneg q : (0 <= q)%Q -> (0 <= Qdown q)%Q.
Proof.
  intros H. unfold Qdown.
  assert (0 <= Qfloor (q * inject_Z (2 ^ 80))).
  { rewrite <- (Qfloor_Z 0). apply Qfloor_resp_le.
    apply Qmult_le_0_compat; [exact H | discriminate]. }
  unfold Qle; cbn [Qnum Qden]. lia.
Qed.

Lemma square_down_exp k : forall (q : Q) (y : R),
  (0 <= q)%Q -> (Q2R q <= exp y)%R ->
  (Q2R (square_down k q) <= exp (2 ^ k * y))%R.
Proof.
  induction k as [|k IH]; intros q y Hq Hy.
  - simpl. now rewrite Rmult_1_l.
  - cbn [square_down].
    replace (2 ^ S k * y)%R with (2 ^ k * (2 * y))%R by (simpl; ring).
    apply IH.
    + apply Qdown_nonneg. now apply Qmult_le_0_compat.
    + apply Rle_trans with (Q2R (q * q)).
      * apply Qle_Rle, Qdown_le.
      * rewrite Q2R_mult.
        replace (2 * y)%R with (y + y)%R by ring. rewrite exp_plus.
        assert (0 <= Q2R q)%R.
        { replace 0%R with (Q2R 0) by apply RMicromega.Q2R_0.
          now apply Qle_Rle. }
        now apply Rmult_le_compat.
Qed.

Lemma exp_step_scaled : (2 ^ 20 * Q2R exp_step = 5 / 2)%R.
Proof.
  assert (E : (exp_step == 5 # 2097152)%Q) by reflexivity.
  rewrite (Qeq_eqR _ _ E). unfold Q2R. simpl. lra.
Qed.

Lemma exp_5_2_lower_bound : (Q2R (12182178 # 1000000) <= exp (5 / 2))%R.
Proof.
  apply Rle_trans with (Q2R exp_5_2_lower).
  - apply Qle_Rle, Qle_bool_iff. vm_compute. reflexivity.
  - rewrite <- exp_step_scaled. apply square_down_exp.
    + apply Qle_bool_iff. vm_compute. reflexivity.
    + rewrite Q2R_plus, RMicromega.Q2R_1. apply exp_ineq1_le.
Qed.

Lemma exp_5_2_upper_bound : (exp (5 / 2) <= Q2R (12183046 # 1000000))%R.
Proof.
  set (U := 12183046 # 1000000).
  assert (HP : (Q2R exp_m5_2_lower <= exp (- (5 / 2)))%R).
  { replace (- (5 / 2))%R with (2 ^ 20 * - Q2R exp_step)%R
      by (rewrite <- exp_step_scaled; ring).
    apply square_down_exp.
    - apply Qle_bool_iff. vm_compute. reflexivity.
    - unfold Qminus. rewrite Q2R_plus, Q2R_opp, RMicromega.Q2R_1.
      apply exp_ineq1_le. }
  assert (HU : (1 <= Q2R U * Q2R exp_m5_2_lower)%R).
  { rewrite <- Q2R_mult, <- RMicromega.Q2R_1.
    apply Qle_Rle, Qle_bool_iff. vm_compute. reflexivity. }
  assert (HU0 : (0 <= Q2R U)%R).
  { rewrite <- RMicromega.Q2R_0. apply Qle_Rle. discriminate. }
  pose proof (exp_pos (5 / 2)) as He.
  assert (Hinv : (exp (5 / 2) * exp (- (5 / 2)) = 1)%R).
  { rewrite <- exp_plus. replace (5 / 2 + - (5 / 2))%R with 0%R by ring.
    apply exp_0. }
  assert (H1 : (1 <= Q2R U * exp (- (5 / 2)))%R).
  { apply Rle_trans with (Q2R U * Q2R exp_m5_2_lower)%R; [exact HU|].
    now apply Rmult_le_compat_l. }
  replace (exp (5 / 2)) with (exp (5 / 2) * 1)%R by ring.
  apply Rle_trans with (exp (5 / 2) * (Q2R U * exp (- (5 / 2))))%R.
  - apply Rmult_le_compat_l; [lra | exact H1].
  - replace (exp (5 / 2) * (Q2R U * exp (- (5 / 2))))%R
      with (Q2R U * (exp (5 / 2) * exp (- (5 / 2))))%R by ring.
    rewrite Hinv. lra.
Qed.

(** ** A floor under every "dexes" score *)

Lemma Qsum_nonneg l : Forall (fun q => (0 <= q)%Q) l -> (0 <= Qsum l)%Q.
Proof.
  induction 1 as [|q l Hq _ IH]; simpl; lra.
Qed.

Lemma rows_nonneg txs df :
  forallb tx_amounts_nonneg txs = true ->
  Permutation (map row_of txs) df ->
  Forall row_amounts_nonneg df.
Proof.
  intros Hnn Hp. eapply Permutation_Forall; [exact Hp|].
  apply Forall_map, Forall_forall. intros tx Hin.
  rewrite forallb_forall in Hnn. specialize (Hnn tx Hin).
  unfold tx_amounts_nonneg in Hnn.
  apply andb_prop in Hnn as [Hnn H1]. apply andb_prop in Hnn as [_ H0].
  apply Qle_bool_iff in H0, H1. split; assumption.
Qed.

Lemma withdraw_total_nonneg now df :
  Forall row_amounts_nonneg df ->
  (0 <= total_withdraw_usd (_extract_dex_features now df))%Q.
Proof.
  intros H. unfold _extract_dex_features. cbn [total_withdraw_usd].
  assert (H0 : (0 <= Qsum (map token0_amount
                             (filter (isin withdraw_actions) df)))%Q).
  { apply Qsum_nonneg, Forall_map, Forall_forall. intros r Hr.
    apply filter_In in Hr as [Hr _].
    rewrite Forall_forall in H. apply (H r Hr). }
  assert (H1 : (0 <= Qsum (map token1_amount
                             (filter (isin withdraw_actions) df)))%Q).
  { apply Qsum_nonneg, Forall_map, Forall_forall. intros r Hr.
    apply filter_In in Hr as [Hr _].
    rewrite Forall_forall in H. apply (H r Hr). }
  lra.
Qed.

Lemma lp_score_nonneg f :
  (0 <= total_withdraw_usd f)%Q -> (0 <= _calculate_lp_score f)%Q.
Proof.
  intros Hw. rewrite lp_score_finite by exact Hw.
  apply py_min_nonneg; [|lra].
  pose proof (volume_bonus_nonneg (total_deposit_usd f)).
  pose proof (frequency_bonus_nonneg (num_deposits f)).
  pose proof (holding_bonus_nonneg (avg_hold_time_days f)).
  pose proof (pool_bonus_nonneg (unique_pools f)).
  pose proof (retention_amount_nonneg (total_deposit_usd f) _ Hw).
  lra.
Qed.

Lemma swap_score_nonneg f : (0 <= _calculate_swap_score f)%Q.
Proof.
  unfold _calculate_swap_score. apply py_min_nonneg; [|lra].
  pose proof (volume_bonus_nonneg (total_swap_volume f)).
  pose proof (frequency_bonus_nonneg (num_swaps f)).
  pose proof (size_bonus_nonneg (avg_transaction_size_usd f)).
  pose proof (pool_bonus_nonneg (unique_pools f)).
  lra.
Qed.

Lemma exp_le_mono x y : (x <= y)%R -> (exp x <= exp y)%R.
Proof.
  intros [H| ->]; [left; now apply exp_increasing | right; reflexivity].
Qed.

Lemma logistic_floor_bounds :
  (75855 / 1000 < logistic_floor <= 7586 / 100)%R.
Proof.
  pose proof exp_5_2_lower_bound as Hl.
  pose proof exp_5_2_upper_bound as Hu.
  unfold Q2R in Hl, Hu. simpl in Hl, Hu.
  set (e := exp (5 / 2)) in *.
  assert (He : (0 < 1 + e)%R) by lra.
  assert (E : (logistic_floor * (1 + e) = 1000)%R)
    by (unfold logistic_floor; fold e; field; lra).
  split; nra.
Qed.

Lemma normalize_score_floor s :
  (0 <= s)%Q -> (logistic_floor <= _normalize_score s)%R.
Proof.
  intros Hs. unfold _normalize_score. cbv zeta.
  assert (Hs' : (0 <= Q2R s)%R).
  { rewrite <- RMicromega.Q2R_0. now apply Qle_Rle. }
  set (a := (- (Q2R s - 500) / 200)%R).
  assert (Ha : (exp a <= exp (5 / 2))%R) by (apply exp_le_mono; subst a; lra).
  pose proof (exp_pos a) as Hpa. pose proof (exp_pos (5 / 2)) as Hp.
  assert (Hv : (logistic_floor <= 1000 / (1 + exp a))%R).
  { unfold logistic_floor, Rdiv.
    apply Rmult_le_compat_l; [lra|].
    apply Rinv_le_contravar; lra. }
  pose proof logistic_floor_bounds as [_ Hb].
  apply Rle_trans with (Rmin 1000 (1000 / (1 + exp a))); [|apply Rmax_r].
  apply Rmin_glb; lra.
Qed.

Lemma round_half_even_lower x k :
  (IZR k - 1 / 2 < x)%R -> k <= round_half_even x.
Proof.
  intros H. pose proof (Zfloor_bound x) as [Hf1 Hf2].
  destruct (round_half_even_cases x) as [[-> Hd]|[-> Hd]]; cbv zeta in Hd.
  - assert (IZR (k - 1) < IZR (Zfloor x))%R by (rewrite minus_IZR; lra).
    apply lt_IZR in H0. lia.
  - assert (IZR (k - 2) < IZR (Zfloor x))%R by (rewrite minus_IZR; lra).
    apply lt_IZR in H0. lia.
Qed.

Lemma py_round2_floor x :
  (logistic_floor <= x)%R -> (7586 # 100 <= py_round2 x)%Q.
Proof.
  intros H. pose proof logistic_floor_bounds as [Hb _].
  apply Qle_cents, round_half_even_lower. lra.
Qed.

(** C9. A "dexes" bucket with non-negative USD amounts that is scored gets
    a category score of at least 75.86, which is at least
    1000 / (1 + e^(5/2)): both raw scores are sums of non-negative bonuses,
    so the combined score is at least 0, and the logistic curve is
    increasing and maps 0 to 1000 / (1 + e^(5/2)). *)
Theorem dex_score_floor :
  forall (now : Z) (txs : list Transaction) (c : CategoryScore),
    forallb tx_amounts_nonneg txs = true ->
    _calculate_dex_score now txs = Ok c ->
    (1000 / (1 + exp (5 / 2)) <= Q2R (score c))%R
    /\ (7586 # 100 <= score c)%Q
    /\ (0 < score c)%Q.
Proof.
  intros now txs c Hnn Hc.
  assert (Hfloor : (7586 # 100 <= score c)%Q).
  { unfold _calculate_dex_score in Hc.
    destruct (_transactions_to_dataframe txs) as [df|e] eqn:Hdf;
      cbn [bind] in Hc; [|discriminate].
    injection Hc as <-. cbn [score].
    apply py_round2_floor, normalize_score_floor.
    destruct (transactions_to_dataframe_ok txs df Hdf) as [_ Hp].
    pose proof (withdraw_total_nonneg now df (rows_nonneg txs df Hnn Hp)) as Hw.
    pose proof (lp_score_nonneg _ Hw).
    pose proof (swap_score_nonneg (_extract_dex_features now df)).
    unfold lp_weight, swap_weight. lra. }
  split; [|split; [exact Hfloor | lra]].
  pose proof logistic_floor_bounds as [_ Hb]. unfold logistic_floor in Hb.
  apply Rle_trans with (Q2R (7586 # 100)).
  - unfold Q2R; simpl. lra.
  - now apply Qle_Rle.
Qed.

Lemma dex_score_floor_witness :
  forallb tx_amounts_nonneg scenario_A = true
  /\ _calculate_dex_score scenario_A_now scenario_A = Ok scenario_A_category
  /\ (7586 # 100 <= score scenario_A_category)%Q.
Proof.
  split; [reflexivity|]. split; [exact scenario_A_dex_score|].
  exact (proj1 (proj2 (dex_score_floor scenario_A_now scenario_A
                         scenario_A_category eq_refl scenario_A_dex_score))).
Defined.

Lemma normalize_score_upper s :
  (s <= 0)%Q ->
  (_normalize_score s <= 1000 / (1 + (1 + - (Q2R s - 500) / 200)))%R.
Proof.
  intros Hs. unfold _normalize_score. cbv zeta.
  assert (Hs' : (Q2R s <= 0)%R).
  { rewrite <- RMicromega.Q2R_0. now apply Qle_Rle. }
  set (a := (- (Q2R s - 500) / 200)%R).
  pose proof (exp_ineq1_le a) as Ha.
  assert (Hpos : (0 < 1 + (1 + a))%R) by (subst a; lra).
  assert (Hv : (1000 / (1 + exp a) <= 1000 / (1 + (1 + a)))%R).
  { unfold Rdiv. apply Rmult_le_compat_l; [lra|].
    apply Rinv_le_contravar; lra. }
  assert (H0 : (0 <= 1000 / (1 + (1 + a)))%R).
  { apply Rlt_le, Rdiv_lt_0_compat; lra. }
  apply Rmax_lub; [exact H0|].
  apply Rle_trans with (1000 / (1 + exp a))%R; [apply Rmin_r | exact Hv].
Qed.

(** Without the proviso on the amounts the floor fails: a deposit of -1 USD
    and a withdrawal of -100 USD make the retention bonus -9900, and the
    category score drops below 29.48. *)
Lemma negative_amounts_break_floor :
  forallb tx_amounts_nonneg negative_amount_bucket = false
  /\ exists c,
       _calculate_dex_score scenario_A_now negative_amount_bucket = Ok c
       /\ (score c <= 2948 # 100)%Q.
Proof.
  split; [reflexivity|].
  eexists. split.
  - unfold _calculate_dex_score.
    assert (Hd : _transactions_to_dataframe negative_amount_bucket
                 = Ok negative_amount_df) by reflexivity.
    rewrite Hd. cbn [bind]. reflexivity.
  - cbn [score].
    assert (Hc : (_calculate_lp_score
                    (_extract_dex_features scenario_A_now negative_amount_df)
                  * lp_weight
                  + _calculate_swap_score
                      (_extract_dex_features scenario_A_now negative_amount_df)
                    * swap_weight)%Q
                 = negative_amount_combined) by (vm_compute; reflexivity).
    rewrite Hc. rewrite <- (py_round2_cents 2948). apply py_round2_mono.
    eapply Rle_trans; [apply normalize_score_upper; discriminate|].
    unfold negative_amount_combined, Q2R. simpl.
    match goal with
    | |- (1000 / ?d <= _)%R => replace d with (33925 / 1000)%R by lra
    end.
    replace (1000 / (33925 / 1000))%R with (1000000 / 33925)%R by field.
    lra.
Qed.

(** ** Behaviour tags *)

Lemma get_user_tags_families f s :
  get_user_tags f s = (behaviour_tags f ++ [tier_tag s])%list.
Proof.
  unfold get_user_tags, behaviour_tags, lp_volume_tag, trader_volume_tag,
    holding_tag, frequent_lp_tag, frequent_trader_tag, tier_tag.
  destruct (Qge_bool (total_deposit_usd f) (volume_thresholds "whale"));
  [|destruct (Qge_bool (total_deposit_usd f) (volume_thresholds "high"))];
  (destruct (Qge_bool (total_swap_volume f) (volume_thresholds "whale"));
   [|destruct (Qge_bool (total_swap_volume f) (volume_thresholds "high"))]);
  (destruct (Qge_bool (avg_hold_time_days f) (holding_time_thresholds "hodl"));
   [|destruct (Qge_bool (avg_hold_time_days f)
                 (holding_time_thresholds "long"))]);
  destruct (frequency_thresholds "very_high" <=? num_deposits f);
  destruct (frequency_thresholds "very_high" <=? num_swaps f);
  destruct (Qge_bool s 800); try reflexivity;
  destruct (Qge_bool s 600); try reflexivity;
  destruct (Qge_bool s 400); reflexivity.
Qed.

Ltac family_cases f :=
  unfold behaviour_tags, lp_volume_tag, trader_volume_tag, holding_tag,
    frequent_lp_tag, frequent_trader_tag;
  destruct (Qge_bool (total_deposit_usd f) (volume_thresholds "whale"));
  [|destruct (Qge_bool (total_deposit_usd f) (volume_thresholds "high"))];
  (destruct (Qge_bool (total_swap_volume f) (volume_thresholds "whale"));
   [|destruct (Qge_bool (total_swap_volume f) (volume_thresholds "high"))]);
  (destruct (Qge_bool (avg_hold_time_days f) (holding_time_thresholds "hodl"));
   [|destruct (Qge_bool (avg_hold_time_days f)
                 (holding_time_thresholds "long"))]);
  destruct (frequency_thresholds "very_high" <=? num_deposits f);
  destruct (frequency_thresholds "very_high" <=? num_swaps f).

Lemma behaviour_tags_facts f :
  filter is_tier_tag (behaviour_tags f) = []
  /\ nodup string_dec (behaviour_tags f) = behaviour_tags f
  /\ (List.length (behaviour_tags f) <= 5)%nat
  /\ (str_in "Whale LP" (behaviour_tags f)
      && str_in "Large LP" (behaviour_tags f) = false)%bool
  /\ (str_in "Whale Trader" (behaviour_tags f)
      && str_in "Active Trader" (behaviour_tags f) = false)%bool
  /\ (str_in "HODLer" (behaviour_tags f)
      && str_in "Long-term LP" (behaviour_tags f) = false)%bool.
Proof.
  family_cases f; vm_compute; repeat split; lia.
Qed.

Lemma tier_tag_cases s :
  (tier_tag s = "Elite User" \/ tier_tag s = "Premium User"
   \/ tier_tag s = "Regular User" \/ tier_tag s = "New User")
  /\ String.eqb "Elite User" (tier_tag s) = Qge_bool s 800
  /\ String.eqb "Premium User" (tier_tag s)
     = (Qge_bool s 600 && negb (Qge_bool s 800))%bool
  /\ String.eqb "Regular User" (tier_tag s)
     = (Qge_bool s 400 && negb (Qge_bool s 600))%bool
  /\ String.eqb "New User" (tier_tag s) = negb (Qge_bool s 400).
Proof.
  assert (H86 : Qge_bool s 800 = true -> Qge_bool s 600 = true).
  { unfold Qge_bool. rewrite !Qle_bool_iff. lra. }
  assert (H64 : Qge_bool s 600 = true -> Qge_bool s 400 = true).
  { unfold Qge_bool. rewrite !Qle_bool_iff. lra. }
  unfold tier_tag.
  destruct (Qge_bool s 800).
  - rewrite H86, (H64 (H86 eq_refl)) by reflexivity. repeat split; auto.
  - destruct (Qge_bool s 600).
    + rewrite H64 by reflexivity. repeat split; auto.
    + destruct (Qge_bool s 400); repeat split; auto 6.
Qed.

Lemma str_in_app t l1 l2 :
  str_in t (l1 ++ l2) = (str_in t l1 || str_in t l2)%bool.
Proof. unfold str_in. apply existsb_app. Qed.

Lemma str_in_not_tier t l :
  is_tier_tag t = true -> filter is_tier_tag l = [] -> str_in t l = false.
Proof.
  intros Ht Hl. unfold str_in.
  destruct (existsb (String.eqb t) l) eqn:E; [|reflexivity].
  apply existsb_exists in E as (x & Hin & Hx).
  apply String.eqb_eq in Hx. subst x.
  assert (In t (filter is_tier_tag l)) by (apply filter_In; now split).
  rewrite Hl in H. destruct H.
Qed.

(** X1. Exactly one tag of the list comes from the overall score and it is
    the last one: "Elite User" from 800, "Premium User" from 600 up to 800,
    "Regular User" from 400 up to 600, "New User" below 400. *)
Theorem user_tags_one_tier_last :
  forall (f : CategoryFeatures) (s : Q),
    filter is_tier_tag (get_user_tags f s) = [ last (get_user_tags f s) "" ]
    /\ str_in "Elite User" (get_user_tags f s) = Qge_bool s 800
    /\ str_in "Premium User" (get_user_tags f s)
       = (Qge_bool s 600 && negb (Qge_bool s 800))%bool
    /\ str_in "Regular User" (get_user_tags f s)
       = (Qge_bool s 400 && negb (Qge_bool s 600))%bool
    /\ str_in "New User" (get_user_tags f s) = negb (Qge_bool s 400).
Proof.
  intros f s. rewrite get_user_tags_families.
  destruct (behaviour_tags_facts f) as (Hnt & _).
  destruct (tier_tag_cases s) as (Hc & He & Hp & Hr & Hn).
  rewrite last_last, filter_app, Hnt, !str_in_app.
  rewrite (str_in_not_tier "Elite User" _ eq_refl Hnt),
    (str_in_not_tier "Premium User" _ eq_refl Hnt),
    (str_in_not_tier "Regular User" _ eq_refl Hnt),
    (str_in_not_tier "New User" _ eq_refl Hnt).
  unfold str_in. cbn [existsb orb app filter].
  rewrite He, Hp, Hr, Hn, !orb_false_r.
  split; [|repeat split].
  destruct Hc as [-> | [-> | [-> | ->]]]; reflexivity.
Qed.

(** X2. No tag is listed twice, a tag list has between one and six tags,
    and the two tags of one family (Whale LP / Large LP, Whale Trader /
    Active Trader, HODLer / Long-term LP) never appear together. *)
Theorem user_tags_distinct :
  forall (f : CategoryFeatures) (s : Q),
    NoDup (get_user_tags f s)
    /\ (1 <= List.length (get_user_tags f s) <= 6)%nat
    /\ (str_in "Whale LP" (get_user_tags f s)
        && str_in "Large LP" (get_user_tags f s) = false)%bool
    /\ (str_in "Whale Trader" (get_user_tags f s)
        && str_in "Active Trader" (get_user_tags f s) = false)%bool
    /\ (str_in "HODLer" (get_user_tags f s)
        && str_in "Long-term LP" (get_user_tags f s) = false)%bool.
Proof.
  intros f s. rewrite get_user_tags_families.
  destruct (behaviour_tags_facts f) as (Hnt & Hnd & Hlen & H1 & H2 & H3).
  destruct (tier_tag_cases s) as (Hc & _).
  assert (Htier : is_tier_tag (tier_tag s) = true)
    by (destruct Hc as [-> | [-> | [-> | ->]]]; reflexivity).
  split; [|split; [|split; [|split]]].
  - apply NoDup_app.
    + rewrite <- Hnd. apply NoDup_nodup.
    + repeat constructor. intros [].
    + intros x Hx [E | []]. subst x.
      assert (In (tier_tag s) (filter is_tier_tag (behaviour_tags f)))
        by (apply filter_In; now split).
      rewrite Hnt in H. destruct H.
  - rewrite length_app. cbn [List.length]. lia.
  - rewrite !str_in_app.
    destruct Hc as [-> | [-> | [-> | ->]]];
      cbn [str_in existsb String.eqb Ascii.eqb Bool.eqb orb andb];
      rewrite !orb_false_r; exact H1.
  - rewrite !str_in_app.
    destruct Hc as [-> | [-> | [-> | ->]]];
      cbn [str_in existsb String.eqb Ascii.eqb Bool.eqb orb andb];
      rewrite !orb_false_r; exact H2.
  - rewrite !str_in_app.
    destruct Hc as [-> | [-> | [-> | ->]]];
      cbn [str_in existsb String.eqb Ascii.eqb Bool.eqb orb andb];
      rewrite !orb_false_r; exact H3.
Qed.

(** ** Bounds on the raw scores *)

Lemma frequency_bonus_le_200 n : (frequency_bonus n <= 200)%Q.
Proof.
  unfold_thresholds.
  repeat match goal with |- context [?a <=? ?b] => destruct (a <=? b) end; lra.
Qed.

Lemma holding_bonus_le_200 d : (holding_bonus d <= 200)%Q.
Proof. unfold_thresholds. q_cases; lra. Qed.

Lemma pool_bonus_le_100 p : (pool_bonus p <= 100)%Q.
Proof.
  unfold pool_bonus.
  repeat match goal with |- context [?a <=? ?b] => destruct (a <=? b) end; lra.
Qed.

Lemma size_bonus_le_100 a : (size_bonus a <= 100)%Q.
Proof. unfold_thresholds. simpl negb. q_cases; simpl; lra. Qed.

Lemma retention_amount_le_100 d w :
  (0 <= w)%Q -> (retention_amount d w <= 100)%Q.
Proof.
  intros Hw. unfold retention_amount, Qgt_bool. q_cases; simpl; try lra.
  assert ((d - w) / d <= 1)%Q by (apply Qle_shift_div_r; lra).
  lra.
Qed.

Lemma py_min_id a c : (a <= c)%Q -> py_min a c = a.
Proof.
  intros H. unfold py_min, Qgt_bool.
  apply Qle_bool_iff in H. now rewrite H.
Qed.

Lemma swap_score_le_700 f : (_calculate_swap_score f <= 700)%Q.
Proof.
  unfold _calculate_swap_score.
  pose proof (volume_bonus_le_300 (total_swap_volume f)).
  pose proof (frequency_bonus_le_200 (num_swaps f)).
  pose proof (size_bonus_le_100 (avg_transaction_size_usd f)).
  pose proof (pool_bonus_le_100 (unique_pools f)).
  rewrite py_min_id; lra.
Qed.

(** X3. The swap score is between 0 and 700 for every feature vector: the
    four bonuses add up to at most 300 + 200 + 100 + 100, so the cap at
    1000 never changes it. *)
Theorem swap_score_bounds :
  forall f : CategoryFeatures,
    (0 <= _calculate_swap_score f <= 700)%Q
    /\ _calculate_swap_score f
       = (0 + volume_bonus (total_swap_volume f)
          + frequency_bonus (num_swaps f)
          + size_bonus (avg_transaction_size_usd f)
          + pool_bonus (unique_pools f))%Q.
Proof.
  intros f.
  pose proof (volume_bonus_nonneg (total_swap_volume f)).
  pose proof (volume_bonus_le_300 (total_swap_volume f)).
  pose proof (frequency_bonus_nonneg (num_swaps f)).
  pose proof (frequency_bonus_le_200 (num_swaps f)).
  pose proof (size_bonus_nonneg (avg_transaction_size_usd f)).
  pose proof (size_bonus_le_100 (avg_transaction_size_usd f)).
  pose proof (pool_bonus_nonneg (unique_pools f)).
  pose proof (pool_bonus_le_100 (unique_pools f)).
  assert (E : _calculate_swap_score f
              = (0 + volume_bonus (total_swap_volume f)
                 + frequency_bonus (num_swaps f)
                 + size_bonus (avg_transaction_size_usd f)
                 + pool_bonus (unique_pools f))%Q).
  { unfold _calculate_swap_score. apply py_min_id. lra. }
  split; [rewrite E; lra | exact E].
Qed.

Lemma lp_score_le_900 f :
  (0 <= total_withdraw_usd f)%Q -> (_calculate_lp_score f <= 900)%Q.
Proof.
  intros Hw. rewrite lp_score_finite by exact Hw.
  pose proof (volume_bonus_le_300 (total_deposit_usd f)).
  pose proof (frequency_bonus_le_200 (num_deposits f)).
  pose proof (holding_bonus_le_200 (avg_hold_time_days f)).
  pose proof (pool_bonus_le_100 (unique_pools f)).
  pose proof (retention_amount_le_100 (total_deposit_usd f) _ Hw).
  rewrite py_min_id; lra.
Qed.

(** X4. For a withdrawal total that is not negative and a finite deposit
    total the LP score lies between 0 and 900: volume, frequency, holding
    time and pool bonuses give at most 800 and the retention bonus at most
    100, so the cap at 1000 is not reached.  (An infinite deposit total
    makes the retention ratio NaN, hence the bound on the total.) *)
Theorem lp_score_bounds :
  forall f : CategoryFeatures,
    (0 <= total_withdraw_usd f)%Q ->
    (total_deposit_usd f <= finite_total)%Q ->
    (0 <= _calculate_lp_score f <= 900)%Q.
Proof.
  intros f Hw _. split.
  - now apply lp_score_nonneg.
  - now apply lp_score_le_900.
Qed.

Lemma lp_score_bounds_witness :
  (0 <= total_withdraw_usd scenario_A_features)%Q
  /\ (total_deposit_usd scenario_A_features <= finite_total)%Q
  /\ (0 <= _calculate_lp_score scenario_A_features <= 900)%Q.
Proof.
  assert (H : (0 <= total_withdraw_usd scenario_A_features)%Q)
    by (apply Qle_bool_iff; reflexivity).
  assert (Hb : (total_deposit_usd scenario_A_features <= finite_total)%Q)
    by (apply Qle_bool_iff; vm_compute; reflexivity).
  split; [exact H|]. split; [exact Hb|].
  exact (lp_score_bounds scenario_A_features H Hb).
Defined.

Lemma lp_score_le_1000 f : (_calculate_lp_score f <= 1000)%Q.
Proof.
  unfold _calculate_lp_score.
  destruct (retention_bonus _ _); [apply py_min_le_r | lra].
Qed.

(** ** The logistic curve *)

Lemma logistic_mono a b :
  (a <= b)%R ->
  (1000 / (1 + exp (- (a - 500) / 200))
   <= 1000 / (1 + exp (- (b - 500) / 200)))%R.
Proof.
  intros H.
  pose proof (exp_pos (- (a - 500) / 200)).
  pose proof (exp_pos (- (b - 500) / 200)).
  assert (exp (- (b - 500) / 200) <= exp (- (a - 500) / 200))%R
    by (apply exp_le_mono; lra).
  unfold Rdiv at 1 3. apply Rmult_le_compat_l; [lra|].
  apply Rinv_le_contravar; lra.
Qed.

Lemma normalize_score_mono s s' :
  (s <= s')%Q -> (_normalize_score s <= _normalize_score s')%R.
Proof.
  intros H. apply Qle_Rle in H. unfold _normalize_score. cbv zeta.
  apply Rle_max_compat_l, Rle_min_compat_l, logistic_mono, H.
Qed.

Lemma normalize_score_midpoint : _normalize_score 500 = 500%R.
Proof.
  unfold _normalize_score. cbv zeta.
  replace (Q2R 500) with 500%R by (unfold Q2R; simpl; lra).
  replace (- (500 - 500) / 200)%R with 0%R by lra.
  rewrite exp_0.
  replace (1000 / (1 + 1))%R with 500%R by lra.
  rewrite Rmin_right by lra. apply Rmax_right. lra.
Qed.

(** X5. Normalisation preserves order: a larger raw score never gives a
    smaller normalised score, nor a smaller rounded category score; a raw
    score of 500 is normalised to exactly 500. *)
Theorem normalize_score_monotone :
  forall s s' : Q,
    (s <= s')%Q ->
    (_normalize_score s <= _normalize_score s')%R
    /\ (py_round2 (_normalize_score s) <= py_round2 (_normalize_score s'))%Q
    /\ _normalize_score 500 = 500%R
    /\ (py_round2 (_normalize_score 500) == 500)%Q.
Proof.
  intros s s' H.
  pose proof (normalize_score_mono s s' H) as Hm.
  split; [exact Hm|]. split; [now apply py_round2_mono|].
  split; [exact normalize_score_midpoint|].
  rewrite normalize_score_midpoint.
  replace 500%R with (IZR 50000 / 100)%R by lra.
  rewrite py_round2_cents. reflexivity.
Qed.

Lemma normalize_score_monotone_witness :
  (325 <= 820)%Q
  /\ (_normalize_score 325 <= _normalize_score 820)%R.
Proof.
  assert (H : (325 <= 820)%Q) by (apply Qle_bool_iff; reflexivity).
  split; [exact H | exact (proj1 (normalize_score_monotone 325 820 H))].
Defined.

(** ** A ceiling over every "dexes" score *)

Lemma exp_step_8_5_scaled : (2 ^ 20 * - Q2R exp_step_8_5 = - (8 / 5))%R.
Proof.
  assert (E : (exp_step_8_5 == 8 # 5242880)%Q) by reflexivity.
  rewrite (Qeq_eqR _ _ E). unfold Q2R. simpl. lra.
Qed.

Lemma exp_m8_5_lower_bound : (Q2R (2018870 # 10000000) <= exp (- (8 / 5)))%R.
Proof.
  apply Rle_trans with (Q2R exp_m8_5_lower).
  - apply Qle_Rle, Qle_bool_iff. vm_compute. reflexivity.
  - rewrite <- exp_step_8_5_scaled. apply square_down_exp.
    + apply Qle_bool_iff. vm_compute. reflexivity.
    + unfold Qminus. rewrite Q2R_plus, Q2R_opp, RMicromega.Q2R_1.
      apply exp_ineq1_le.
Qed.

Lemma round_half_even_upper x k :
  (x < IZR k + 1 / 2)%R -> round_half_even x <= k.
Proof.
  intros H. pose proof (Zfloor_bound x) as [Hf1 Hf2].
  destruct (round_half_even_cases x) as [[-> Hd]|[-> Hd]]; cbv zeta in Hd.
  - assert (IZR (Zfloor x) < IZR (k + 1))%R by (rewrite plus_IZR; lra).
    apply lt_IZR in H0. lia.
  - assert (IZR (Zfloor x) < IZR k)%R by lra.
    apply lt_IZR in H0. lia.
Qed.

Lemma normalize_score_ceiling s :
  (s <= 820)%Q -> (_normalize_score s < 832025 / 1000)%R.
Proof.
  intros Hs.
  apply Rle_lt_trans with (_normalize_score 820);
    [now apply normalize_score_mono|].
  unfold _normalize_score. cbv zeta.
  replace (Q2R 820) with 820%R by (unfold Q2R; simpl; lra).
  replace (- (820 - 500) / 200)%R with (- (8 / 5))%R by lra.
  pose proof exp_m8_5_lower_bound as Hl. unfold Q2R in Hl. simpl in Hl.
  set (e := exp (- (8 / 5))) in *.
  assert (He : (0 < 1 + e)%R) by lra.
  assert (E : (1000 / (1 + e) * (1 + e) = 1000)%R) by (field; lra).
  assert (Hv : (1000 / (1 + e) < 832025 / 1000)%R) by nra.
  apply Rmax_lub_lt; [lra|].
  apply Rle_lt_trans with (1000 / (1 + e))%R; [apply Rmin_r | exact Hv].
Qed.

(** X6. A scored "dexes" bucket with non-negative USD amounts and a
    finite deposit total (at most 10^300) gets a category score of at most
    832.02: the combined raw score is at most 0.6 * 900 + 0.4 * 700 = 820
    and the curve maps 820 below 832.025.  (A deposit total that overflows
    to infinity makes the LP score NaN, which the clamp turns into 1000.) *)
Theorem dex_score_ceiling :
  forall (now : Z) (txs : list Transaction) (c : CategoryScore),
    forallb tx_amounts_nonneg txs = true ->
    _calculate_dex_score now txs = Ok c ->
    (total_deposit_usd (features c) <= finite_total)%Q ->
    (score c <= 83202 # 100)%Q.
Proof.
  intros now txs c Hnn Hc _.
  unfold _calculate_dex_score in Hc.
  destruct (_transactions_to_dataframe txs) as [df|e] eqn:Hdf;
    cbn [bind] in Hc; [|discriminate].
  injection Hc as <-. cbn [score].
  destruct (transactions_to_dataframe_ok txs df Hdf) as [_ Hp].
  pose proof (withdraw_total_nonneg now df (rows_nonneg txs df Hnn Hp)) as Hw.
  pose proof (lp_score_le_900 _ Hw) as Hlp.
  pose proof (swap_score_le_700 (_extract_dex_features now df)) as Hsw.
  apply Qle_cents, round_half_even_upper.
  assert (Hn := normalize_score_ceiling
                  (_calculate_lp_score (_extract_dex_features now df) * lp_weight
                   + _calculate_swap_score (_extract_dex_features now df)
                     * swap_weight)%Q).
  assert (Hle : (_calculate_lp_score (_extract_dex_features now df) * lp_weight
                 + _calculate_swap_score (_extract_dex_features now df)
                   * swap_weight <= 820)%Q)
    by (unfold lp_weight, swap_weight; lra).
  specialize (Hn Hle). lra.
Qed.

Lemma dex_score_ceiling_witness :
  forallb tx_amounts_nonneg scenario_A = true
  /\ _calculate_dex_score scenario_A_now scenario_A = Ok scenario_A_category
  /\ (total_deposit_usd (features scenario_A_category) <= finite_total)%Q
  /\ (score scenario_A_category <= 83202 # 100)%Q.
Proof.
  assert (Hb : (total_deposit_usd (features scenario_A_category)
                <= finite_total)%Q)
    by (apply Qle_bool_iff; vm_compute; reflexivity).
  split; [reflexivity|]. split; [exact scenario_A_dex_score|].
  split; [exact Hb|].
  exact (dex_score_ceiling scenario_A_now scenario_A scenario_A_category
           eq_refl scenario_A_dex_score Hb).
Defined.

(** ** Counts and sanity of the extracted features *)

Lemma isin_withdraw_row tx :
  isin withdraw_actions (row_of tx) = tx_is_withdraw tx.
Proof.
  unfold isin, tx_is_withdraw, str_in, withdraw_actions; simpl.
  now rewrite orb_false_r.
Qed.

Lemma extract_num_withdraws now txs df :
  _transactions_to_dataframe txs = Ok df ->
  num_withdraws (_extract_dex_features now df) = count_where tx_is_withdraw txs.
Proof.
  intros Hdf. pose proof (dataframe_rows_perm txs df Hdf) as Hperm.
  unfold _extract_dex_features, count_where, df_len; simpl.
  rewrite <- (Permutation_length
                (filter_perm (isin withdraw_actions) _ _ Hperm)).
  rewrite (filter_map_rows _ _ txs isin_withdraw_row). now rewrite length_map.
Qed.

Lemma valid_action_kind tx :
  action_is_valid tx = true ->
  (Nat.b2n (tx_is_deposit tx) + Nat.b2n (tx_is_swap tx)
   + Nat.b2n (tx_is_withdraw tx) = 1)%nat.
Proof.
  unfold action_is_valid, str_in, valid_actions, tx_is_deposit, tx_is_swap,
    tx_is_withdraw. cbn [existsb].
  rewrite orb_false_r, !orb_true_iff, !String.eqb_eq.
  intros [E | [E | [E | [E | E]]]]; rewrite E; reflexivity.
Qed.

Lemma count_filter_b2n {A} (p : A -> bool) l :
  List.length (filter p l) = list_sum (map (fun a => Nat.b2n (p a)) l).
Proof.
  induction l as [|a l IH]; simpl; [reflexivity|].
  destruct (p a); simpl; now rewrite IH.
Qed.

Lemma valid_actions_partition txs :
  forallb action_is_valid txs = true ->
  (List.length (filter tx_is_deposit txs) + List.length (filter tx_is_swap txs)
   + List.length (filter tx_is_withdraw txs) = List.length txs)%nat.
Proof.
  rewrite !count_filter_b2n.
  induction txs as [|tx txs IH];
    cbn [forallb map list_sum fold_right List.length]; [reflexivity|].
  intros H. apply andb_prop in H as [Hv Hr].
  pose proof (valid_action_kind tx Hv). specialize (IH Hr).
  unfold list_sum in IH. lia.
Qed.

(** X7. For a bucket of transactions with valid actions whose table is
    built, every transaction is counted in exactly one of the three
    counters: num_deposits + num_swaps + num_withdraws is the number of
    transactions. *)
Theorem feature_counts_partition :
  forall (now : Z) (txs : list Transaction) (df : DataFrame),
    forallb action_is_valid txs = true ->
    _transactions_to_dataframe txs = Ok df ->
    num_deposits (_extract_dex_features now df)
    + num_swaps (_extract_dex_features now df)
    + num_withdraws (_extract_dex_features now df)
    = Z.of_nat (List.length txs).
Proof.
  intros now txs df Hv Hdf.
  rewrite (extract_num_deposits now txs df Hdf),
    (extract_num_swaps now txs df Hdf), (extract_num_withdraws now txs df Hdf).
  unfold count_where. pose proof (valid_actions_partition txs Hv). lia.
Qed.

Lemma feature_counts_partition_witness :
  forallb action_is_valid scenario_A = true
  /\ _transactions_to_dataframe scenario_A = Ok scenario_A_df
  /\ num_deposits (_extract_dex_features scenario_A_now scenario_A_df)
     + num_swaps (_extract_dex_features scenario_A_now scenario_A_df)
     + num_withdraws (_extract_dex_features scenario_A_now scenario_A_df)
     = 2.
Proof.
  split; [reflexivity|]. split; [exact scenario_A_dataframe|].
  exact (feature_counts_partition scenario_A_now scenario_A scenario_A_df
           eq_refl scenario_A_dataframe).
Defined.

Lemma nodup_length_le (l : list string) :
  (List.length (nodup string_dec l) <= List.length l)%nat.
Proof.
  induction l as [|a l IH]; simpl; [lia|].
  destruct (in_dec string_dec a l); simpl; lia.
Qed.

Lemma nodup_length_pos (a : string) l :
  (1 <= List.length (nodup string_dec (a :: l)))%nat.
Proof.
  assert (In a (nodup string_dec (a :: l))) by (apply nodup_In; now left).
  destruct (nodup string_dec (a :: l)); [destruct H | simpl; lia].
Qed.

Lemma row_action_classes r :
  (if isin deposit_actions r then 1 else 0)
  + (if is_swap r then 1 else 0)
  + (if isin withdraw_actions r then 1 else 0) <= 1.
Proof.
  unfold isin, is_swap, str_in, deposit_actions, withdraw_actions.
  cbn [existsb orb].
  repeat match goal with
         | |- context [String.eqb ?a ?b] => destruct (String.eqb_spec a b)
         end; cbn [orb]; try lia; congruence.
Qed.

(** X8. For a bucket whose table is built, the number of unique pools is
    at least 1 and at most the number of transactions, the counts of
    deposits, swaps and withdrawals are not negative and add up to at most
    the number of transactions, and the transaction frequency is not
    negative. *)
Theorem feature_sanity :
  forall (now : Z) (txs : list Transaction) (df : DataFrame),
    _transactions_to_dataframe txs = Ok df ->
    let f := _extract_dex_features now df in
    1 <= unique_pools f <= Z.of_nat (List.length txs)
    /\ 0 <= num_deposits f /\ 0 <= num_swaps f /\ 0 <= num_withdraws f
    /\ num_deposits f + num_swaps f + num_withdraws f
       <= Z.of_nat (List.length txs)
    /\ (0 <= transaction_frequency_days f)%Q.
Proof.
  intros now txs df Hdf f.
  destruct (transactions_to_dataframe_ok txs df Hdf) as [Hne Hperm].
  assert (Hlen : List.length df = List.length txs).
  { rewrite <- (Permutation_length Hperm). apply length_map. }
  split; [|split; [|split; [|split; [|split]]]].
  - subst f. rewrite (extract_unique_pools now txs df Hdf).
    unfold distinct_pools_spec.
    pose proof (nodup_length_le (map poolId txs)) as Hle.
    rewrite length_map in Hle.
    destruct txs as [|tx txs]; [contradiction|].
    pose proof (nodup_length_pos (poolId tx) (map poolId txs)).
    cbn [map] in *. lia.
  - subst f. unfold _extract_dex_features, df_len. cbn [num_deposits]. lia.
  - subst f. unfold _extract_dex_features, df_len. cbn [num_swaps]. lia.
  - subst f. unfold _extract_dex_features, df_len. cbn [num_withdraws]. lia.
  - subst f. unfold _extract_dex_features, df_len.
    cbn [num_deposits num_swaps num_withdraws]. rewrite <- Hlen.
    clear. induction df as [|r df IH]; cbn [filter List.length]; [lia|].
    pose proof (row_action_classes r) as Hc.
    destruct (isin deposit_actions r), (is_swap r), (isin withdraw_actions r);
      cbn [List.length]; lia.
  - subst f. unfold _extract_dex_features. cbn [transaction_frequency_days].
    destruct (1 <? df_len df) eqn:H1; [|lra].
    destruct (0 <? days_between _ _) eqn:H2; [|lra].
    apply Z.ltb_lt in H1, H2.
    apply Qdiv_nonneg.
    + rewrite <- (Zle_Qle 0). lia.
    + rewrite <- (Zlt_Qlt 0). lia.
Qed.

Lemma feature_sanity_witness :
  _transactions_to_dataframe scenario_A = Ok scenario_A_df
  /\ 1 <= unique_pools (_extract_dex_features scenario_A_now scenario_A_df)
       <= 2.
Proof.
  split; [exact scenario_A_dataframe|].
  exact (proj1 (feature_sanity scenario_A_now scenario_A scenario_A_df
                  scenario_A_dataframe)).
Defined.

(** ** The order of the transactions does not matter *)

Lemma mapM_make_row_in_range txs : forall rows,
  mapM make_row txs = Ok rows -> forallb timestamp_in_range txs = true.
Proof.
  induction txs as [|tx txs IH]; cbn [mapM forallb]; intros rows H;
    [reflexivity|].
  unfold make_row at 1, datetime_fromtimestamp in H.
  unfold timestamp_in_range at 1.
  destruct ((MIN_TIMESTAMP <=? timestamp tx) && (timestamp tx <=? MAX_TIMESTAMP));
    cbn [bind] in H; [|discriminate].
  destruct (mapM make_row txs) as [rs|e]; cbn [bind] in H; [|discriminate].
  now rewrite (IH rs eq_refl).
Qed.

Lemma forallb_perm {A} (p : A -> bool) l l' :
  Permutation l l' -> forallb p l = true -> forallb p l' = true.
Proof.
  intros Hp. rewrite !forallb_forall. intros H x Hx.
  apply H. now apply (Permutation_in x (Permutation_sym Hp)).
Qed.

Lemma transactions_to_dataframe_perm txs txs' df :
  Permutation txs txs' ->
  _transactions_to_dataframe txs = Ok df ->
  exists df', _transactions_to_dataframe txs' = Ok df' /\ Permutation df df'.
Proof.
  intros Hp Hdf.
  destruct (transactions_to_dataframe_ok txs df Hdf) as [Hne Hrows].
  unfold _transactions_to_dataframe in *.
  destruct (mapM make_row txs) as [rows|e] eqn:Hm; cbn [bind] in Hdf;
    [|discriminate].
  apply mapM_make_row_in_range in Hm.
  rewrite (mapM_make_row_total txs' (forallb_perm _ _ _ Hp Hm)). cbn [bind].
  destruct txs' as [|tx' txs'].
  - apply Permutation_sym, Permutation_nil in Hp. contradiction.
  - cbn [map sort_values_timestamp]. eexists. split; [reflexivity|].
    rewrite <- Hrows.
    rewrite <- (sort_rows_perm (row_of tx' :: map row_of txs')).
    apply (Permutation_map row_of Hp).
Qed.

Lemma fold_left_max_spec t : forall h,
  (fold_left Z.max t h = h \/ In (fold_left Z.max t h) t)
  /\ h <= fold_left Z.max t h
  /\ Forall (fun x => x <= fold_left Z.max t h) t.
Proof.
  induction t as [|a t IH]; intros h; cbn [fold_left].
  - repeat split; [now left | lia | constructor].
  - destruct (IH (Z.max h a)) as (Hin & Hle & Hall).
    split; [|split].
    + destruct Hin as [E | Hin]; [|right; now right].
      rewrite E. destruct (Z.max_spec h a) as [[_ ->] | [_ ->]];
        [right; now left | now left].
    + lia.
    + constructor; [lia | exact Hall].
Qed.

Lemma fold_left_min_spec t : forall h,
  (fold_left Z.min t h = h \/ In (fold_left Z.min t h) t)
  /\ fold_left Z.min t h <= h
  /\ Forall (fun x => fold_left Z.min t h <= x) t.
Proof.
  induction t as [|a t IH]; intros h; cbn [fold_left].
  - repeat split; [now left | lia | constructor].
  - destruct (IH (Z.min h a)) as (Hin & Hle & Hall).
    split; [|split].
    + destruct Hin as [E | Hin]; [|right; now right].
      rewrite E. destruct (Z.min_spec h a) as [[_ ->] | [_ ->]];
        [now left | right; now left].
    + lia.
    + constructor; [lia | exact Hall].
Qed.

Lemma list_max_spec a l :
  In (list_max (a :: l)) (a :: l)
  /\ Forall (fun x => x <= list_max (a :: l)) (a :: l).
Proof.
  unfold list_max. destruct (fold_left_max_spec l a) as (Hin & Hle & Hall).
  split; [destruct Hin as [-> | Hin]; [now left | now right]|].
  constructor; assumption.
Qed.

Lemma list_min_spec a l :
  In (list_min (a :: l)) (a :: l)
  /\ Forall (fun x => list_min (a :: l) <= x) (a :: l).
Proof.
  unfold list_min. destruct (fold_left_min_spec l a) as (Hin & Hle & Hall).
  split; [destruct Hin as [-> | Hin]; [now left | now right]|].
  constructor; assumption.
Qed.

Lemma list_max_perm l l' : Permutation l l' -> list_max l = list_max l'.
Proof.
  intros Hp. destruct l as [|a l], l' as [|b l'].
  - reflexivity.
  - apply Permutation_nil in Hp. discriminate.
  - apply Permutation_sym, Permutation_nil in Hp. discriminate.
  - destruct (list_max_spec a l) as [Hin Hall].
    destruct (list_max_spec b l') as [Hin' Hall'].
    rewrite Forall_forall in Hall, Hall'.
    pose proof (Hall _ (Permutation_in _ (Permutation_sym Hp) Hin')).
    pose proof (Hall' _ (Permutation_in _ Hp Hin)). lia.
Qed.

Lemma list_min_perm l l' : Permutation l l' -> list_min l = list_min l'.
Proof.
  intros Hp. destruct l as [|a l], l' as [|b l'].
  - reflexivity.
  - apply Permutation_nil in Hp. discriminate.
  - apply Permutation_sym, Permutation_nil in Hp. discriminate.
  - destruct (list_min_spec a l) as [Hin Hall].
    destruct (list_min_spec b l') as [Hin' Hall'].
    rewrite Forall_forall in Hall, Hall'.
    pose proof (Hall _ (Permutation_in _ (Permutation_sym Hp) Hin')).
    pose proof (Hall' _ (Permutation_in _ Hp Hin)). lia.
Qed.

Lemma Qsum_col_perm (col : Row -> Q) (p : Row -> bool) df df' :
  Permutation df df' ->
  (Qsum (map col (filter p df)) == Qsum (map col (filter p df')))%Q.
Proof.
  intros Hp. apply Qsum_perm, Permutation_map, filter_perm, Hp.
Qed.

Lemma count_col_perm (p : Row -> bool) df df' :
  Permutation df df' -> df_len (filter p df) = df_len (filter p df').
Proof.
  intros Hp. unfold df_len.
  now rewrite (Permutation_length (filter_perm p _ _ Hp)).
Qed.

Lemma extract_features_perm now df df' :
  Permutation df df' ->
  features_eq (_extract_dex_features now df) (_extract_dex_features now df').
Proof.
  intros Hp.
  assert (Hlen : df_len df = df_len df')
    by (unfold df_len; now rewrite (Permutation_length Hp)).
  pose proof (Qsum_col_perm token0_amount (isin deposit_actions) _ _ Hp) as Hd0.
  pose proof (Qsum_col_perm token1_amount (isin deposit_actions) _ _ Hp) as Hd1.
  pose proof (Qsum_col_perm token0_amount (isin withdraw_actions) _ _ Hp) as Hw0.
  pose proof (Qsum_col_perm token1_amount (isin withdraw_actions) _ _ Hp) as Hw1.
  pose proof (Qsum_col_perm token_in_amount is_swap _ _ Hp) as Hs.
  pose proof (count_col_perm (isin deposit_actions) _ _ Hp) as Hnd.
  pose proof (count_col_perm is_swap _ _ Hp) as Hns.
  pose proof (count_col_perm (isin withdraw_actions) _ _ Hp) as Hnw.
  unfold features_eq, _extract_dex_features.
  cbn [total_deposit_usd total_swap_volume num_deposits num_swaps
       avg_hold_time_days unique_pools total_withdraw_usd num_withdraws
       avg_transaction_size_usd transaction_frequency_days].
  rewrite <- Hlen, <- Hnd.
  rewrite <- (list_max_perm _ _ (Permutation_map datetime Hp)).
  rewrite <- (list_min_perm _ _ (Permutation_map datetime Hp)).
  refine (conj _ (conj _ (conj _ (conj _ (conj _ (conj _ (conj _ (conj _
            (conj _ _))))))))).
  - now rewrite Hd0, Hd1.
  - exact Hs.
  - reflexivity.
  - exact Hns.
  - destruct (0 <? df_len (filter (isin deposit_actions) df));
      [|reflexivity].
    rewrite !length_map.
    rewrite <- (Permutation_length
                  (filter_perm (isin deposit_actions) _ _ Hp)).
    destruct (0 <? Z.of_nat (List.length (filter (isin deposit_actions) df)));
      [|reflexivity].
    apply Qdiv_comp; [|reflexivity].
    apply Qsum_perm. rewrite !map_map.
    apply Permutation_map, filter_perm, Hp.
  - unfold nunique.
    now rewrite (nodup_length_perm _ _ (Permutation_map row_poolId Hp)).
  - now rewrite Hw0, Hw1.
  - exact Hnw.
  - destruct (0 <? df_len df); [|reflexivity].
    apply Qdiv_comp; [|reflexivity]. now rewrite Hd0, Hd1, Hs, Hw0, Hw1.
  - reflexivity.
Qed.

(** X9. Listing the transactions of a "dexes" bucket in another order
    changes neither whether the bucket is scored nor what is counted: the
    reordered bucket is scored too, with the same transaction count, the
    same numbers of deposits, swaps and withdrawals, the same number of
    unique pools and the same transaction frequency.  (The USD totals are
    sums taken in row order; they are left out, since binary64 sums depend
    on that order.) *)
Theorem reordering_keeps_counts :
  forall (now : Z) (txs txs' : list Transaction) (c : CategoryScore),
    Permutation txs txs' ->
    _calculate_dex_score now txs = Ok c ->
    exists c',
      _calculate_dex_score now txs' = Ok c'
      /\ transaction_count c' = transaction_count c
      /\ category c' = category c
      /\ num_deposits (features c') = num_deposits (features c)
      /\ num_swaps (features c') = num_swaps (features c)
      /\ num_withdraws (features c') = num_withdraws (features c)
      /\ unique_pools (features c') = unique_pools (features c)
      /\ (transaction_frequency_days (features c')
          == transaction_frequency_days (features c))%Q.
Proof.
  intros now txs txs' c Hp Hc. unfold _calculate_dex_score in *.
  destruct (_transactions_to_dataframe txs) as [df|e] eqn:Hdf;
    cbn [bind] in Hc; [|discriminate].
  destruct (transactions_to_dataframe_perm txs txs' df Hp Hdf)
    as (df' & -> & Hperm).
  cbn [bind]. eexists. split; [reflexivity|].
  injection Hc as <-.
  destruct (extract_features_perm now df df' Hperm)
    as (_ & _ & Hnd & Hns & _ & Hu & _ & Hnw & _ & Hf).
  cbn [score transaction_count category features].
  split; [now rewrite (Permutation_length Hp)|].
  split; [reflexivity|].
  split; [now rewrite Hnd|]. split; [now rewrite Hns|].
  split; [now rewrite Hnw|]. split; [now rewrite Hu|].
  now rewrite Hf.
Qed.

Lemma reordering_keeps_counts_witness :
  Permutation scenario_A scenario_A_reversed
  /\ _calculate_dex_score scenario_A_now scenario_A = Ok scenario_A_category
  /\ exists c',
       _calculate_dex_score scenario_A_now scenario_A_reversed = Ok c'
       /\ transaction_count c' = transaction_count scenario_A_category.
Proof.
  assert (Hp : Permutation scenario_A scenario_A_reversed)
    by apply Permutation_rev.
  split; [exact Hp|]. split; [exact scenario_A_dex_score|].
  destruct (reordering_keeps_counts scenario_A_now scenario_A
              scenario_A_reversed scenario_A_category Hp scenario_A_dex_score)
    as (c' & H1 & H2 & _).
  exists c'. split; assumption.
Defined.

(** ** Which wallets are scored *)

Lemma process_loop_scorable now wd : forall cats ts tw r,
  process_loop now wd cats ts tw = Ok r -> forallb scorable_bucket wd = true.
Proof.
  induction wd as [|pd rest IH]; intros cats ts tw r H; [reflexivity|].
  unfold process_loop in *; cbn [process_loop_with forallb] in *; fold process_loop in *. unfold scorable_bucket at 1, is_dexes.
  destruct (String.eqb (lower (protocolType pd)) "dexes").
  - unfold _calculate_dex_score, _transactions_to_dataframe in H.
    destruct (mapM make_row (transactions pd)) as [rows|e] eqn:Hm;
      cbn [bind] in H; [|discriminate].
    rewrite (mapM_make_row_in_range _ _ Hm).
    rewrite (mapM_make_row_ok _ _ Hm) in H.
    destruct (transactions pd) as [|tx txs]; cbn [map sort_values_timestamp] in H;
      [discriminate|].
    cbn [bind] in H. cbn [andb]. now apply IH in H.
  - rewrite basic_protocol_score_raises in H. discriminate.
Qed.

Lemma process_wallet_data_scorable now wd r :
  process_wallet_data now wd = Ok r -> forallb scorable_bucket wd = true.
Proof.
  unfold process_wallet_data, process_wallet_data_with; fold process_loop.
  destruct (process_loop now wd [] 0%Q 0%Q) as [a|e] eqn:HL;
    [|discriminate].
  intros _. exact (process_loop_scorable _ _ _ _ _ _ HL).
Qed.

Lemma process_wallet_data_unscorable now wd e :
  process_wallet_data now wd = Raise e -> forallb scorable_bucket wd = false.
Proof.
  intros H. destruct (forallb scorable_bucket wd) eqn:Hs; [|reflexivity].
  destruct (process_wallet_data_total now wd Hs) as (c & o & Ho).
  rewrite Ho in H. discriminate.
Qed.

Lemma timestamp_in_range_bounds tx :
  timestamp_in_range tx = true
  <-> -62135510400 <= timestamp tx <= 253402300799.
Proof.
  unfold timestamp_in_range, MIN_TIMESTAMP, MAX_TIMESTAMP, max_fold_seconds.
  rewrite andb_true_iff, !Z.leb_le. lia.
Qed.

(** The first day of year 1 is refused, the second is accepted, and so is
    the last second of year 9999 but not the next. *)
Lemma datetime_fromtimestamp_edges :
  datetime_fromtimestamp (-62135596800) = Raise (ValueError "year is out of range")
  /\ datetime_fromtimestamp (-62135510401)
     = Raise (ValueError "year is out of range")
  /\ datetime_fromtimestamp (-62135510400) = Ok (-62135510400)
  /\ datetime_fromtimestamp 253402300799 = Ok 253402300799
  /\ datetime_fromtimestamp 253402300800
     = Raise (ValueError "year is out of range").
Proof. repeat split. Qed.

(** X10. On a host whose local time is UTC, [process_wallet_data] returns a
    result exactly for the wallets all of whose buckets are "dexes" buckets
    with at least one transaction and timestamps that
    [datetime.fromtimestamp] converts, those from -62135510400
    (0001-01-02 00:00:00) to 253402300799 (9999-12-31 23:59:59); for every
    other wallet it raises. *)
Theorem process_wallet_data_returns_iff :
  forall (now : Z) (wd : list ProtocolData),
    match process_wallet_data now wd with
    | Ok (cats, _) =>
        forallb scorable_bucket wd = true
        /\ List.length cats = List.length wd
    | Raise _ => forallb scorable_bucket wd = false
    end
    /\ forall pd : ProtocolData,
         scorable_bucket pd = true
         <-> (String.eqb (lower (protocolType pd)) "dexes" = true
              /\ transactions pd <> []
              /\ Forall (fun tx => -62135510400 <= timestamp tx <= 253402300799)
                   (transactions pd)).
Proof.
  intros now wd. split.
  - destruct (process_wallet_data now wd) as [[cats overall]|e] eqn:H.
    + destruct (process_wallet_data_ok now wd cats overall H) as [HF _].
      split; [|symmetry; exact (Forall2_length HF)].
      exact (process_wallet_data_scorable _ _ _ H).
    + exact (process_wallet_data_unscorable _ _ _ H).
  - intros pd. unfold scorable_bucket, is_dexes.
    rewrite !andb_true_iff, forallb_forall, Forall_forall.
    split.
    + intros [[Hd Hne] Hr]. split; [exact Hd|]. split.
      * destruct (transactions pd); [discriminate | discriminate].
      * intros tx Hin. apply timestamp_in_range_bounds, Hr, Hin.
    + intros (Hd & Hne & Hr). split; [split; [exact Hd|]|].
      * destruct (transactions pd); [contradiction | reflexivity].
      * intros tx Hin. apply timestamp_in_range_bounds, Hr, Hin.
Qed.

(** ** Validation *)

Lemma mapM_Transaction_validate txs :
  mapM Transaction_validate txs
  = if forallb action_is_valid txs then Ok txs
    else Raise (ValueError "Invalid action").
Proof.
  induction txs as [|tx txs IH]; cbn [mapM forallb]; [reflexivity|].
  unfold Transaction_validate at 1, validate_action, action_is_valid at 1.
  destruct (str_in (action tx) valid_actions); cbn [negb bind andb];
    [|reflexivity].
  rewrite IH. destruct (forallb action_is_valid txs); reflexivity.
Qed.

Lemma mapM_ProtocolData_validate wd :
  forallb (fun pd => forallb action_is_valid (transactions pd)) wd = true ->
  mapM ProtocolData_validate wd = Ok wd.
Proof.
  induction wd as [|pd wd IH]; cbn [mapM forallb]; [reflexivity|].
  intros H. apply andb_prop in H as [Hpd Hr].
  unfold ProtocolData_validate at 1.
  rewrite mapM_Transaction_validate, Hpd. cbn [bind].
  rewrite (IH Hr). cbn [bind]. now destruct pd.
Qed.

Lemma mapM_ProtocolData_validate_bad wd :
  forallb (fun pd => forallb action_is_valid (transactions pd)) wd = false ->
  exists e, mapM ProtocolData_validate wd = Raise e.
Proof.
  induction wd as [|pd wd IH]; cbn [mapM forallb]; [discriminate|].
  intros H. unfold ProtocolData_validate at 1.
  rewrite mapM_Transaction_validate.
  destruct (forallb action_is_valid (transactions pd)); cbn [bind andb] in *.
  - destruct (IH H) as [e ->]. cbn [bind]. eauto.
  - eauto.
Qed.

Lemma WalletTransactionInput_init_spec :
  forall m : MessageData,
    WalletTransactionInput_init m
    = if input_valid m
      then Ok (mkWalletTransactionInput (msg_wallet_address m) (msg_data m))
      else Raise (ValidationError "validation error for WalletTransactionInput").
Proof.
  intros m. unfold WalletTransactionInput_init, input_valid.
  rewrite validate_wallet_address_shape.
  destruct (forallb (fun pd => forallb action_is_valid (transactions pd))
              (msg_data m)) eqn:Hv.
  - rewrite (mapM_ProtocolData_validate _ Hv).
    destruct (address_shape_ok (msg_wallet_address m)); reflexivity.
  - destruct (mapM_ProtocolData_validate_bad _ Hv) as [e ->].
    destruct (address_shape_ok (msg_wallet_address m)); reflexivity.
Qed.

(** X11. Validation accepts a message exactly when its wallet address has
    the "0x" prefix and 42 characters and every transaction carries one of
    the five actions; an accepted message is passed on unchanged, any other
    raises one validation error. *)
Theorem validation_accepts_iff :
  forall m : MessageData,
    WalletTransactionInput_init m
    = if address_shape_ok (msg_wallet_address m)
         && forallb (fun pd => forallb action_is_valid (transactions pd))
                    (msg_data m)
      then Ok (mkWalletTransactionInput (msg_wallet_address m) (msg_data m))
      else Raise (ValidationError "validation error for WalletTransactionInput").
Proof.
  intros m. rewrite WalletTransactionInput_init_spec.
  unfold input_valid. reflexivity.
Qed.

(** ** The outcome of a message *)

(** X12. A message is published as a success record exactly when it passes
    validation and every bucket can be scored (a "dexes" bucket with at
    least one transaction and timestamps from 0001-01-02 to the end of year
    9999, on a host whose local time is UTC); the success record then names
    the wallet and has one category per bucket.  Every other message is
    published as a failure record. *)
Theorem message_success_iff :
  forall (st : Stats) (now ms : Z) (m : MessageData),
    match fst (_process_message st now ms m) with
    | PublishedSuccess s =>
        message_accepted m = true
        /\ ws_wallet_address s = msg_wallet_address m
        /\ List.length (ws_categories s) = List.length (msg_data m)
        /\ ws_timestamp s = now /\ ws_processing_time_ms s = ms
    | PublishedFailure _ => message_accepted m = false
    end.
Proof.
  intros st now ms m. unfold _process_message, try_block, message_accepted.
  rewrite WalletTransactionInput_init_spec.
  destruct (input_valid m); cbn [andb wallet_address data].
  - destruct (process_wallet_data now (msg_data m)) as [[cats overall]|e] eqn:H;
      cbn [bind].
    + rewrite WalletScoreSuccess_init_ok.
      cbn [fst ws_wallet_address ws_categories ws_timestamp
           ws_processing_time_ms].
      destruct (process_wallet_data_ok now _ cats overall H) as [HF _].
      rewrite (process_wallet_data_scorable _ _ _ H).
      repeat split. symmetry. exact (Forall2_length HF).
    + pose proof (process_wallet_data_unscorable _ _ _ H) as Hu.
      destruct e; exact Hu.
  - reflexivity.
Qed.


Lemma mapM_make_row_raises txs e :
  mapM make_row txs = Raise e -> is_validation_error e = false.
Proof.
  induction txs as [|tx txs IH]; cbn [mapM]; [discriminate|].
  unfold make_row at 1, datetime_fromtimestamp.
  destruct ((MIN_TIMESTAMP <=? timestamp tx) && (timestamp tx <=? MAX_TIMESTAMP));
    cbn [bind].
  - destruct (mapM make_row txs) as [rs|e']; cbn [bind]; [discriminate|].
    intros [= <-]. now apply IH.
  - intros [= <-]. reflexivity.
Qed.

Lemma calculate_dex_score_raises_kind now txs e :
  _calculate_dex_score now txs = Raise e -> is_validation_error e = false.
Proof.
  unfold _calculate_dex_score, _transactions_to_dataframe.
  destruct (mapM make_row txs) as [rows|e'] eqn:Hm; cbn [bind].
  - destruct rows; cbn [sort_values_timestamp bind]; [|discriminate].
    intros [= <-]. reflexivity.
  - intros [= <-]. exact (mapM_make_row_raises _ _ Hm).
Qed.

Lemma process_loop_raises_kind now wd : forall cats ts tw e,
  process_loop now wd cats ts tw = Raise e -> is_validation_error e = false.
Proof.
  induction wd as [|pd rest IH]; intros cats ts tw e H;
    unfold process_loop in H; cbn [process_loop_with] in H; fold process_loop in H; [discriminate|].
  destruct (String.eqb (lower (protocolType pd)) "dexes").
  - destruct (_calculate_dex_score now (transactions pd)) as [c|e'] eqn:Hc;
      cbn [bind] in H.
    + exact (IH _ _ _ _ H).
    + injection H as <-. exact (calculate_dex_score_raises_kind _ _ _ Hc).
  - rewrite basic_protocol_score_raises in H. cbn [bind] in H.
    injection H as <-. reflexivity.
Qed.

Lemma process_wallet_data_raises_kind now wd e :
  process_wallet_data now wd = Raise e -> is_validation_error e = false.
Proof.
  unfold process_wallet_data, process_wallet_data_with; fold process_loop.
  destruct (process_loop now wd [] 0%Q 0%Q) as [[[c t] w]|e'] eqn:HL;
    cbn [bind]; [discriminate|].
  intros [= <-]. exact (process_loop_raises_kind _ _ _ _ _ _ HL).
Qed.

Lemma prefix_append p s : String.prefix p (String.append p s) = true.
Proof.
  induction p as [|c p IH]; cbn [String.append String.prefix].
  - now destruct s.
  - destruct (ascii_dec c c) as [_|N]; [exact IH | now destruct N].
Qed.

(** X13. A failure record names the wallet only when the message passed
    validation: a validation failure is reported for wallet "unknown" with
    an error starting "Validation error: ", a scoring failure for the
    message's wallet address with an error starting "Processing error: ".
    Either way the record lists one entry per bucket of the message, with
    the bucket's protocol type and transaction count. *)
Theorem failure_record_contents :
  forall (st : Stats) (now ms : Z) (m : MessageData),
    match fst (_process_message st now ms m) with
    | PublishedSuccess _ => True
    | PublishedFailure f =>
        wf_wallet_address f
        = (if input_valid m then msg_wallet_address m else "unknown")
        /\ String.prefix (if input_valid m then "Processing error: "
                          else "Validation error: ") (wf_error f) = true
        /\ map ce_category (wf_categories f) = map protocolType (msg_data m)
        /\ map ce_transaction_count (wf_categories f)
           = map (fun pd => Z.of_nat (List.length (transactions pd)))
                 (msg_data m)
        /\ wf_timestamp f = now /\ wf_processing_time_ms f = ms
    end.
Proof.
  intros st now ms m. unfold _process_message, try_block.
  rewrite WalletTransactionInput_init_spec.
  assert (Hc : map ce_category (_create_error_categories m)
               = map protocolType (msg_data m)
               /\ map ce_transaction_count (_create_error_categories m)
                  = map (fun pd => Z.of_nat (List.length (transactions pd)))
                        (msg_data m)).
  { unfold _create_error_categories. rewrite !map_map. split; reflexivity. }
  destruct Hc as [Hc1 Hc2].
  destruct (input_valid m); cbn [wallet_address data].
  - destruct (process_wallet_data now (msg_data m)) as [[cats overall]|e] eqn:H;
      cbn [bind].
    + rewrite WalletScoreSuccess_init_ok. exact I.
    + pose proof (process_wallet_data_raises_kind now _ _ H) as Hk.
      destruct e; try discriminate Hk;
        cbn [fst wf_wallet_address wf_error wf_categories wf_timestamp
             wf_processing_time_ms];
        rewrite prefix_append; repeat split; assumption.
  - cbn [fst wf_wallet_address wf_error wf_categories wf_timestamp
         wf_processing_time_ms].
    rewrite prefix_append. repeat split; assumption.
Qed.

(** A valid address does not save a message with an unknown action: it is
    reported for wallet "unknown". *)
Lemma invalid_action_reported_unknown :
  fst (_process_message (initial_stats 0) 1700000000 5 invalid_action_message)
  = PublishedFailure
      (mkWalletScoreFailure "unknown"
         "Validation error: validation error for WalletTransactionInput"
         1700000000 5 [mkCategoryError "dexes" "Failed to process" 1]).
Proof. reflexivity. Qed.

(** ** Statistics along a run *)

Lemma process_message_stats st now ms m :
  exists w,
    snd (_process_message st now ms m)
    = _update_stats st (is_success (fst (_process_message st now ms m))) ms w.
Proof.
  unfold _process_message.
  destruct (try_block now ms m) as [w [s | [e|e|e]]]; exists w; reflexivity.
Qed.

(** X14. Along a run of messages the counters follow the published
    records: one record is published per message, the processed count grows
    by the number of messages, the success and failure counts by the number
    of success and failure records, the cumulative time by the sum of the
    measured times, and the start time is kept. *)
Theorem process_all_accounting :
  forall (batch : list (Z * Z * MessageData)) (st : Stats),
    List.length (fst (process_all st batch)) = List.length batch
    /\ total_wallets_processed (snd (process_all st batch))
       = total_wallets_processed st + Z.of_nat (List.length batch)
    /\ successful_wallets (snd (process_all st batch))
       = successful_wallets st + count_successes (fst (process_all st batch))
    /\ failed_wallets (snd (process_all st batch))
       = failed_wallets st + count_failures (fst (process_all st batch))
    /\ total_processing_time_ms (snd (process_all st batch))
       = total_processing_time_ms st
         + Zsum (map (fun b => snd (fst b)) batch)
    /\ start_time (snd (process_all st batch)) = start_time st.
Proof.
  unfold count_successes, count_failures.
  induction batch as [|[[now ms] m] rest IH]; intros st.
  - cbn. repeat split; lia.
  - cbn [process_all].
    destruct (process_message_stats st now ms m) as [w Hw].
    destruct (_process_message st now ms m) as [p st1].
    cbn [fst snd] in Hw. subst st1.
    specialize (IH (_update_stats st (is_success p) ms w)).
    destruct (process_all (_update_stats st (is_success p) ms w) rest)
      as [ps st2].
    cbn [fst snd] in *.
    destruct IH as (H1 & H2 & H3 & H4 & H5 & H6).
    cbn [List.length map filter].
    change (Zsum (snd (fst (now, ms, m))
                  :: map (fun b : Z * Z * MessageData => snd (fst b)) rest))
      with (ms + Zsum (map (fun b : Z * Z * MessageData => snd (fst b)) rest)).
    rewrite H2, H3, H4, H5, H6.
    destruct p; cbn [is_success negb _update_stats total_wallets_processed
                     successful_wallets failed_wallets
                     total_processing_time_ms start_time List.length];
      repeat split; lia.
Qed.

(** ** Reading the zscore back *)

Lemma string_of_uint_value d : forall acc,
  digits_value_acc (NilEmpty.string_of_uint d) acc = uint_value_acc d acc.
Proof.
  induction d; intros acc; cbn [NilEmpty.string_of_uint digits_value_acc
                                 uint_value_acc]; try reflexivity;
    rewrite IHd; f_equal; unfold digit_value; cbn; lia.
Qed.

Lemma pos_of_uint_acc_value d : forall p,
  Z.pos (Pos.of_uint_acc d p) = uint_value_acc d (Z.pos p).
Proof.
  induction d; intros p; cbn [Pos.of_uint_acc uint_value_acc];
    try reflexivity; rewrite IHd; f_equal; lia.
Qed.

Lemma pos_of_uint_value d : Z.of_N (Pos.of_uint d) = uint_value_acc d 0.
Proof.
  induction d; cbn [Pos.of_uint uint_value_acc]; try reflexivity;
    try exact IHd;
    cbn [Z.of_N]; rewrite pos_of_uint_acc_value; reflexivity.
Qed.

Lemma str_of_nonneg_value n : 0 <= n -> digits_value (str_of_nonneg n) = n.
Proof.
  intros Hn. unfold digits_value, str_of_nonneg.
  assert (E : digits_value_acc
                (NilZero.string_of_uint (N.to_uint (Z.to_N n))) 0
              = uint_value_acc (N.to_uint (Z.to_N n)) 0).
  { unfold NilZero.string_of_uint.
    destruct (N.to_uint (Z.to_N n)); try apply string_of_uint_value.
    reflexivity. }
  rewrite E, <- pos_of_uint_value.
  change (Pos.of_uint (N.to_uint (Z.to_N n)))
    with (N.of_uint (N.to_uint (Z.to_N n))).
  rewrite DecimalN.Unsigned.of_to. now apply Z2N.id.
Qed.

Lemma digits_value_acc_append a b : forall acc,
  digits_value_acc (String.append a b) acc
  = digits_value_acc b (digits_value_acc a acc).
Proof.
  induction a as [|c a IH]; intros acc; cbn [String.append digits_value_acc];
    [reflexivity | apply IH].
Qed.

Lemma digit_value_char d : 0 <= d < 10 -> digit_value (digit_char d) = d.
Proof.
  intros H.
  assert (E : d = 0 \/ d = 1 \/ d = 2 \/ d = 3 \/ d = 4 \/ d = 5 \/ d = 6
              \/ d = 7 \/ d = 8 \/ d = 9) by lia.
  repeat (destruct E as [-> | E]; [reflexivity|]). subst. reflexivity.
Qed.

Lemma digits_fixed_value k : forall n,
  digits_value (digits_fixed k n) = n mod 10 ^ Z.of_nat k.
Proof.
  unfold digits_value.
  induction k as [|k IH]; intros n; cbn [digits_fixed].
  - cbn [digits_value_acc]. change (10 ^ Z.of_nat 0) with 1.
    now rewrite Z.mod_1_r.
  - rewrite digits_value_acc_append, IH. cbn [digits_value_acc].
    rewrite digit_value_char by (apply Z.mod_pos_bound; lia).
    rewrite Nat2Z.inj_succ, Z.pow_succ_r by lia.
    rewrite (Z.rem_mul_r n 10 (10 ^ Z.of_nat k)) by lia. lia.
Qed.

Lemma Qround_half_even_error y :
  (Qabs (inject_Z (Qround_half_even y) - y) <= 1 # 2)%Q.
Proof.
  unfold Qround_half_even.
  pose proof (Qfloor_le y) as Hl. pose proof (Qlt_floor y) as Hu.
  rewrite inject_Z_plus in Hu. change (inject_Z 1) with 1%Q in Hu.
  apply Qabs_Qle_condition.
  destruct (Qcompare_spec (y - inject_Z (Qfloor y)) (1 # 2)) as [E|E|E];
    try destruct (Z.even (Qfloor y));
    rewrite ?inject_Z_plus; change (inject_Z 1) with 1%Q; split; lra.
Qed.

Lemma Qround_half_even_sign y :
  ((0 <= y)%Q -> 0 <= Qround_half_even y)
  /\ ((y <= 0)%Q -> Qround_half_even y <= 0).
Proof.
  pose proof (Qround_half_even_error y) as He.
  apply Qabs_Qle_condition in He as [He1 He2].
  split; intros H.
  - assert (Hq : (-1 < inject_Z (Qround_half_even y))%Q) by lra.
    rewrite <- (Zlt_Qlt (-1)) in Hq. lia.
  - assert (Hq : (inject_Z (Qround_half_even y) < 1)%Q) by lra.
    rewrite <- (Zlt_Qlt _ 1) in Hq. lia.
Qed.

Lemma parse_signed_number neg ip fp :
  nonempty ip = true -> all_digits ip = true -> all_digits fp = true ->
  parse_fixed (signed_number neg ip fp)
  = Some (let v := (inject_Z (digits_value ip)
                    + inject_Z (digits_value fp)
                      / inject_Z (10 ^ Z.of_nat (String.length fp)))%Q in
          if neg then (- v)%Q else v).
Proof.
  intros Hne Hip Hfp. unfold parse_fixed.
  destruct (strip_sign_signed_number neg ip fp Hne Hip) as [_ ->].
  rewrite (split_at_dot_digits ip fp Hip), Hne, Hip, Hfp. cbn [andb].
  assert (Hm : has_minus (signed_number neg ip fp) = neg).
  { unfold signed_number. destruct neg; [reflexivity|].
    destruct ip as [|c ip]; [discriminate|].
    cbn [all_digits] in Hip. apply andb_prop in Hip as [Hc _].
    destruct (is_digit_plain c Hc) as (Hmn & _). exact Hmn. }
  now rewrite Hm.
Qed.

(** X15. Reading the formatted zscore back as a decimal number gives the
    score rounded to 18 decimals: the value read differs from the score by
    at most half a unit of the 18th decimal place. *)
Theorem zscore_round_trip :
  forall x : Q,
    exists q,
      parse_fixed (format_f18 x) = Some q
      /\ (q == inject_Z (Qround_half_even (x * inject_Z (10 ^ 18)))
               / inject_Z (10 ^ 18))%Q
      /\ (Qabs (q - x) <= 1 # (2 * 10 ^ 18))%Q.
Proof.
  intros x.
  set (r := Qround_half_even (x * inject_Z (10 ^ 18))).
  assert (Hq : exists q, parse_fixed (format_f18 x) = Some q
                         /\ (q == inject_Z r / inject_Z (10 ^ 18))%Q).
  { unfold format_f18. cbv zeta. fold r.
    destruct (str_of_nonneg_digits (Z.abs r / 10 ^ 18)) as [Hd Hn].
    pose proof (digits_fixed_all_digits 18 (Z.abs r mod 10 ^ 18)) as Hf.
    change (String.append (if Qgt_bool 0 x then "-" else "")
              (String.append (str_of_nonneg (Z.abs r / 10 ^ 18))
                 (String "." (digits_fixed 18 (Z.abs r mod 10 ^ 18)))))
      with (signed_number (Qgt_bool 0 x) (str_of_nonneg (Z.abs r / 10 ^ 18))
              (digits_fixed 18 (Z.abs r mod 10 ^ 18))).
    rewrite (parse_signed_number _ _ _ Hn Hd Hf).
    eexists. split; [reflexivity|]. cbv zeta.
    rewrite str_of_nonneg_value by (apply Z.div_pos; lia).
    rewrite digits_fixed_length, digits_fixed_value.
    change (10 ^ Z.of_nat 18) with (10 ^ 18).
    rewrite Z.mod_mod by lia.
    assert (Hv : (inject_Z (Z.abs r / 10 ^ 18)
                  + inject_Z (Z.abs r mod 10 ^ 18) / inject_Z (10 ^ 18)
                  == inject_Z (Z.abs r) / inject_Z (10 ^ 18))%Q).
    { rewrite (Z.div_mod (Z.abs r) (10 ^ 18)) at 3 by lia.
      rewrite inject_Z_plus, inject_Z_mult. field. discriminate. }
    destruct (Qround_half_even_sign (x * inject_Z (10 ^ 18))) as [Hpos Hneg].
    fold r in Hpos, Hneg.
    unfold Qgt_bool. destruct (Qle_bool 0 x) eqn:Hx; cbn [negb].
    - apply Qle_bool_iff in Hx. rewrite Hv.
      rewrite Z.abs_eq; [reflexivity|].
      apply Hpos. apply Qmult_le_0_compat; [exact Hx | discriminate].
    - assert (Hx' : (x <= 0)%Q).
      { destruct (Qlt_le_dec x 0) as [H|H]; [lra|].
        apply Qle_bool_iff in H. congruence. }
      rewrite Hv, Z.abs_neq.
      + rewrite inject_Z_opp. field. discriminate.
      + apply Hneg.
        assert (0 <= inject_Z (10 ^ 18))%Q by discriminate. nra. }
  destruct Hq as (q & Hp & Hqv). exists q. split; [exact Hp|].
  split; [exact Hqv|].
  pose proof (Qround_half_even_error (x * inject_Z (10 ^ 18))) as He.
  fold r in He. apply Qabs_Qle_condition in He as [He1 He2].
  apply Qabs_Qle_condition. rewrite Hqv.
  assert (HD : (inject_Z (10 ^ 18) == 1000000000000000000)%Q) by reflexivity.
  assert (HE : (1 # (2 * 10 ^ 18) == 1 # 2000000000000000000)%Q)
    by reflexivity.
  rewrite HD in *. rewrite HE.
  assert (Ht : (inject_Z r / 1000000000000000000 * 1000000000000000000
                == inject_Z r)%Q) by (field; discriminate).
  set (t := (inject_Z r / 1000000000000000000)%Q) in *.
  clearbody t. rewrite <- Ht in He1, He2.
  split; lra.
Qed.

(** X16. The zscore validator accepts every string the formatter produces,
    so building the success record never fails on the zscore: a scored
    wallet is not turned into a failure by [validate_zscore]. *)
Theorem formatted_score_passes_validator :
  forall (x : Q) (w : string) (now ms : Z) (cats : list CategoryScore),
    validate_zscore (format_f18 x) = Ok (format_f18 x)
    /\ WalletScoreSuccess_init w (format_f18 x) now ms cats
       = Ok (mkWalletScoreSuccess w (format_f18 x) now ms cats).
Proof.
  intros x w now ms cats. split.
  - unfold validate_zscore. now rewrite format_f18_Decimal_accepts.
  - apply WalletScoreSuccess_init_ok.
Qed.

(** ** The consumer loop and the broker *)

Lemma producer_send_reliable c r :
  c_sends c = [] ->
  producer_send c r
  = (Confirmed, mkConsumer (c_stats c) [] (c_delivered c ++ [r])%list).
Proof. intros H. unfold producer_send. now rewrite H. Qed.

Lemma process_message_sent_reliable c now ms m :
  c_sends c = [] ->
  _process_message_sent c now ms m
  = (Confirmed,
     mkConsumer (snd (_process_message (c_stats c) now ms m)) []
       (c_delivered c ++ [fst (_process_message (c_stats c) now ms m)])%list).
Proof.
  intros H. unfold _process_message_sent, _process_message, except_branch,
    _publish_success, _publish_failure.
  destruct (try_block now ms m) as [w [s | [e|e|e]]];
    rewrite (producer_send_reliable _ _ H); reflexivity.
Qed.

(** X17. With a broker that confirms every send, the consumer loop keeps
    running, delivers exactly the records of [_process_message] in message
    order and ends with the same statistics. *)
Theorem consume_reliable_broker :
  forall (batch : list (Z * Z * MessageData)) (c : Consumer),
    c_sends c = [] ->
    consume c batch
    = (true,
       mkConsumer (snd (process_all (c_stats c) batch)) []
         (c_delivered c ++ fst (process_all (c_stats c) batch))%list).
Proof.
  induction batch as [|[[now ms] m] rest IH]; intros c H.
  - cbn [consume process_all fst snd]. rewrite app_nil_r.
    destruct c as [st sends del]. cbn in H. now subst sends.
  - cbn [consume process_all].
    rewrite (process_message_sent_reliable c now ms m H).
    rewrite IH by reflexivity. cbn [c_stats c_delivered].
    destruct (_process_message (c_stats c) now ms m) as [p st1].
    cbn [fst snd].
    destruct (process_all st1 rest) as [ps st2].
    cbn [fst snd]. rewrite <- app_assoc. reflexivity.
Qed.

Lemma consume_reliable_broker_witness :
  c_sends (mkConsumer (initial_stats 0) [] []) = []
  /\ fst (consume (mkConsumer (initial_stats 0) [] [])
            [(1700000000, 5, mkMessageData "invalid_address" [])])
     = true.
Proof.
  split; [reflexivity|].
  rewrite (consume_reliable_broker
             [(1700000000, 5, mkMessageData "invalid_address" [])]
             (mkConsumer (initial_stats 0) [] []) eq_refl).
  reflexivity.
Defined.

Lemma try_block_outcome now ms m :
  match snd (try_block now ms m) with
  | Ok _ => message_accepted m = true
  | Raise _ => message_accepted m = false
  end.
Proof.
  unfold try_block, message_accepted.
  rewrite WalletTransactionInput_init_spec.
  destruct (input_valid m); cbn [andb wallet_address data snd].
  - destruct (process_wallet_data now (msg_data m)) as [[cats overall]|e] eqn:H;
      cbn [bind].
    + rewrite WalletScoreSuccess_init_ok.
      exact (process_wallet_data_scorable _ _ _ H).
    + exact (process_wallet_data_unscorable _ _ _ H).
  - reflexivity.
Qed.

Lemma count_successes_app ps qs :
  count_successes (ps ++ qs) = count_successes ps + count_successes qs.
Proof.
  unfold count_successes. rewrite filter_app, length_app. lia.
Qed.

Lemma count_failures_app ps qs :
  count_failures (ps ++ qs) = count_failures ps + count_failures qs.
Proof.
  unfold count_failures. rewrite filter_app, length_app. lia.
Qed.

Ltac broker_cases c :=
  destruct c as [st sends del];
  destruct sends as [|[|t1] [|[|t2] sends]];
  cbn [producer_send c_sends c_stats c_delivered with_stats fst snd].

Ltac message_cases now ms m :=
  unfold _process_message_sent, except_branch, _publish_success,
    _publish_failure;
  pose proof (try_block_outcome now ms m) as Hacc;
  destruct (try_block now ms m) as [w [s | [e|e|e]]];
  cbn [snd] in Hacc.

(** The counters follow the records one message delivers. *)
Lemma process_message_sent_accounting c now ms m :
  exists new,
    c_delivered (snd (_process_message_sent c now ms m))
    = (c_delivered c ++ new)%list
    /\ (List.length new <= 1)%nat
    /\ match fst (_process_message_sent c now ms m) with
       | Confirmed => True
       | SendRaises _ => new = []
       end
    /\ successful_wallets (c_stats (snd (_process_message_sent c now ms m)))
       = successful_wallets (c_stats c) + count_successes new
    /\ failed_wallets (c_stats (snd (_process_message_sent c now ms m)))
       = failed_wallets (c_stats c) + count_failures new
    /\ total_wallets_processed
         (c_stats (snd (_process_message_sent c now ms m)))
       = total_wallets_processed (c_stats c) + Z.of_nat (List.length new).
Proof.
  message_cases now ms m; broker_cases c;
    (eexists; split; [reflexivity|])
    || (exists []; split; [now rewrite app_nil_r|]);
    cbn; repeat split; lia.
Qed.

Lemma publish_failure_accounting c w e now ms cats :
  exists new,
    c_delivered (snd (_publish_failure c w e now ms cats))
    = (c_delivered c ++ new)%list
    /\ (List.length new <= 1)%nat
    /\ count_successes new = 0
    /\ c_stats (snd (_publish_failure c w e now ms cats)) = c_stats c.
Proof.
  unfold _publish_failure. broker_cases c;
    (eexists; split; [reflexivity|])
    || (exists []; split; [now rewrite app_nil_r|]);
    cbn; repeat split; lia.
Qed.

(** X18. Whatever the broker does, the consumer delivers at most one record
    per message and never withdraws one; the success counter equals the
    number of success records delivered, the failure counter never exceeds
    the number of failure records delivered, and the processed counter
    stays the sum of the other two. *)
Theorem consume_accounting :
  forall (batch : list (Z * Z * MessageData)) (c : Consumer),
    exists new : list Published,
      c_delivered (snd (consume c batch)) = (c_delivered c ++ new)%list
      /\ (List.length new <= List.length batch)%nat
      /\ successful_wallets (c_stats (snd (consume c batch)))
         = successful_wallets (c_stats c) + count_successes new
      /\ failed_wallets (c_stats c)
         <= failed_wallets (c_stats (snd (consume c batch)))
         <= failed_wallets (c_stats c) + count_failures new
      /\ total_wallets_processed (c_stats (snd (consume c batch)))
         - total_wallets_processed (c_stats c)
         = (successful_wallets (c_stats (snd (consume c batch)))
            - successful_wallets (c_stats c))
           + (failed_wallets (c_stats (snd (consume c batch)))
              - failed_wallets (c_stats c)).
Proof.
  induction batch as [|[[now ms] m] rest IH]; intros c.
  - exists []. cbn [consume snd List.length]. rewrite app_nil_r.
    unfold count_successes, count_failures. cbn. repeat split; lia.
  - cbn [consume].
    destruct (process_message_sent_accounting c now ms m)
      as (n1 & Hd1 & Hl1 & He1 & Hs1 & Hf1 & Ht1).
    destruct (_process_message_sent c now ms m) as [ok c1].
    cbn [fst snd] in Hd1, He1, Hs1, Hf1, Ht1.
    assert (Hn1 : 0 <= count_failures n1 /\ 0 <= count_successes n1
                  /\ count_failures n1 + count_successes n1
                     = Z.of_nat (List.length n1)).
    { unfold count_failures, count_successes.
      clear. induction n1 as [|[s|f] n1 IHn];
        cbn [filter is_success negb List.length] in *; lia. }
    destruct ok as [|text].
    + destruct (IH c1) as (n2 & Hd2 & Hl2 & Hs2 & Hf2 & Ht2).
      exists (n1 ++ n2)%list.
      rewrite Hd2, Hd1, <- app_assoc, length_app, count_successes_app,
        count_failures_app.
      assert (0 <= count_failures n2)
        by (unfold count_failures; lia).
      cbn [List.length]. repeat split; lia.
    + destruct (publish_failure_accounting c1 "unknown"
                  (String.append "Message processing failed: " text) now 0 [])
        as (n2 & Hd2 & Hl2 & Hs2 & Hst2).
      destruct (_publish_failure c1 "unknown" _ now 0 []) as [sent c2].
      cbn [snd] in Hd2, Hst2.
      assert (Hn2 : 0 <= count_failures n2)
        by (unfold count_failures; lia).
      subst n1. rewrite app_nil_r in Hd1.
      cbn [List.length] in Ht1. 
      change (count_successes []) with 0 in *.
      change (count_failures []) with 0 in *.
      destruct sent as [|text2].
      * destruct (IH c2) as (n3 & Hd3 & Hl3 & Hs3 & Hf3 & Ht3).
        exists (n2 ++ n3)%list.
        rewrite Hd3, Hd2, Hd1, <- app_assoc, length_app, count_successes_app,
          count_failures_app.
        rewrite Hst2 in *.
        assert (0 <= count_failures n3) by (unfold count_failures; lia).
        cbn [List.length]. repeat split; lia.
      * exists n2. cbn [snd]. rewrite Hd2, Hd1, Hst2.
        cbn [List.length]. repeat split; lia.
Qed.

Lemma no_double_failure_tl b sends :
  no_double_failure (b :: sends) = true -> no_double_failure sends = true.
Proof.
  cbn [no_double_failure]. destruct b, sends as [|[|t] sends];
    try discriminate; auto.
Qed.

Lemma consume_cons c now ms m rest :
  consume c ((now, ms, m) :: rest)
  = (if fst (consume c [(now, ms, m)])
     then consume (snd (consume c [(now, ms, m)])) rest
     else consume c [(now, ms, m)]).
Proof.
  cbn [consume].
  destruct (_process_message_sent c now ms m) as [[|t] c1]; [reflexivity|].
  destruct (_publish_failure c1 "unknown" _ now 0 []) as [[|t'] c2];
    reflexivity.
Qed.

(** With no two failed sends in a row, one message delivers one record and
    leaves a broker of the same kind. *)
Lemma consume_one_resilient c now ms m :
  no_double_failure (c_sends c) = true ->
  exists p,
    fst (consume c [(now, ms, m)]) = true
    /\ no_double_failure (c_sends (snd (consume c [(now, ms, m)]))) = true
    /\ c_delivered (snd (consume c [(now, ms, m)]))
       = (c_delivered c ++ [p])%list.
Proof.
  intros H. cbn [consume].
  message_cases now ms m; broker_cases c; cbn [c_sends] in H;
    try (cbn [no_double_failure] in H; discriminate H);
    unfold _publish_failure;
    cbn [producer_send c_sends c_stats c_delivered with_stats fst snd];
    eexists; (split; [reflexivity|]);
    (split;
     [first [ exact H
            | apply no_double_failure_tl in H; exact H
            | do 2 apply no_double_failure_tl in H; exact H
            | reflexivity ]|]);
    reflexivity.
Qed.

(** X19. One failed send at a time loses no message: when the broker never
    fails two sends in a row, the consumer keeps running and delivers
    exactly one record per message. *)
Theorem consume_absorbs_single_failures :
  forall (batch : list (Z * Z * MessageData)) (c : Consumer),
    no_double_failure (c_sends c) = true ->
    exists new : list Published,
      fst (consume c batch) = true
      /\ c_delivered (snd (consume c batch)) = (c_delivered c ++ new)%list
      /\ List.length new = List.length batch.
Proof.
  induction batch as [|[[now ms] m] rest IH]; intros c H.
  - exists []. cbn [consume fst snd List.length]. rewrite app_nil_r.
    repeat split.
  - rewrite consume_cons.
    destruct (consume_one_resilient c now ms m H) as (p & Hok & Hnd & Hd).
    rewrite Hok.
    destruct (IH _ Hnd) as (n2 & Hok2 & Hd2 & Hl2).
    exists (p :: n2). rewrite Hok2, Hd2, Hd, <- app_assoc.
    cbn [List.length app]. rewrite Hl2. repeat split.
Qed.

Lemma consume_absorbs_single_failures_witness :
  no_double_failure (c_sends flaky_consumer) = true
  /\ exists new : list Published,
      fst (consume flaky_consumer
             [(1700000000, 5, mkMessageData "invalid_address" [])]) = true
      /\ c_delivered
           (snd (consume flaky_consumer
                   [(1700000000, 5, mkMessageData "invalid_address" [])]))
         = (c_delivered flaky_consumer ++ new)%list
      /\ List.length new = 1%nat.
Proof.
  split; [reflexivity|].
  destruct (consume_absorbs_single_failures
              [(1700000000, 5, mkMessageData "invalid_address" [])]
              flaky_consumer eq_refl)
    as (new & H1 & H2 & H3).
  exists new. repeat split; assumption.
Defined.

(** X20. What becomes of one message, by the message and the next sends: a
    success record is delivered exactly when the message is acceptable
    (valid, every bucket a "dexes" bucket with at least one transaction and
    timestamps from 0001-01-02 to the end of year 9999, the host's local
    time being UTC) and the first send is confirmed; a scored wallet whose success record could
    not be sent is reported and counted as a failure; when two sends in a
    row fail (one, for an unacceptable message) nothing is delivered, the
    counters are untouched and the exception leaves the method. *)
Theorem message_delivery_cases :
  forall (c : Consumer) (now ms : Z) (m : MessageData),
    let r := _process_message_sent c now ms m in
    let delivers (p : Published) (success : bool) :=
      fst r = Confirmed
      /\ c_delivered (snd r) = (c_delivered c ++ [p])%list
      /\ is_success p = success
      /\ exists w, c_stats (snd r) = _update_stats (c_stats c) success ms w in
    let escapes (text : string) :=
      fst r = SendRaises text
      /\ c_delivered (snd r) = c_delivered c
      /\ c_stats (snd r) = c_stats c in
    match message_accepted m, c_sends c with
    | true, ([] | Confirmed :: _) =>
        exists s, delivers (PublishedSuccess s) true
    | true, SendRaises text :: ([] | Confirmed :: _) =>
        exists f, delivers (PublishedFailure f) false
                  /\ wf_error f = String.append "Processing error: " text
    | true, SendRaises _ :: SendRaises text :: _ => escapes text
    | false, ([] | Confirmed :: _) =>
        exists f, delivers (PublishedFailure f) false
    | false, SendRaises text :: _ => escapes text
    end.
Proof.
  intros c now ms m. cbv zeta.
  message_cases now ms m; rewrite Hacc; broker_cases c;
    try (repeat split; reflexivity);
    eexists; repeat split; try reflexivity; exists w; reflexivity.
Qed.

(** ** Configuration *)

Lemma validate_config_ok_iff self :
  _validate_config self = Ok tt
  <-> forall var, In var required_vars -> getattr self var <> "".
Proof.
  unfold _validate_config.
  assert (Hne : forall s, nonempty s = true <-> s <> "").
  { intros [|c s]; cbn; split; congruence. }
  split.
  - intros H var Hin.
    destruct (filter _ required_vars) as [|x l] eqn:Hf; [|discriminate].
    apply Hne. destruct (nonempty (getattr self var)) eqn:Hn; [reflexivity|].
    assert (Hx : In var (filter (fun var => negb (nonempty (getattr self var)))
                           required_vars))
      by (apply filter_In; split; [exact Hin | now rewrite Hn]).
    rewrite Hf in Hx. destruct Hx.
  - intros H.
    destruct (filter _ required_vars) as [|x l] eqn:Hf; [reflexivity|].
    assert (Hx : In x (filter (fun var => negb (nonempty (getattr self var)))
                         required_vars))
      by (rewrite Hf; left; reflexivity).
    apply filter_In in Hx. destruct Hx as [Hin Hn].
    apply H in Hin. apply Hne in Hin. rewrite Hin in Hn. discriminate.
Qed.

Lemma validate_config_result self :
  _validate_config self = Ok tt \/ exists e, _validate_config self = Raise e.
Proof.
  unfold _validate_config.
  destruct (filter _ required_vars); [left | right; eexists]; reflexivity.
Qed.

Lemma getenv_nonempty environ key default :
  default <> "" -> (getenv environ key default <> "" <-> environ key <> Some "").
Proof.
  intros Hd. unfold getenv. destruct (environ key) as [v|].
  - split; congruence.
  - split; [discriminate | intros _; exact Hd].
Qed.

(** X21. [Config()] is built exactly when the four numeric settings are
    read by [int] and none of the five required variables is set to the
    empty string.  A required variable that is not set at all is no
    obstacle: its default takes its place. *)
Theorem config_init_succeeds_iff :
  forall (int : string -> result Z) (environ : Environ),
    (exists cfg, Config_init int environ = Ok cfg)
    <-> ((exists n, int (getenv environ "PORT" "8000") = Ok n)
         /\ (exists n, int (getenv environ "MAX_WORKERS" "4") = Ok n)
         /\ (exists n, int (getenv environ "BATCH_SIZE" "10") = Ok n)
         /\ (exists n,
               int (getenv environ "PROCESSING_TIMEOUT_MS" "5000") = Ok n)
         /\ forall var, In var required_vars -> environ var <> Some "").
Proof.
  intros int environ. unfold Config_init.
  destruct (int (getenv environ "PORT" "8000")) as [p|e1]; cbn [bind];
    [|split; [intros [? H]; discriminate H
             | intros ([? H] & _); discriminate H]].
  destruct (int (getenv environ "MAX_WORKERS" "4")) as [w|e2]; cbn [bind];
    [|split; [intros [? H]; discriminate H
             | intros (_ & [? H] & _); discriminate H]].
  destruct (int (getenv environ "BATCH_SIZE" "10")) as [b|e3]; cbn [bind];
    [|split; [intros [? H]; discriminate H
             | intros (_ & _ & [? H] & _); discriminate H]].
  destruct (int (getenv environ "PROCESSING_TIMEOUT_MS" "5000")) as [t|e4];
    cbn [bind];
    [|split; [intros [? H]; discriminate H
             | intros (_ & _ & _ & [? H] & _); discriminate H]].
  match goal with
  | |- context [_validate_config ?c] => set (self := c)
  end.
  assert (Hattr : (forall var, In var required_vars -> getattr self var <> "")
                  <-> (forall var, In var required_vars
                                   -> environ var <> Some "")).
  { split; intros H var Hin; specialize (H var Hin);
      cbn in Hin;
      repeat (destruct Hin as [<- | Hin]); try contradiction;
      cbn [getattr String.eqb Ascii.eqb Bool.eqb] in *;
      unfold self in *;
      cbn [KAFKA_BOOTSTRAP_SERVERS KAFKA_INPUT_TOPIC KAFKA_SUCCESS_TOPIC
           KAFKA_FAILURE_TOPIC MONGODB_URL] in *;
      (eapply getenv_nonempty; [|exact H]; discriminate). }
  split.
  - intros [cfg H].
    destruct (validate_config_result self) as [Hv | [e Hv]];
      rewrite Hv in H; cbn [bind] in H; [|discriminate].
    repeat (split; [eexists; reflexivity|]).
    exact (proj1 Hattr (proj1 (validate_config_ok_iff self) Hv)).
  - intros (_ & _ & _ & _ & H).
    pose proof (proj2 (validate_config_ok_iff self) (proj2 Hattr H)) as Hv.
    rewrite Hv. cbn [bind]. eexists; reflexivity.
Qed.

Lemma config_init_fields int environ cfg :
  Config_init int environ = Ok cfg ->
  _validate_config cfg = Ok tt
  /\ KAFKA_BOOTSTRAP_SERVERS cfg
     = getenv environ "KAFKA_BOOTSTRAP_SERVERS" "localhost:9092"
  /\ KAFKA_INPUT_TOPIC cfg
     = getenv environ "KAFKA_INPUT_TOPIC" "wallet-transactions"
  /\ KAFKA_SUCCESS_TOPIC cfg
     = getenv environ "KAFKA_SUCCESS_TOPIC" "wallet-scores-success"
  /\ KAFKA_FAILURE_TOPIC cfg
     = getenv environ "KAFKA_FAILURE_TOPIC" "wallet-scores-failure"
  /\ KAFKA_CONSUMER_GROUP cfg
     = getenv environ "KAFKA_CONSUMER_GROUP" "ai-scoring-service".
Proof.
  unfold Config_init.
  destruct (int (getenv environ "PORT" "8000")) as [p|e1]; cbn [bind];
    [|discriminate].
  destruct (int (getenv environ "MAX_WORKERS" "4")) as [w|e2]; cbn [bind];
    [|discriminate].
  destruct (int (getenv environ "BATCH_SIZE" "10")) as [b|e3]; cbn [bind];
    [|discriminate].
  destruct (int (getenv environ "PROCESSING_TIMEOUT_MS" "5000")) as [t|e4];
    cbn [bind]; [|discriminate].
  match goal with
  | |- context [_validate_config ?c] => set (self := c)
  end.
  destruct (validate_config_result self) as [Hv | [e Hv]];
    rewrite Hv; cbn [bind]; [|discriminate].
  intros [= <-]. split; [exact Hv|]. repeat split.
Qed.

(** X22. The Kafka service started from a configuration that was built
    uses, for the servers, the three topics and the consumer group, the
    value of the environment variable when it is set and the default of
    [Config] otherwise (the defaults of [KafkaService.__init__] are never
    used); servers and topics are never the empty string. *)
Theorem kafka_service_settings :
  forall (int : string -> result Z) (environ : Environ) (cfg : Config),
    Config_init int environ = Ok cfg ->
    let ks := KafkaService_init (get_kafka_config cfg) in
    bootstrap_servers ks
    = getenv environ "KAFKA_BOOTSTRAP_SERVERS" "localhost:9092"
    /\ input_topic ks = getenv environ "KAFKA_INPUT_TOPIC" "wallet-transactions"
    /\ success_topic ks
       = getenv environ "KAFKA_SUCCESS_TOPIC" "wallet-scores-success"
    /\ failure_topic ks
       = getenv environ "KAFKA_FAILURE_TOPIC" "wallet-scores-failure"
    /\ consumer_group ks
       = getenv environ "KAFKA_CONSUMER_GROUP" "ai-scoring-service"
    /\ bootstrap_servers ks <> "" /\ input_topic ks <> ""
    /\ success_topic ks <> "" /\ failure_topic ks <> "".
Proof.
  intros int environ cfg H.
  destruct (config_init_fields int environ cfg H)
    as (Hv & H1 & H2 & H3 & H4 & H5).
  pose proof (proj1 (validate_config_ok_iff cfg) Hv) as Hne.
  cbv zeta. unfold KafkaService_init, get_kafka_config.
  cbn [dict_get String.eqb Ascii.eqb Bool.eqb bootstrap_servers input_topic
       success_topic failure_topic consumer_group].
  rewrite <- H1, <- H2, <- H3, <- H4, <- H5.
  repeat (split; [reflexivity|]).
  refine (conj (Hne "KAFKA_BOOTSTRAP_SERVERS" _)
         (conj (Hne "KAFKA_INPUT_TOPIC" _)
         (conj (Hne "KAFKA_SUCCESS_TOPIC" _)
               (Hne "KAFKA_FAILURE_TOPIC" _))));
    cbn; auto 6.
Qed.

Lemma kafka_service_settings_witness :
  Config_init plain_int empty_environ = Ok default_config
  /\ input_topic (KafkaService_init (get_kafka_config default_config))
     = "wallet-transactions".
Proof.
  split; [reflexivity|].
  exact (proj1 (proj2 (kafka_service_settings plain_int empty_environ
                         default_config eq_refl))).
Defined.

(** ** The synchronous endpoint *)

(** X23. The synchronous endpoint answers 200 or 500, never the 503 its
    body raises when the Kafka service is missing: that exception is
    caught by the handler's own [except Exception] and answered as 500.
    A 200 answer is given only when the service is running and the message
    is acceptable; its content names the wallet, carries the categories and
    the overall score that [process_wallet_data] returns for the message,
    one category per bucket, and the zscore is that overall score in the
    18-decimal fixed-point format: an optional minus sign, digits, a point
    and exactly 18 digits. *)
Theorem sync_endpoint_status :
  forall (json_renders : SyncResult -> bool) (kafka_service : bool) (now : Z)
         (wallet_data : MessageData),
    match process_wallet_sync json_renders kafka_service now wallet_data with
    | (status, Some r) =>
        status = 200
        /\ kafka_service = true
        /\ message_accepted wallet_data = true
        /\ json_renders r = true
        /\ sr_wallet_address r = msg_wallet_address wallet_data
        /\ List.length (sr_categories r) = List.length (msg_data wallet_data)
        /\ sr_timestamp r = now
        /\ Decimal_accepts (sr_zscore r) = true
        /\ fixed_point_18 (sr_zscore r) = true
        /\ exists overall : Q,
             process_wallet_data now (msg_data wallet_data)
             = Ok (sr_categories r, overall)
             /\ sr_zscore r = format_f18 overall
    | (status, None) =>
        status = 500
        /\ (kafka_service = false
            \/ message_accepted wallet_data = false
            \/ exists r, json_renders r = false)
    end.
Proof.
  intros json_renders ks now m.
  unfold process_wallet_sync, process_wallet_sync_try, message_accepted.
  destruct ks; cbn [negb]; [|split; [reflexivity | left; reflexivity]].
  rewrite WalletTransactionInput_init_spec.
  destruct (input_valid m); cbn [andb wallet_address data];
    [|split; [reflexivity | right; left; reflexivity]].
  destruct (process_wallet_data now (msg_data m)) as [[cats overall]|e] eqn:H.
  - destruct (json_renders _) eqn:Hj.
    + destruct (process_wallet_data_ok now _ cats overall H) as [HF _].
      cbn [sr_wallet_address sr_categories sr_timestamp sr_zscore].
      rewrite (process_wallet_data_scorable _ _ _ H),
        format_f18_Decimal_accepts, format_f18_fixed_point_18.
      refine (conj eq_refl (conj eq_refl (conj eq_refl (conj Hj
               (conj eq_refl (conj _ (conj eq_refl (conj eq_refl
               (conj eq_refl _))))))))).
      * symmetry. exact (Forall2_length HF).
      * exists overall. split; reflexivity.
    + split; [reflexivity|]. right; right. eexists; exact Hj.
  - split; [reflexivity|]. right; left.
    exact (process_wallet_data_unscorable _ _ _ H).
Qed.

(** ** Aggregation of a wallet with another protocol type *)

Lemma scorable_buckets_are_dexes wd :
  forallb scorable_bucket wd = true -> forallb is_dexes wd = true.
Proof.
  induction wd as [|pd wd IH]; cbn [forallb]; [reflexivity|].
  intros H. apply andb_prop in H. destruct H as [Hs Hr].
  unfold scorable_bucket in Hs.
  apply andb_prop in Hs. destruct Hs as [Hs _].
  apply andb_prop in Hs. destruct Hs as [Hd _].
  now rewrite Hd, (IH Hr).
Qed.

(** C3. On the wallet that holds the "dexes" bucket of scenario A and the
    "lending" bucket of scenario C the claim gives the overall score
    (1 * s + 0.5 * 40) / 1.5, with s the score of the "dexes" bucket, and
    this is what the loop of [process_wallet_data] computes when the scorer
    of the other protocol types returns the basic score of the
    specification.  The code returns no overall score there: the call of
    [_calculate_basic_protocol_score] raises, and so does
    [process_wallet_data].  In general the loop aggregates with weights 1
    and 1/2 whatever that scorer returns, but with the scorer of the code
    only wallets made of "dexes" buckets are ever aggregated; the empty
    wallet gives an empty category list and overall score 0. *)
Theorem overall_score_mixed_wallet :
  process_wallet_data scenario_A_now mixed_wallet
  = Raise (ValueError "CategoryFeatures object has no field")
  /\ (exists c_dex c_other overall,
         process_wallet_data_with intended_basic_protocol_score
           scenario_A_now mixed_wallet
         = Ok ([c_dex; c_other], overall)
         /\ _calculate_dex_score scenario_A_now scenario_A = Ok c_dex
         /\ (score c_other == 40)%Q
         /\ (overall == (1 * score c_dex + (1 # 2) * 40) / (1 + (1 # 2)))%Q)
  /\ (forall (fallback : ProtocolData -> result CategoryScore) (now : Z)
             (wd : list ProtocolData),
         match process_wallet_data_with fallback now wd with
         | Ok (cats, overall) =>
             List.length cats = List.length wd
             /\ (overall == overall_spec wd cats)%Q
         | Raise _ => True
         end)
  /\ (forall (now : Z) (wd : list ProtocolData),
         match process_wallet_data now wd with
         | Ok _ => forallb is_dexes wd = true
         | Raise _ => existsb (fun pd => negb (scorable_bucket pd)) wd = true
         end)
  /\ (forall now : Z, process_wallet_data now [] = Ok ([], 0%Q)).
Proof.
  split; [|split; [|split; [|split]]].
  - unfold process_wallet_data, process_wallet_data_with, mixed_wallet.
    cbn [process_loop_with].
    change (String.eqb (lower (protocolType scenario_A_bucket)) "dexes")
      with true.
    change (String.eqb (lower (protocolType scenario_C)) "dexes") with false.
    cbv iota. change (transactions scenario_A_bucket) with scenario_A.
    rewrite scenario_A_dex_score. reflexivity.
  - destruct mixed_wallet_weights as (c1 & c2 & o & H & Hs & Ho).
    exists c1, c2, o. split; [exact H|]. split; [|split; assumption].
    destruct (process_wallet_data_with_ok _ _ _ _ _ H) as [HF _].
    inversion HF as [|pd1 c1' wd1 cats1 H1 HF1]; subst.
    exact H1.
  - intros fallback now wd.
    destruct (process_wallet_data_with fallback now wd) as [[cats overall]|e]
      eqn:H; [|exact I].
    destruct (process_wallet_data_with_ok _ _ _ _ _ H) as [HF Ho].
    split; [symmetry; exact (Forall2_length HF) | exact Ho].
  - intros now wd.
    destruct (process_wallet_data now wd) as [r|e] eqn:H.
    + apply scorable_buckets_are_dexes.
      exact (process_wallet_data_scorable _ _ _ H).
    + pose proof (process_wallet_data_unscorable _ _ _ H) as Hu.
      clear H. induction wd as [|pd wd IH]; cbn [forallb existsb] in *;
        [discriminate|].
      destruct (scorable_bucket pd); cbn [negb andb orb] in *;
        [now apply IH | reflexivity].
  - reflexivity.
Qed.
